(** * rmdlconv: the v19.1 / v16 -> v10 studio-model transcoders

    A shallow embedding of the parts of [rmdl_191.cpp], of its v16 sibling
    and of [rmdl_140.cpp] that decide the vertex stride, the bone-state
    table, the arena cursor, the bone, sequence and collision records and the
    physics header, with the properties proved about them.

    Conventions.  A C integer of width w is a [Z]; where the source
    arithmetic can leave the range the wrap-around is written with [u8],
    [u16], [u32], [u64], [s32] and [s64].  A byte buffer is a [list Z] of
    values in [0, 256).  A single-precision constant is carried as its
    IEEE-754 bit pattern.  Pointers into the output buffer are byte offsets
    from its first byte. *)

From Stdlib Require Import ZArith List Lia Bool String.
From stdpp Require Import base list gmap sets.
From stdpp Require Import sorting.
Import ListNotations.
Local Open Scope Z_scope.

(* ------------------------------------------------------------------ *)
(** ** Machine integers *)

Module Ints.

Definition u8 (x : Z) : Z := x mod 2 ^ 8.
Definition u16 (x : Z) : Z := x mod 2 ^ 16.
Definition u32 (x : Z) : Z := x mod 2 ^ 32.
Definition u64 (x : Z) : Z := x mod 2 ^ 64.

(** Reinterpretation of the low 32 (64) bits as a two's complement value. *)
Definition s32 (x : Z) : Z := (x + 2 ^ 31) mod 2 ^ 32 - 2 ^ 31.
Definition s64 (x : Z) : Z := (x + 2 ^ 63) mod 2 ^ 64 - 2 ^ 63.

(** [~x] on a [uint64_t]. *)
Definition not64 (x : Z) : Z := Z.lxor x (Z.ones 64).

(** [if (x & mask)]: some bit of [mask] is set in [x]. *)
Definition test (x mask : Z) : bool := negb (Z.land x mask =? 0).

Lemma s32_small x : - 2 ^ 31 <= x < 2 ^ 31 -> s32 x = x.
Proof. intros H. unfold s32. rewrite Z.mod_small; lia. Qed.

Lemma s64_small x : - 2 ^ 63 <= x < 2 ^ 63 -> s64 x = x.
Proof. intros H. unfold s64. rewrite Z.mod_small; lia. Qed.

Lemma u64_small x : 0 <= x < 2 ^ 64 -> u64 x = x.
Proof. intros H. unfold u64. apply Z.mod_small; lia. Qed.

Lemma u32_small x : 0 <= x < 2 ^ 32 -> u32 x = x.
Proof. intros H. unfold u32. apply Z.mod_small; lia. Qed.

Lemma u16_small x : 0 <= x < 2 ^ 16 -> u16 x = x.
Proof. intros H. unfold u16. apply Z.mod_small; lia. Qed.

(** Masking [x] with [~m] first does not change a test against a mask
    disjoint from [m]. *)
Lemma test_land_not64 x m b :
  Z.land (not64 m) b = b -> test (Z.land x (not64 m)) b = test x b.
Proof.
  intros H. unfold test. now rewrite <- Z.land_assoc, H.
Qed.

End Ints.
Import Ints.

(* ------------------------------------------------------------------ *)
(** ** Vertex format: flag word and stride ([rmdl_191.cpp], lines 27-48;
       the v16 file has the same two functions under the suffix [_160]) *)

Module VertexFormat.

Definition VERTEX_HAS_UV2_FLAG : Z := 0x200000000.

Definition ConvertMeshFlags_191 (flags : Z) : Z :=
  Z.land flags (not64 VERTEX_HAS_UV2_FLAG).

Definition CalculateVertexSize_191 (flags : Z) : Z :=
  let size := 0 in
  let size := if test flags 0x1 then size + 12 else size in
  let size := if test flags 0x2 then size + 8 else size in
  let size := if test flags 0x10 then size + 4 else size in
  let size := if test flags 0x200 then size + 4 else size in
  let size := if test flags 0x1000 then size + 4 else size in
  let size := if test flags 0x2000 then size + 8 else size in
  let size := if test flags 0x4000 then size + 4 else size in
  let size := if test flags 0x2000000 then size + 8 else size in
  size.

Definition ConvertMeshFlags_160 (flags : Z) : Z :=
  Z.land flags (not64 VERTEX_HAS_UV2_FLAG).

Definition CalculateVertexSize_160 (flags : Z) : Z :=
  let size := 0 in
  let size := if test flags 0x1 then size + 12 else size in
  let size := if test flags 0x2 then size + 8 else size in
  let size := if test flags 0x10 then size + 4 else size in
  let size := if test flags 0x200 then size + 4 else size in
  let size := if test flags 0x1000 then size + 4 else size in
  let size := if test flags 0x2000 then size + 8 else size in
  let size := if test flags 0x4000 then size + 4 else size in
  let size := if test flags 0x2000000 then size + 8 else size in
  size.

(** [GetBoneOffset_160] (v16 file, lines 50-61). *)
Definition GetBoneOffset_160 (flags : Z) : Z :=
  let offset := 0 in
  let offset :=
    if test flags 0x1 then offset + 12
    else if test flags 0x2 then offset + 8 else offset in
  let offset := if test flags 0x2000 then offset + 8 else offset in
  let offset := if test flags 0x4000 then offset + 4 else offset in
  offset.

Example stride_pos_uv : CalculateVertexSize_191 0x3 = 20.
Proof. reflexivity. Qed.

Example stride_pos_uv2 : CalculateVertexSize_191 0x200000001 = 12.
Proof. reflexivity. Qed.

Example strip_uv2 : ConvertMeshFlags_191 0x200000001 = 0x1.
Proof. reflexivity. Qed.

(** The stride is a [uint32_t] sum that never wraps: it is at most 52. *)
Lemma CalculateVertexSize_191_range flags :
  0 <= CalculateVertexSize_191 flags <= 52.
Proof.
  unfold CalculateVertexSize_191.
  repeat match goal with |- context [test ?f ?m] => destruct (test f m) end;
    cbn; lia.
Qed.

Lemma CalculateVertexSize_160_191 flags :
  CalculateVertexSize_160 flags = CalculateVertexSize_191 flags.
Proof. reflexivity. Qed.

Lemma ConvertMeshFlags_160_191 flags :
  ConvertMeshFlags_160 flags = ConvertMeshFlags_191 flags.
Proof. reflexivity. Qed.

(** Clearing the flag: on a 64-bit word with the bit set the converted word
    is the source word minus the bit. *)
Lemma ConvertMeshFlags_191_clears flags :
  Z.land (ConvertMeshFlags_191 flags) VERTEX_HAS_UV2_FLAG = 0.
Proof.
  unfold ConvertMeshFlags_191.
  rewrite <- Z.land_assoc.
  replace (Z.land (not64 VERTEX_HAS_UV2_FLAG) VERTEX_HAS_UV2_FLAG) with 0
    by reflexivity.
  apply Z.land_0_r.
Qed.

Lemma ConvertMeshFlags_191_other_bits flags n :
  0 <= n < 64 -> n <> 33 ->
  Z.testbit (ConvertMeshFlags_191 flags) n = Z.testbit flags n.
Proof.
  intros Hn Hne. unfold ConvertMeshFlags_191, not64.
  rewrite Z.land_spec, Z.lxor_spec.
  rewrite Z.ones_spec_low by lia.
  change VERTEX_HAS_UV2_FLAG with (2 ^ 33).
  rewrite Z.pow2_bits_false by lia.
  cbn. apply andb_true_r.
Qed.

Lemma ConvertMeshFlags_191_bit33 flags :
  Z.testbit (ConvertMeshFlags_191 flags) 33 = false.
Proof.
  unfold ConvertMeshFlags_191, not64.
  rewrite Z.land_spec, Z.lxor_spec.
  replace (Z.testbit VERTEX_HAS_UV2_FLAG 33) with true by reflexivity.
  replace (Z.testbit (Z.ones 64) 33) with true by reflexivity.
  cbn. apply andb_false_r.
Qed.

Lemma test_UV2_bit33 flags :
  test flags VERTEX_HAS_UV2_FLAG = true <-> Z.testbit flags 33 = true.
Proof.
  unfold test. rewrite negb_true_iff, Z.eqb_neq.
  change VERTEX_HAS_UV2_FLAG with (2 ^ 33).
  split.
  - intros Hne. destruct (Z.testbit flags 33) eqn:Hb; [done|].
    destruct Hne. apply Z.bits_inj'. intros n Hn.
    rewrite Z.land_spec, Z.bits_0.
    destruct (Z.eq_dec n 33) as [->|Hn33].
    + by rewrite Hb.
    + rewrite Z.pow2_bits_false by lia. apply andb_false_r.
  - intros Hb Hz.
    assert (Hbit : Z.testbit (Z.land flags (2 ^ 33)) 33 = true).
    { rewrite Z.land_spec, Hb. by rewrite Z.pow2_bits_true. }
    rewrite Hz, Z.bits_0 in Hbit. done.
Qed.

(** On a 64-bit word that has the flag, stripping it subtracts it. *)
Lemma ConvertMeshFlags_191_sub flags :
  0 <= flags < 2 ^ 64 ->
  test flags VERTEX_HAS_UV2_FLAG = true ->
  ConvertMeshFlags_191 flags = flags - VERTEX_HAS_UV2_FLAG.
Proof.
  intros Hr Ht. apply test_UV2_bit33 in Ht.
  enough (ConvertMeshFlags_191 flags + VERTEX_HAS_UV2_FLAG = flags) by lia.
  rewrite Z.add_nocarry_lxor by apply ConvertMeshFlags_191_clears.
  rewrite Z.lxor_lor by apply ConvertMeshFlags_191_clears.
  apply Z.bits_inj'. intros n Hn. rewrite Z.lor_spec.
  destruct (Z.eq_dec n 33) as [->|Hn33].
  - rewrite ConvertMeshFlags_191_bit33, Ht. reflexivity.
  - change VERTEX_HAS_UV2_FLAG with (2 ^ 33).
    rewrite Z.pow2_bits_false by lia. rewrite orb_false_r.
    destruct (Z.lt_ge_cases n 64) as [Hlt|Hge].
    + apply ConvertMeshFlags_191_other_bits; lia.
    + unfold ConvertMeshFlags_191, not64.
      change VERTEX_HAS_UV2_FLAG with (2 ^ 33).
      rewrite Z.land_spec, Z.lxor_spec, Z.ones_spec_high by lia.
      rewrite Z.pow2_bits_false by lia. cbn.
      rewrite andb_false_r. symmetry.
      rewrite <- (Z.mod_small flags (2 ^ 64)) by lia.
      apply Z.mod_pow2_bits_high. lia.
Qed.

(** Shared step: the eight tests of [CalculateVertexSize_191] give the same
    answers before and after the conversion of the flags. *)
Lemma stride_ignores_uv2 f :
  CalculateVertexSize_191 (ConvertMeshFlags_191 f) = CalculateVertexSize_191 f.
Proof.
  unfold CalculateVertexSize_191, ConvertMeshFlags_191.
  rewrite !test_land_not64 by reflexivity. reflexivity.
Qed.

(** C10.  For every flag word [f] the stride computed from the converted
    flags is the stride computed from [f]: the bit that
    [ConvertMeshFlags_191] removes is none of the eight bits
    [CalculateVertexSize_191] tests.  The same holds for the v16 pair. *)
Theorem stride_unchanged_by_uv2_strip (f : Z) :
  CalculateVertexSize_191 (ConvertMeshFlags_191 f) = CalculateVertexSize_191 f
  /\ CalculateVertexSize_160 (ConvertMeshFlags_160 f)
     = CalculateVertexSize_160 f.
Proof.
  split; [apply stride_ignores_uv2|].
  rewrite ConvertMeshFlags_160_191, !CalculateVertexSize_160_191.
  apply stride_ignores_uv2.
Qed.

End VertexFormat.

(* ------------------------------------------------------------------ *)
(** ** Bone-state table recovery ([rmdl_191.cpp], lines 50-127 and 215-282;
       v16 file, lines 63-140 and 220-271) *)

Module BoneState.

(** [p[i]] on the model file; a read outside the buffer (undefined in the
    source) yields 0 here.  The scanning loops never leave the buffer. *)
Definition byte_at (data : list Z) (off : Z) : Z :=
  default 0 (data !! Z.to_nat off).

(** The [n] bytes from address [p] on: [assign(p, p + n)]. *)
Fixpoint run (data : list Z) (p : Z) (n : nat) : list Z :=
  match n with
  | O => []
  | S n' => byte_at data p :: run data (p + 1) n'
  end.

(** The inner loop of both scans: stop at the first byte that is not a bone
    index, otherwise insert into the [std::set]. *)
Fixpoint scanRun (data : list Z) (totalBones p : Z) (n : nat)
    (uniqueValues : gset Z) : bool * gset Z :=
  match n with
  | O => (true, uniqueValues)
  | S n' =>
      let b := byte_at data p in
      if totalBones <=? b then (false, uniqueValues)
      else scanRun data totalBones (p + 1) n' ({[ b ]} ∪ uniqueValues)
  end.

(** [valid && uniqueValues.size() == boneStateCount] *)
Definition candidateOK (data : list Z) (boneStateCount totalBones off : Z)
    : bool :=
  let '(valid, uniqueValues) :=
    scanRun data totalBones off (Z.to_nat boneStateCount) ∅ in
  valid && (Z.of_nat (size uniqueValues) =? boneStateCount).

Definition looksLikeHeader (data : list Z) (off : Z) : bool :=
  let header := off - 16 in
  (1 <=? byte_at data header) && (byte_at data header <=? 8)
  && (byte_at data (header + 4) =? 0) && (byte_at data (header + 8) =? 0)
  && (byte_at data (header + 12) =? 0)
  && (byte_at data (header + 15) =? 0).

Definition searchStart : Z := 0x1000.

(** First loop: [off] runs from [searchStart + k - 1] down to
    [searchStart]. *)
Fixpoint backwardScan (data : list Z) (boneStateCount totalBones : Z)
    (k : nat) : option Z :=
  match k with
  | O => None
  | S k' =>
      let off := searchStart + Z.of_nat k' in
      if candidateOK data boneStateCount totalBones off
         && (16 <=? off) && looksLikeHeader data off
      then Some off
      else backwardScan data boneStateCount totalBones k'
  end.

(** Second loop: [off] runs upwards over [k] offsets. *)
Fixpoint forwardScan (data : list Z) (boneStateCount totalBones off : Z)
    (k : nat) : option Z :=
  match k with
  | O => None
  | S k' =>
      if candidateOK data boneStateCount totalBones off then Some off
      else forwardScan data boneStateCount totalBones (off + 1) k'
  end.

(** [FindBoneStateData_191]: the offset of the table found, if any.
    [rmdlSize] is the length of the model file. *)
Definition FindBoneStateData_191 (data : list Z)
    (boneStateCount totalBones : Z) : option Z :=
  let rmdlSize := Z.of_nat (length data) in
  if (boneStateCount =? 0) || (totalBones =? 0)
     || (rmdlSize <? boneStateCount)
  then None
  else
    match backwardScan data boneStateCount totalBones
            (Z.to_nat (rmdlSize - boneStateCount - searchStart + 1)) with
    | Some off => Some off
    | None =>
        forwardScan data boneStateCount totalBones searchStart
          (Z.to_nat (rmdlSize - boneStateCount - searchStart))
    end.

(** The v16 file has the same function, word for word. *)
Definition FindBoneStateData_160 := FindBoneStateData_191.

(** The fields of the model header the recovery reads.  [pBoneStates] is the
    address the header declares for the table, as an offset into the model
    file. *)
Record studiohdr := {
  boneStateCount : Z;
  boneCount : Z;
  pBoneStates : Z
}.

(** What the converter prints while recovering the table. *)
Inductive message :=
  | FoundByPatternSearch
  | WarnPatternSearchFailed
  | FromHeaderValidated
  | WarnHeaderInvalid
  | SequentialFallback
  | WarnSequentialIndices.

(** Validation of the table at the declared offset. *)
Fixpoint headerCheck (data : list Z) (boneCount p : Z) (n : nat)
    (validData : bool) (uniqueCheck : gset Z) : bool * gset Z :=
  match n with
  | O => (validData, uniqueCheck)
  | S n' =>
      if validData then
        let b := byte_at data p in
        let validData := if boneCount <=? b then false else validData in
        headerCheck data boneCount (p + 1) n' validData
          ({[ b ]} ∪ uniqueCheck)
      else (validData, uniqueCheck)
  end.

Definition headerTableOK (data : list Z) (hdr : studiohdr) : bool :=
  let '(validData, uniqueCheck) :=
    headerCheck data (boneCount hdr) (pBoneStates hdr)
      (Z.to_nat (boneStateCount hdr)) true ∅ in
  validData && (Z.of_nat (size uniqueCheck) =? boneStateCount hdr).

(** [boneStates[i] = static_cast<uint8_t>(i)] for [i < n]. *)
Definition sequential (n : nat) : list Z :=
  map (fun i => u8 (Z.of_nat i)) (seq 0 n).

(** The table before the final fallback: pattern search, then the declared
    offset.  [pRmdlHdr] and [rmdlData] are [None] for a null pointer. *)
Definition lookupBoneStates (pRmdlHdr : option studiohdr)
    (rmdlData : option (list Z)) : list Z * list message :=
  match pRmdlHdr, rmdlData with
  | Some hdr, Some data =>
      if (0 <? boneStateCount hdr) && (0 <? Z.of_nat (length data)) then
        match FindBoneStateData_191 data (u16 (boneStateCount hdr))
                (u16 (boneCount hdr)) with
        | Some off =>
            (run data off (Z.to_nat (boneStateCount hdr)),
             [FoundByPatternSearch])
        | None =>
            if headerTableOK data hdr then
              (run data (pBoneStates hdr) (Z.to_nat (boneStateCount hdr)),
               [WarnPatternSearchFailed; FromHeaderValidated])
            else ([], [WarnPatternSearchFailed; WarnHeaderInvalid])
        end
      else ([], [])
  | _, _ => ([], [])
  end.

(** The bone-state part of [ConvertVGData_191]; [maxBoneIndex] is the
    largest bone index seen in the weighted vertices (a [uint8_t]). *)
Definition recoverBoneStates_191 (pRmdlHdr : option studiohdr)
    (rmdlData : option (list Z)) (maxBoneIndex : Z)
    : list Z * list message :=
  let '(boneStates, log) := lookupBoneStates pRmdlHdr rmdlData in
  match boneStates with
  | [] =>
      if 0 <? maxBoneIndex then
        (sequential (Z.to_nat (maxBoneIndex + 1)), log ++ [SequentialFallback])
      else (boneStates, log)
  | _ => (boneStates, log)
  end.

(** The bone-state part of [ConvertVGData_160]: the final fallback is
    unconditional and printed as a warning; the other messages are not
    printed there. *)
Definition recoverBoneStates_160 (pRmdlHdr : option studiohdr)
    (rmdlData : option (list Z)) (maxBoneIndex : Z)
    : list Z * list message :=
  let '(boneStates, _) := lookupBoneStates pRmdlHdr rmdlData in
  match boneStates with
  | [] => (sequential (Z.to_nat (maxBoneIndex + 1)), [WarnSequentialIndices])
  | _ => (boneStates, [])
  end.

(** *** What the loops compute *)

(** A table the recovery may accept: bone indices only, each at most
    once. *)
Definition validTable (totalBones : Z) (t : list Z) : Prop :=
  Forall (fun b => b < totalBones) t /\ NoDup t.

(** The 16 bytes before [off] look like the small header. *)
Definition plausibleHeader (data : list Z) (off : Z) : Prop :=
  16 <= off
  /\ 1 <= byte_at data (off - 16) <= 8
  /\ byte_at data (off - 12) = 0 /\ byte_at data (off - 8) = 0
  /\ byte_at data (off - 4) = 0 /\ byte_at data (off - 1) = 0.

Lemma run_length data p n : length (run data p n) = n.
Proof.
  revert p; induction n as [|n IH]; intros p; cbn; [done|]. by rewrite IH.
Qed.

Lemma size_list_to_set_le (l : list Z) :
  (size (list_to_set l : gset Z) <= length l)%nat.
Proof.
  induction l as [|x l IH]; cbn.
  - by rewrite size_empty.
  - rewrite size_union_alt, size_singleton.
    assert (size (list_to_set l ∖ {[x]} : gset Z)
            <= size (list_to_set l : gset Z))%nat
      by (apply subseteq_size; set_solver).
    lia.
Qed.

Lemma size_list_to_set_NoDup (l : list Z) :
  size (list_to_set l : gset Z) = length l <-> NoDup l.
Proof.
  split; [|apply size_list_to_set].
  induction l as [|x l IH]; cbn; intros Hsz; [constructor|].
  pose proof (size_list_to_set_le l) as Hle.
  destruct (decide (x ∈ l)) as [Hin|Hnin].
  - exfalso.
    assert (Heq : ({[x]} ∪ list_to_set l : gset Z) = list_to_set l)
      by set_solver.
    rewrite Heq in Hsz. lia.
  - rewrite size_union, size_singleton in Hsz by set_solver.
    constructor; [done|]. apply IH. lia.
Qed.

Lemma scanRun_valid data totalBones n : forall p U,
  Forall (fun b => b < totalBones) (run data p n) ->
  scanRun data totalBones p n U = (true, list_to_set (run data p n) ∪ U).
Proof.
  induction n as [|n IH]; intros p U Hall; cbn.
  - f_equal. set_solver.
  - cbn in Hall. apply Forall_cons in Hall as [Hb Hall].
    destruct (Z.leb_spec totalBones (byte_at data p)); [lia|].
    rewrite IH by done. f_equal. set_solver.
Qed.

Lemma scanRun_invalid data totalBones n : forall p U,
  ~ Forall (fun b => b < totalBones) (run data p n) ->
  (scanRun data totalBones p n U).1 = false.
Proof.
  induction n as [|n IH]; intros p U Hall; cbn.
  - destruct Hall. constructor.
  - destruct (Z.leb_spec totalBones (byte_at data p)); [done|].
    apply IH. intros Hrest. apply Hall. cbn. by constructor.
Qed.

(** The candidate test of both scans accepts exactly the valid tables. *)
Lemma candidateOK_spec data count totalBones off :
  0 <= count ->
  candidateOK data count totalBones off = true
  <-> validTable totalBones (run data off (Z.to_nat count)).
Proof.
  intros Hc. unfold candidateOK, validTable.
  destruct (decide (Forall (fun b => b < totalBones)
                      (run data off (Z.to_nat count)))) as [Hall|Hnall].
  - rewrite (scanRun_valid _ _ _ _ _ Hall). cbn.
    rewrite Z.eqb_eq, union_empty_r_L.
    rewrite <- size_list_to_set_NoDup, run_length.
    split; [intros H; split; [done|lia]|intros [_ H]; lia].
  - pose proof (scanRun_invalid data totalBones _ off ∅ Hnall) as Hf.
    destruct (scanRun _ _ _ _ _) as [v U]. cbn in Hf. subst v. cbn.
    split; [done|]. intros [Hall _]. done.
Qed.

Lemma looksLikeHeader_spec data off :
  (16 <=? off) && looksLikeHeader data off = true <-> plausibleHeader data off.
Proof.
  unfold looksLikeHeader, plausibleHeader.
  rewrite !andb_true_iff, !Z.leb_le, !Z.eqb_eq.
  replace (off - 16 + 4) with (off - 12) by lia.
  replace (off - 16 + 8) with (off - 8) by lia.
  replace (off - 16 + 12) with (off - 4) by lia.
  replace (off - 16 + 15) with (off - 1) by lia.
  tauto.
Qed.

(** *** The two scans *)

Section Scans.

Variable data : list Z.
Variables count totalBones : Z.

(** The test of the backward scan at one offset. *)
Definition backwardTest (off : Z) : bool :=
  candidateOK data count totalBones off
  && (16 <=? off) && looksLikeHeader data off.

Lemma backwardScan_Some k off :
  backwardScan data count totalBones k = Some off ->
  searchStart <= off < searchStart + Z.of_nat k
  /\ backwardTest off = true
  /\ forall off', off < off' < searchStart + Z.of_nat k ->
                  backwardTest off' = false.
Proof.
  induction k as [|k IH]; cbn [backwardScan]; [done|].
  fold (backwardTest (searchStart + Z.of_nat k)).
  destruct (backwardTest (searchStart + Z.of_nat k)) eqn:Ht.
  - intros [= <-]. repeat split; [lia|lia|done|]. intros off' Hoff'. lia.
  - intros Hk. destruct (IH Hk) as (Hr & Hhit & Hmax).
    repeat split; [lia|lia|done|].
    intros off' Hoff'.
    destruct (decide (off' = searchStart + Z.of_nat k)) as [->|Hne]; [done|].
    apply Hmax. lia.
Qed.

Lemma backwardScan_None k :
  backwardScan data count totalBones k = None ->
  forall off, searchStart <= off < searchStart + Z.of_nat k ->
              backwardTest off = false.
Proof.
  induction k as [|k IH]; cbn [backwardScan]; [intros _ off; lia|].
  fold (backwardTest (searchStart + Z.of_nat k)).
  destruct (backwardTest (searchStart + Z.of_nat k)) eqn:Ht; [done|].
  intros Hk off Hoff.
  destruct (decide (off = searchStart + Z.of_nat k)) as [->|Hne]; [done|].
  apply IH; [done|lia].
Qed.

Lemma forwardScan_Some k : forall start off,
  forwardScan data count totalBones start k = Some off ->
  start <= off < start + Z.of_nat k
  /\ candidateOK data count totalBones off = true
  /\ forall off', start <= off' < off ->
                  candidateOK data count totalBones off' = false.
Proof.
  induction k as [|k IH]; intros start off; cbn [forwardScan]; [done|].
  destruct (candidateOK data count totalBones start) eqn:Ht.
  - intros [= <-]. repeat split; [lia|lia|done|]. intros off' Hoff'. lia.
  - intros Hk. destruct (IH _ _ Hk) as (Hr & Hhit & Hmin).
    repeat split; [lia|lia|done|].
    intros off' Hoff'.
    destruct (decide (off' = start)) as [->|Hne]; [done|].
    apply Hmin. lia.
Qed.

Lemma forwardScan_None k : forall start,
  forwardScan data count totalBones start k = None ->
  forall off, start <= off < start + Z.of_nat k ->
              candidateOK data count totalBones off = false.
Proof.
  induction k as [|k IH]; intros start; cbn [forwardScan];
    [intros _ off; lia|].
  destruct (candidateOK data count totalBones start) eqn:Ht; [done|].
  intros Hk off Hoff.
  destruct (decide (off = start)) as [->|Hne]; [done|].
  apply (IH _ Hk). lia.
Qed.

(** A hit of the backward scan: inside its range, valid, behind a plausible
    header. *)
Definition backwardHit (off : Z) : Prop :=
  searchStart <= off <= Z.of_nat (length data) - count
  /\ validTable totalBones (run data off (Z.to_nat count))
  /\ plausibleHeader data off.

(** A hit of the forward scan: inside its range (which stops one offset
    short of the last position) and valid. *)
Definition forwardHit (off : Z) : Prop :=
  searchStart <= off < Z.of_nat (length data) - count
  /\ validTable totalBones (run data off (Z.to_nat count)).

Hypothesis count_pos : 0 < count.

Lemma backwardTest_spec off :
  backwardTest off = true
  <-> validTable totalBones (run data off (Z.to_nat count))
      /\ plausibleHeader data off.
Proof.
  unfold backwardTest. rewrite <- andb_assoc, andb_true_iff.
  rewrite candidateOK_spec by lia. by rewrite looksLikeHeader_spec.
Qed.

Hypothesis data_bytes : Forall (fun b => 0 <= b < 256) data.

Lemma byte_at_range off : 0 <= byte_at data off < 256.
Proof.
  unfold byte_at. destruct (data !! Z.to_nat off) as [b|] eqn:Hb; cbn; [|lia].
  eapply Forall_lookup_1 in Hb; [|exact data_bytes]. done.
Qed.

Lemma no_valid_table_without_bones off :
  totalBones <= 0 -> ~ validTable totalBones (run data off (Z.to_nat count)).
Proof.
  intros Ht [Hall _].
  destruct (Z.to_nat count) as [|n] eqn:Hn; [lia|].
  cbn in Hall. apply Forall_cons in Hall as [Hb _].
  pose proof (byte_at_range off). lia.
Qed.

(** [FindBoneStateData_191] returns the highest backward hit if there is
    one, otherwise the lowest forward hit if there is one, otherwise
    nothing. *)
Lemma FindBoneStateData_191_spec :
  0 <= totalBones ->
  match FindBoneStateData_191 data count totalBones with
  | Some off =>
      (backwardHit off /\ forall off', off < off' -> ~ backwardHit off')
      \/ ((forall off', ~ backwardHit off')
          /\ forwardHit off /\ forall off', off' < off -> ~ forwardHit off')
  | None => (forall off, ~ backwardHit off) /\ (forall off, ~ forwardHit off)
  end.
Proof.
  intros Htot. unfold FindBoneStateData_191.
  set (size := Z.of_nat (length data)).
  destruct (Z.eqb_spec count 0) as [?|_]; [lia|].
  destruct (Z.eqb_spec totalBones 0) as [Hz|Hnz]; cbn [orb].
  { split.
    - intros off (_ & Hv & _).
      apply (no_valid_table_without_bones off); [lia|done].
    - intros off (_ & Hv).
      apply (no_valid_table_without_bones off); [lia|done]. }
  destruct (Z.ltb_spec size count) as [Hlt|Hge]; cbn [orb].
  { split; intros off (Hr & _); fold size in Hr; unfold searchStart in Hr;
      lia. }
  assert (Hfail : backwardScan data count totalBones
            (Z.to_nat (size - count - searchStart + 1)) = None ->
          forall off, ~ backwardHit off).
  { intros Hb off (Hr & Hv & Hh). fold size in Hr.
    pose proof (backwardScan_None _ Hb off) as Hn.
    rewrite (proj2 (backwardTest_spec off)) in Hn by done.
    enough (false = true) by done. symmetry. apply Hn. lia. }
  destruct (backwardScan _ _ _ _) as [off|] eqn:Hb.
  - left. apply backwardScan_Some in Hb as (Hr & Hhit & Hmax).
    apply backwardTest_spec in Hhit as [Hv Hh].
    split; [split; [fold size; lia|done]|].
    intros off' Hgt (Hr' & Hv' & Hh'). fold size in Hr'.
    specialize (Hmax off' ltac:(lia)).
    rewrite (proj2 (backwardTest_spec off')) in Hmax by done. done.
  - specialize (Hfail eq_refl).
    destruct (forwardScan _ _ _ _ _) as [off|] eqn:Hf.
    + right. split; [done|].
      apply forwardScan_Some in Hf as (Hr & Hhit & Hmin).
      apply candidateOK_spec in Hhit; [|lia].
      split; [split; [fold size; lia|done]|].
      intros off' Hlt' (Hr' & Hv'). fold size in Hr'.
      apply candidateOK_spec in Hv'; [|lia].
      rewrite Hmin in Hv'; [done|lia].
    + split; [done|].
      intros off (Hr & Hv). fold size in Hr.
      apply candidateOK_spec in Hv; [|lia].
      rewrite (forwardScan_None _ _ Hf) in Hv; [done|lia].
Qed.

End Scans.

(** *** The declared offset and the fallback *)

Lemma headerCheck_stopped data bc p n U :
  headerCheck data bc p n false U = (false, U).
Proof. by destruct n. Qed.

Lemma headerCheck_valid data bc n : forall p U,
  Forall (fun b => b < bc) (run data p n) ->
  headerCheck data bc p n true U = (true, list_to_set (run data p n) ∪ U).
Proof.
  induction n as [|n IH]; intros p U Hall; cbn.
  - f_equal. set_solver.
  - cbn in Hall. apply Forall_cons in Hall as [Hb Hall].
    destruct (Z.leb_spec bc (byte_at data p)); [lia|].
    rewrite IH by done. f_equal. set_solver.
Qed.

Lemma headerCheck_invalid data bc n : forall p U,
  ~ Forall (fun b => b < bc) (run data p n) ->
  (headerCheck data bc p n true U).1 = false.
Proof.
  induction n as [|n IH]; intros p U Hall; cbn.
  - destruct Hall. constructor.
  - destruct (Z.leb_spec bc (byte_at data p)).
    + by rewrite headerCheck_stopped.
    + apply IH. intros Hrest. apply Hall. cbn. by constructor.
Qed.

(** The check at the declared offset accepts exactly the valid tables. *)
Lemma headerTableOK_spec data hdr :
  0 <= boneStateCount hdr ->
  headerTableOK data hdr = true
  <-> validTable (boneCount hdr)
        (run data (pBoneStates hdr) (Z.to_nat (boneStateCount hdr))).
Proof.
  intros Hc. unfold headerTableOK, validTable.
  destruct (decide (Forall (fun b => b < boneCount hdr)
              (run data (pBoneStates hdr) (Z.to_nat (boneStateCount hdr)))))
    as [Hall|Hnall].
  - rewrite (headerCheck_valid _ _ _ _ _ Hall). cbn.
    rewrite Z.eqb_eq, union_empty_r_L.
    rewrite <- size_list_to_set_NoDup, run_length.
    split; [intros H; split; [done|lia]|intros [_ H]; lia].
  - pose proof (headerCheck_invalid data (boneCount hdr) _
                  (pBoneStates hdr) ∅ Hnall) as Hf.
    destruct (headerCheck _ _ _ _ _ _) as [v U]. cbn in Hf. subst v. cbn.
    split; [done|]. intros [Hall _]. done.
Qed.

Lemma sequential_length n : length (sequential n) = n.
Proof. unfold sequential. by rewrite length_map, length_seq. Qed.

Lemma sequential_nth n i :
  (i < n)%nat -> (n <= 256)%nat -> sequential n !! i = Some (Z.of_nat i).
Proof.
  intros Hi Hn. unfold sequential.
  rewrite list_lookup_fmap, lookup_seq_lt by done. cbn.
  unfold u8. rewrite Z.mod_small; [done|lia].
Qed.

Example sequential_3 : sequential 3 = [0; 1; 2].
Proof. reflexivity. Qed.

(** *** The recovery as a whole *)

Section Recovery.

Variable data : list Z.
Variable hdr : studiohdr.
Variable maxBoneIndex : Z.

Hypothesis data_nonempty : data <> [].
Hypothesis count_range : 0 < boneStateCount hdr < 2 ^ 16.
Hypothesis total_range : 0 <= boneCount hdr < 2 ^ 16.

Lemma run_nonempty p : run data p (Z.to_nat (boneStateCount hdr)) <> [].
Proof.
  destruct (Z.to_nat (boneStateCount hdr)) as [|n] eqn:Hn; [lia|done].
Qed.

Lemma lookup_enabled :
  (0 <? boneStateCount hdr) && (0 <? Z.of_nat (length data)) = true.
Proof.
  apply andb_true_iff. split; apply Z.ltb_lt; [lia|].
  destruct data; [done|cbn; lia].
Qed.

Lemma recover_found off :
  FindBoneStateData_191 data (boneStateCount hdr) (boneCount hdr) = Some off ->
  recoverBoneStates_191 (Some hdr) (Some data) maxBoneIndex
  = (run data off (Z.to_nat (boneStateCount hdr)), [FoundByPatternSearch])
  /\ recoverBoneStates_160 (Some hdr) (Some data) maxBoneIndex
     = (run data off (Z.to_nat (boneStateCount hdr)), []).
Proof.
  intros Hfind.
  unfold recoverBoneStates_191, recoverBoneStates_160, lookupBoneStates.
  rewrite lookup_enabled, !u16_small, Hfind by lia.
  pose proof (run_nonempty off) as Hne.
  by destruct (run data off _).
Qed.

Lemma recover_declared :
  FindBoneStateData_191 data (boneStateCount hdr) (boneCount hdr) = None ->
  headerTableOK data hdr = true ->
  recoverBoneStates_191 (Some hdr) (Some data) maxBoneIndex
  = (run data (pBoneStates hdr) (Z.to_nat (boneStateCount hdr)),
     [WarnPatternSearchFailed; FromHeaderValidated])
  /\ recoverBoneStates_160 (Some hdr) (Some data) maxBoneIndex
     = (run data (pBoneStates hdr) (Z.to_nat (boneStateCount hdr)), []).
Proof.
  intros Hfind Hok.
  unfold recoverBoneStates_191, recoverBoneStates_160, lookupBoneStates.
  rewrite lookup_enabled, !u16_small, Hfind, Hok by lia.
  pose proof (run_nonempty (pBoneStates hdr)) as Hne.
  by destruct (run data (pBoneStates hdr) _).
Qed.

Lemma recover_fallback :
  FindBoneStateData_191 data (boneStateCount hdr) (boneCount hdr) = None ->
  headerTableOK data hdr = false ->
  recoverBoneStates_191 (Some hdr) (Some data) maxBoneIndex
  = (if 0 <? maxBoneIndex
     then (sequential (Z.to_nat (maxBoneIndex + 1)),
           [WarnPatternSearchFailed; WarnHeaderInvalid; SequentialFallback])
     else ([], [WarnPatternSearchFailed; WarnHeaderInvalid]))
  /\ recoverBoneStates_160 (Some hdr) (Some data) maxBoneIndex
     = (sequential (Z.to_nat (maxBoneIndex + 1)), [WarnSequentialIndices]).
Proof.
  intros Hfind Hok.
  unfold recoverBoneStates_191, recoverBoneStates_160, lookupBoneStates.
  rewrite lookup_enabled, !u16_small, Hfind, Hok by lia.
  by destruct (0 <? maxBoneIndex).
Qed.

End Recovery.

(** C4 (as amended).  On a model file of bytes whose header declares a
    non-empty bone-state table, the recovery takes, in this order: the
    highest offset of the backward range holding a valid table (all bytes
    below the bone count, pairwise distinct) behind a plausible 16-byte
    header; else the lowest offset of the forward range holding a valid
    table; else the declared offset if the table there is valid; else the
    identity table [0 .. maxBoneIndex], which the v16 converter always
    writes, with a warning, and the v19.1 converter writes only when
    [maxBoneIndex > 0], leaving the table empty otherwise.  Every table
    accepted other than the identity fallback is valid. *)
Theorem bone_state_recovery_order
    (data : list Z) (hdr : studiohdr) (maxBoneIndex : Z) :
  Forall (fun b => 0 <= b < 256) data ->
  data <> [] ->
  0 < boneStateCount hdr < 2 ^ 16 ->
  0 <= boneCount hdr < 2 ^ 16 ->
  let table off := run data off (Z.to_nat (boneStateCount hdr)) in
  let bhit := backwardHit data (boneStateCount hdr) (boneCount hdr) in
  let fhit := forwardHit data (boneStateCount hdr) (boneCount hdr) in
  let declared := pBoneStates hdr in
  let r191 := recoverBoneStates_191 (Some hdr) (Some data) maxBoneIndex in
  let r160 := recoverBoneStates_160 (Some hdr) (Some data) maxBoneIndex in
  (forall off, bhit off -> (forall off', off < off' -> ~ bhit off') ->
     r191 = (table off, [FoundByPatternSearch]) /\ r160 = (table off, []))
  /\ (forall off, (forall o, ~ bhit o) ->
        fhit off -> (forall off', off' < off -> ~ fhit off') ->
        r191 = (table off, [FoundByPatternSearch]) /\ r160 = (table off, []))
  /\ ((forall o, ~ bhit o) -> (forall o, ~ fhit o) ->
      validTable (boneCount hdr) (table declared) ->
      r191 = (table declared, [WarnPatternSearchFailed; FromHeaderValidated])
      /\ r160 = (table declared, []))
  /\ ((forall o, ~ bhit o) -> (forall o, ~ fhit o) ->
      ~ validTable (boneCount hdr) (table declared) ->
      r160 = (sequential (Z.to_nat (maxBoneIndex + 1)),
              [WarnSequentialIndices])
      /\ r191 = (if 0 <? maxBoneIndex
                then (sequential (Z.to_nat (maxBoneIndex + 1)),
                      [WarnPatternSearchFailed; WarnHeaderInvalid;
                       SequentialFallback])
                else ([], [WarnPatternSearchFailed; WarnHeaderInvalid])))
  /\ (SequentialFallback ∉ r191.2 -> validTable (boneCount hdr) r191.1)
  /\ (WarnSequentialIndices ∉ r160.2 -> validTable (boneCount hdr) r160.1).
Proof.
  intros Hbytes Hne Hc Ht table bhit fhit declared r191 r160.
  pose proof (FindBoneStateData_191_spec data (boneStateCount hdr)
                (boneCount hdr) ltac:(lia) Hbytes ltac:(lia)) as Hspec.
  pose proof (headerTableOK_spec data hdr ltac:(lia)) as Hhdr.
  pose proof (recover_found data hdr maxBoneIndex Hne Hc Ht) as Hfound.
  pose proof (recover_declared data hdr maxBoneIndex Hne Hc Ht) as Hdecl.
  pose proof (recover_fallback data hdr maxBoneIndex Hne Hc Ht) as Hfall.
  fold r191 r160 in Hfound, Hdecl, Hfall.
  fold bhit fhit in Hspec.
  destruct (FindBoneStateData_191 data (boneStateCount hdr) (boneCount hdr))
    as [found|].
  - destruct (Hfound found eq_refl) as [E191 E160].
    clear Hfound Hdecl Hfall.
    assert (Hvalid : validTable (boneCount hdr) (table found)).
    { destruct Hspec as [[(_ & Hv & _) _]|(_ & (_ & Hv) & _)]; exact Hv. }
    split; [|split; [|split; [|split; [|split]]]].
    + intros off Hb Hmax.
      destruct Hspec as [[Hb' Hmax']|(Hnob & _)];
        [|exfalso; by apply (Hnob off)].
      assert (off = found) as ->; [|done].
      destruct (Z.lt_trichotomy off found) as [Hlt|[Heq|Hgt]]; [|done|].
      * exfalso. by apply (Hmax found).
      * exfalso. by apply (Hmax' off).
    + intros off Hnob Hf Hmin.
      destruct Hspec as [[Hb' _]|(_ & Hf' & Hmin')];
        [exfalso; by apply (Hnob found)|].
      assert (off = found) as ->; [|done].
      destruct (Z.lt_trichotomy off found) as [Hlt|[Heq|Hgt]]; [|done|].
      * exfalso. by apply (Hmin' off).
      * exfalso. by apply (Hmin found).
    + intros Hnob Hnof _. exfalso.
      destruct Hspec as [[Hb' _]|(_ & Hf' & _)];
        [by apply (Hnob found)|by apply (Hnof found)].
    + intros Hnob Hnof _. exfalso.
      destruct Hspec as [[Hb' _]|(_ & Hf' & _)];
        [by apply (Hnob found)|by apply (Hnof found)].
    + intros _. by rewrite E191.
    + intros _. by rewrite E160.
  - destruct Hspec as [Hnob Hnof]. clear Hfound.
    destruct (headerTableOK data hdr).
    + destruct (Hdecl eq_refl eq_refl) as [E191 E160]. clear Hdecl Hfall.
      pose proof (proj1 Hhdr eq_refl) as Hvalid. fold table declared in Hvalid.
      split; [|split; [|split; [|split; [|split]]]].
      * intros off Hb _. exfalso. by apply (Hnob off).
      * intros off _ Hf _. exfalso. by apply (Hnof off).
      * done.
      * intros _ _ Hinv. by destruct Hinv.
      * intros _. by rewrite E191.
      * intros _. by rewrite E160.
    + destruct (Hfall eq_refl eq_refl) as [E191 E160]. clear Hdecl Hfall.
      assert (Hinvalid : ~ validTable (boneCount hdr) (table declared)).
      { intros Hv. apply Hhdr in Hv. congruence. }
      split; [|split; [|split; [|split; [|split]]]].
      * intros off Hb _. exfalso. by apply (Hnob off).
      * intros off _ Hf _. exfalso. by apply (Hnof off).
      * intros _ _ Hv. by destruct Hinvalid.
      * done.
      * rewrite E191. destruct (0 <? maxBoneIndex); cbn.
        -- intros Hnot. exfalso. apply Hnot. set_solver.
        -- intros _. split; constructor.
      * rewrite E160. cbn. intros Hnot. exfalso. apply Hnot. set_solver.
Qed.

(** *** Concrete buffers *)

Definition smallHeader : list Z :=
  [1; 0; 1; 1; 0; 0; 0; 0; 0; 0; 0; 0; 0; 0; 0; 0].

(** A table behind a plausible header is found by the backward scan, also
    when a later run of valid bytes has no such header before it. *)
Example find_behind_header :
  FindBoneStateData_191 (replicate 4096 255 ++ smallHeader ++ [3; 1; 2; 0]) 4 4
  = Some 4112.
Proof. vm_compute. reflexivity. Qed.

Example find_ignores_decoy :
  FindBoneStateData_191
    (replicate 4096 255 ++ smallHeader ++ [3; 1; 2; 0]
       ++ [255; 255] ++ [0; 1; 2; 3] ++ [255]) 4 4
  = Some 4112.
Proof. vm_compute. reflexivity. Qed.

(** Without a header the forward scan takes the first valid run. *)
Example find_forward :
  FindBoneStateData_191 (replicate 4096 255 ++ [2; 0; 1] ++ [255]) 3 3
  = Some 4096.
Proof. vm_compute. reflexivity. Qed.

(** A repeated value is rejected. *)
Example find_rejects_duplicates :
  FindBoneStateData_191 (replicate 4096 255 ++ [2; 0; 2] ++ [255]) 3 3 = None.
Proof. vm_compute. reflexivity. Qed.

Definition declaredOnlyHdr : studiohdr :=
  {| boneStateCount := 4; boneCount := 4; pBoneStates := 0 |}.

Lemma bone_state_recovery_order_witness :
  Forall (fun b => 0 <= b < 256) [3; 1; 2; 0]
  /\ [3; 1; 2; 0] <> ([] : list Z)
  /\ 0 < boneStateCount declaredOnlyHdr < 2 ^ 16
  /\ 0 <= boneCount declaredOnlyHdr < 2 ^ 16
  /\ recoverBoneStates_191 (Some declaredOnlyHdr) (Some [3; 1; 2; 0]) 0
     = ([3; 1; 2; 0], [WarnPatternSearchFailed; FromHeaderValidated]).
Proof.
  assert (Hbytes : Forall (fun b => 0 <= b < 256) [3; 1; 2; 0])
    by (repeat constructor; lia).
  assert (Hne : [3; 1; 2; 0] <> ([] : list Z)) by discriminate.
  assert (Hc : 0 < boneStateCount declaredOnlyHdr < 2 ^ 16) by (cbn; lia).
  assert (Ht : 0 <= boneCount declaredOnlyHdr < 2 ^ 16) by (cbn; lia).
  split; [exact Hbytes|]. split; [exact Hne|].
  split; [exact Hc|]. split; [exact Ht|].
  destruct (bone_state_recovery_order [3; 1; 2; 0] declaredOnlyHdr 0
              Hbytes Hne Hc Ht) as (_ & _ & Hdecl & _).
  apply Hdecl.
  - intros o ((Hlo & Hhi) & _). cbn in Hhi. unfold searchStart in Hlo. lia.
  - intros o ((Hlo & Hhi) & _). cbn in Hhi. unfold searchStart in Hlo. lia.
  - split.
    + repeat constructor; cbn; lia.
    + cbn. repeat constructor; set_solver.
Defined.

(** C4, the claim as stated fails: a one-bone model file shorter than the
    scanned region whose declared table is not valid, no weighted vertex
    naming a bone above 0.  Every stage fails, and the v19.1 converter
    leaves the table empty instead of writing the identity table [0]. *)
Lemma identity_fallback_skipped_counterexample :
  let hdr := {| boneStateCount := 1; boneCount := 1; pBoneStates := 0 |} in
  let data := [7; 0; 0; 0] in
  FindBoneStateData_191 data 1 1 = None
  /\ headerTableOK data hdr = false
  /\ recoverBoneStates_191 (Some hdr) (Some data) 0
     = ([], [WarnPatternSearchFailed; WarnHeaderInvalid])
  /\ (recoverBoneStates_191 (Some hdr) (Some data) 0).1
     <> sequential (Z.to_nat (0 + 1)).
Proof. vm_compute. repeat split; discriminate. Qed.

End BoneState.

(* ------------------------------------------------------------------ *)
(** ** Vertex-geometry transcoder ([ConvertVGData_191], [rmdl_191.cpp],
       lines 129-602; [ConvertVGData_160], v16 file, lines 154-578) *)

Module VG.
Import VertexFormat.

(** The fields of a rev4 mesh header the converter reads.  The three
    accessors give the bytes from the pointer on, [None] for a null
    pointer.  The header's declaration is not among the sources; counts and
    sizes are taken as unsigned 32-bit fields. *)
Record MeshHeader_rev4 := {
  flags : Z;
  vertCacheSize : Z;
  vertCount : Z;
  vertBufferSize : Z;
  indexCount : Z;
  extraBoneWeightSize : Z;
  vertBoneCount : Z;
  pVertices : option (list Z);
  pIndices : option (list Z);
  pBoneWeights : option (list Z)
}.

(** [pMesh(i)] for [i < meshCount]; [None] for a null pointer. *)
Record ModelLODHeader_rev4 := { pMesh : list (option MeshHeader_rev4) }.

Record VertexGroupHeader_rev4 := {
  lodIndex : Z;
  groupIndex : Z;
  lodMap : Z;
  pLod : list (option ModelLODHeader_rev4)
}.

Definition meshCount (lod : ModelLODHeader_rev4) : Z :=
  Z.of_nat (length (pMesh lod)).
Definition lodCount (g : VertexGroupHeader_rev4) : Z :=
  Z.of_nat (length (pLod g)).

(** Sizes of the rev1 records, as the layout comment of the v16 file gives
    them (lines 142-152): header 224, mesh header 72, unknown entry 0x30,
    LOD header 8, strip header 0x23 bytes. *)
Definition sizeof_VertexGroupHeader : Z := 224.
Definition sizeof_MeshHeader : Z := 72.
Definition sizeof_UnkVgData : Z := 0x30.
Definition sizeof_ModelLODHeader : Z := 8.
Definition sizeof_StripHeader : Z := 0x23.

(** The nested loops over LODs and meshes, null entries skipped. *)
Definition forEachMesh {A : Type} (g : VertexGroupHeader_rev4)
    (f : MeshHeader_rev4 -> A -> A) (a : A) : A :=
  fold_left
    (fun a olod =>
       match olod with
       | None => a
       | Some lod =>
           fold_left
             (fun a om => match om with None => a | Some m => f m a end)
             (pMesh lod) a
       end)
    (pLod g) a.

(** [pMesh->flags != 0 && pMesh->vertCount > 0] *)
Definition hasGeometry (m : MeshHeader_rev4) : bool :=
  negb (flags m =? 0) && (0 <? vertCount m).

(** *** First pass: totals *)

Record totals := {
  totalMeshCount : Z;
  totalVertexCount : Z;
  totalVertexBufSize : Z;
  totalIndexBufSize : Z;
  totalExtraWeightSize : Z;
  totalStripCount : Z;
  maxBoneIndex : Z
}.

Definition noTotals : totals :=
  {| totalMeshCount := 0; totalVertexCount := 0; totalVertexBufSize := 0;
     totalIndexBufSize := 0; totalExtraWeightSize := 0;
     totalStripCount := 0; maxBoneIndex := 0 |}.

(** The largest of the four bone bytes at offset 12 of each vertex. *)
Definition scanBoneIndices (verts : list Z) (stride count : Z) (mx : Z) : Z :=
  fold_left
    (fun mx v =>
       fold_left
         (fun mx b =>
            let x := BoneState.byte_at verts (Z.of_nat v * stride + 12 + b) in
            if mx <? x then x else mx)
         [0; 1; 2; 3] mx)
    (seq 0 (Z.to_nat count)) mx.

(** One mesh of the first pass of [ConvertVGData_191].  The bone-state
    pointer is still null during this pass, so every weighted mesh is
    scanned. *)
Definition countMesh_191 (m : MeshHeader_rev4) (t : totals) : totals :=
  let v10Flags := ConvertMeshFlags_191 (flags m) in
  let v10VertSize := CalculateVertexSize_191 v10Flags in
  {| totalMeshCount := u64 (totalMeshCount t + 1);
     totalVertexCount := u64 (totalVertexCount t + vertCount m);
     totalVertexBufSize :=
       u64 (totalVertexBufSize t + u32 (v10VertSize * vertCount m));
     totalIndexBufSize := u64 (totalIndexBufSize t + u64 (indexCount m * 2));
     totalExtraWeightSize :=
       u64 (totalExtraWeightSize t + extraBoneWeightSize m);
     totalStripCount :=
       if hasGeometry m then u64 (totalStripCount t + 1)
       else totalStripCount t;
     maxBoneIndex :=
       if test (flags m) 0x1000 then
         match pVertices m with
         | Some verts =>
             if 0 <? vertCount m then
               scanBoneIndices verts (vertCacheSize m) (vertCount m)
                 (maxBoneIndex t)
             else maxBoneIndex t
         | None => maxBoneIndex t
         end
       else maxBoneIndex t |}.

(** *** The write cursor *)

(** What happens to the output, in order: a store of [len] bytes at offset
    [dst] of the output buffer, the overflow report, the file write. *)
Inductive event :=
  | Store (dst len : Z)
  | OverflowReport (excess : Z)
  | FileWrite (len : Z).

Record writer := { pWrite : Z; trace : list event }.

(** Write [len] bytes at the cursor and advance it by [adv]. *)
Definition put (len adv : Z) (w : writer) : writer :=
  {| pWrite := pWrite w + adv; trace := trace w ++ [Store (pWrite w) len] |}.

Definition advance (n : Z) (w : writer) : writer :=
  {| pWrite := pWrite w + n; trace := trace w |}.

(** [(p + 15) & ~15].  The buffer comes from [new char[]], whose result is
    16-byte aligned, so aligning the pointer aligns the offset. *)
Definition align16 (w : writer) : writer :=
  {| pWrite := Z.land (pWrite w + 15) (Z.lnot 15); trace := trace w |}.

Definition copyIndices (m : MeshHeader_rev4) (w : writer) : writer :=
  match pIndices m with
  | Some _ =>
      if 0 <? indexCount m then
        let indexSize := u64 (indexCount m * 2) in put indexSize indexSize w
      else w
  | None => w
  end.

(** The vertex copy of [ConvertVGData_191] for one mesh (lines 386-411). *)
Definition copyVertices_191 (m : MeshHeader_rev4) (w : writer) : writer :=
  match pVertices m with
  | Some _ =>
      if 0 <? vertCount m then
        let v191Flags := flags m in
        let v10Flags := ConvertMeshFlags_191 v191Flags in
        let v191VertSize := vertCacheSize m in
        let v10VertSize := CalculateVertexSize_191 v10Flags in
        if negb (v191VertSize =? v10VertSize) then
          Nat.iter (Z.to_nat (vertCount m)) (put v10VertSize v10VertSize) w
        else put (vertBufferSize m) (vertBufferSize m) w
      else w
  | None => w
  end.

(** The vertex copy of [ConvertVGData_160] for one mesh (lines 377-409):
    both branches advance by the new stride. *)
Definition copyVertices_160 (m : MeshHeader_rev4) (w : writer) : writer :=
  match pVertices m with
  | Some _ =>
      if 0 <? vertBufferSize m then
        let v16Flags := flags m in
        let v10Flags := ConvertMeshFlags_160 v16Flags in
        let v16VertSize := vertCacheSize m in
        let v10VertSize := CalculateVertexSize_160 v10Flags in
        if test v16Flags VERTEX_HAS_UV2_FLAG && (v10VertSize <? v16VertSize)
        then
          Nat.iter (Z.to_nat (vertCount m)) (put v10VertSize v10VertSize) w
        else
          Nat.iter (Z.to_nat (vertCount m))
            (put (Z.min v16VertSize v10VertSize) v10VertSize) w
      else w
  | None => w
  end.

Definition copyWeights (m : MeshHeader_rev4) (w : writer) : writer :=
  match pBoneWeights m with
  | Some _ =>
      if 0 <? extraBoneWeightSize m then
        put (extraBoneWeightSize m) (extraBoneWeightSize m) w
      else w
  | None => w
  end.

Definition writeStrip (m : MeshHeader_rev4) (w : writer) : writer :=
  if hasGeometry m then put sizeof_StripHeader sizeof_StripHeader w else w.

(** Bytes a step stored and the distance it moved the cursor. *)
Definition advanced (f : writer -> writer) (w : writer) : Z :=
  pWrite (f w) - pWrite w.

Definition storedLen (e : event) : Z :=
  match e with Store _ len => len | _ => 0 end.

Definition bytesStored (t : list event) : Z :=
  fold_right (fun e n => storedLen e + n) 0 t.

(** *** Second pass: mesh and LOD headers *)

Record MeshHeader_rev1 := {
  o_flags : Z;
  o_vertOffset : Z;
  o_vertCacheSize : Z;
  o_vertCount : Z;
  o_indexOffset : Z;
  o_indexCount : Z;
  o_extraBoneWeightOffset : Z;
  o_extraBoneWeightSize : Z;
  o_legacyWeightOffset : Z;
  o_legacyWeightCount : Z;
  o_stripOffset : Z;
  o_stripCount : Z
}.

(** The running offsets of the second pass, the three header totals it
    accumulates, the mesh headers written so far and the stores made. *)
Record fill := {
  meshStartIdx : Z;
  indexOffset : Z;
  vertexOffset : Z;
  weightOffset : Z;
  legacyWeightIdx : Z;
  stripIndex : Z;
  hdrIndexCount : Z;
  hdrVertBufferSize : Z;
  hdrExtraBoneWeightSize : Z;
  outMeshes : list MeshHeader_rev1;
  fillTrace : list event
}.

Definition s16 (x : Z) : Z := (x + 2 ^ 15) mod 2 ^ 16 - 2 ^ 15.

Definition fillMesh_191 (pMeshStart : Z) (m : MeshHeader_rev4) (f : fill)
    : fill :=
  let v10Flags := ConvertMeshFlags_191 (flags m) in
  let v10VertCacheSize := CalculateVertexSize_191 v10Flags in
  let out :=
    {| o_flags := v10Flags;
       o_vertOffset := u32 (vertexOffset f);
       o_vertCacheSize := v10VertCacheSize;
       o_vertCount := u32 (vertCount m);
       o_indexOffset := s32 (indexOffset f / 2);
       o_indexCount := s32 (indexCount m);
       o_extraBoneWeightOffset := s32 (weightOffset f);
       o_extraBoneWeightSize := s32 (extraBoneWeightSize m);
       o_legacyWeightOffset := s32 (legacyWeightIdx f);
       o_legacyWeightCount := s32 (vertCount m);
       o_stripOffset := if hasGeometry m then s32 (stripIndex f) else 0;
       o_stripCount := if hasGeometry m then 1 else 0 |} in
  {| meshStartIdx := s16 (meshStartIdx f + 1);
     indexOffset := u64 (indexOffset f + u64 (indexCount m * 2));
     vertexOffset :=
       u64 (vertexOffset f + u32 (v10VertCacheSize * vertCount m));
     weightOffset := u64 (weightOffset f + extraBoneWeightSize m);
     legacyWeightIdx := u64 (legacyWeightIdx f + vertCount m);
     stripIndex :=
       if hasGeometry m then u64 (stripIndex f + 1) else stripIndex f;
     hdrIndexCount := hdrIndexCount f + indexCount m;
     hdrVertBufferSize :=
       hdrVertBufferSize f + u32 (v10VertCacheSize * vertCount m);
     hdrExtraBoneWeightSize :=
       hdrExtraBoneWeightSize f + extraBoneWeightSize m;
     outMeshes := outMeshes f ++ [out];
     fillTrace :=
       fillTrace f
       ++ [Store (pMeshStart + meshStartIdx f * sizeof_MeshHeader)
             sizeof_MeshHeader] |}.

Definition fillLod_191 (pLodStart pMeshStart : Z)
    (acc : Z * fill) (olod : option ModelLODHeader_rev4) : Z * fill :=
  let '(lodIdx, f) := acc in
  match olod with
  | None => (lodIdx + 1, f)
  | Some lod =>
      let f :=
        {| meshStartIdx := meshStartIdx f; indexOffset := indexOffset f;
           vertexOffset := vertexOffset f; weightOffset := weightOffset f;
           legacyWeightIdx := legacyWeightIdx f; stripIndex := stripIndex f;
           hdrIndexCount := hdrIndexCount f;
           hdrVertBufferSize := hdrVertBufferSize f;
           hdrExtraBoneWeightSize := hdrExtraBoneWeightSize f;
           outMeshes := outMeshes f;
           fillTrace :=
             fillTrace f
             ++ [Store (pLodStart + lodIdx * sizeof_ModelLODHeader)
                   sizeof_ModelLODHeader] |} in
      (lodIdx + 1,
       fold_left
         (fun f om =>
            match om with None => f | Some m => fillMesh_191 pMeshStart m f end)
         (pMesh lod) f)
  end.

Definition noFill : fill :=
  {| meshStartIdx := 0; indexOffset := 0; vertexOffset := 0;
     weightOffset := 0; legacyWeightIdx := 0; stripIndex := 0;
     hdrIndexCount := 0; hdrVertBufferSize := 0;
     hdrExtraBoneWeightSize := 0; outMeshes := []; fillTrace := [] |}.

(** *** The whole conversion *)

Record VertexGroupHeader_rev1 := {
  h_lodCount : Z;
  h_meshCount : Z;
  h_dataSize : Z;
  h_boneStateChangeOffset : Z;
  h_boneStateChangeCount : Z;
  h_meshOffset : Z;
  h_indexOffset : Z;
  h_indexCount : Z;
  h_vertOffset : Z;
  h_vertBufferSize : Z;
  h_extraBoneWeightOffset : Z;
  h_extraBoneWeightSize : Z;
  h_unknownOffset : Z;
  h_unknownCount : Z;
  h_lodOffset : Z;
  h_legacyWeightOffset : Z;
  h_legacyWeightCount : Z;
  h_stripOffset : Z;
  h_stripCount : Z
}.

Record converted := {
  outputBufSize : Z;
  outHdr : VertexGroupHeader_rev1;
  outMeshHeaders : list MeshHeader_rev1;
  boneStates : list Z;
  messages : list BoneState.message;
  events : list event
}.

(** [ConvertVGData_191].  [None]: the group has no LOD and nothing is
    written.  The output buffer has [outputBufSize] bytes, all zero at the
    start; [events] lists the stores into it in program order, then the
    overflow report if the check at the end fires, then the file write. *)
Definition ConvertVGData_191 (g : VertexGroupHeader_rev4)
    (pRmdlHdr : option BoneState.studiohdr) (rmdlData : option (list Z))
    : option converted :=
  if lodCount g =? 0 then None
  else
    let t := forEachMesh g countMesh_191 noTotals in
    let '(boneStates, log) :=
      BoneState.recoverBoneStates_191 pRmdlHdr rmdlData (maxBoneIndex t) in
    let nStates := Z.of_nat (length boneStates) in
    let unknownCount := totalMeshCount t / lodCount g in
    let legacyWeightSize := u64 (totalVertexCount t * 16) in
    let outputBufSize :=
      u64 (sizeof_VertexGroupHeader + nStates
           + totalMeshCount t * sizeof_MeshHeader
           + totalIndexBufSize t + 16
           + totalVertexBufSize t + 16
           + totalExtraWeightSize t
           + unknownCount * sizeof_UnkVgData
           + lodCount g * sizeof_ModelLODHeader
           + legacyWeightSize
           + totalStripCount t * sizeof_StripHeader
           + 4096) in
    let w := {| pWrite := 0; trace := [] |} in
    let w := put sizeof_VertexGroupHeader sizeof_VertexGroupHeader w in
    let pBoneStateChange := pWrite w in
    let w := match boneStates with [] => w | _ => put nStates nStates w end in
    let pMeshStart := pWrite w in
    let w := advance (totalMeshCount t * sizeof_MeshHeader) w in
    let w := align16 w in
    let pIndexData := pWrite w in
    let w := forEachMesh g copyIndices w in
    let w := align16 w in
    let pVertexData := pWrite w in
    let w := forEachMesh g copyVertices_191 w in
    let w := align16 w in
    let pWeightData := pWrite w in
    let w := forEachMesh g copyWeights w in
    let pUnknownData := pWrite w in
    let w :=
      if 0 <? unknownCount
      then put (unknownCount * sizeof_UnkVgData)
             (unknownCount * sizeof_UnkVgData) w
      else w in
    let pLodStart := pWrite w in
    let w := advance (lodCount g * sizeof_ModelLODHeader) w in
    let pLegacyWeight := pWrite w in
    let w := Nat.iter (Z.to_nat (totalVertexCount t)) (put 16 16) w in
    let pStripData := pWrite w in
    let w := forEachMesh g writeStrip w in
    let f := (fold_left (fillLod_191 pLodStart pMeshStart) (pLod g)
                (0, noFill)).2 in
    let dataSize := s32 (pWrite w) in
    let pBufferEnd := outputBufSize in
    let report :=
      if pBufferEnd <? pWrite w
      then [OverflowReport (pWrite w - pBufferEnd)] else [] in
    Some
      {| outputBufSize := outputBufSize;
         outHdr :=
           {| h_lodCount := lodCount g;
              h_meshCount := totalMeshCount t;
              h_dataSize := dataSize;
              h_boneStateChangeOffset := pBoneStateChange;
              h_boneStateChangeCount := nStates;
              h_meshOffset := pMeshStart;
              h_indexOffset := pIndexData;
              h_indexCount := hdrIndexCount f;
              h_vertOffset := pVertexData;
              h_vertBufferSize := hdrVertBufferSize f;
              h_extraBoneWeightOffset := pWeightData;
              h_extraBoneWeightSize := hdrExtraBoneWeightSize f;
              h_unknownOffset := pUnknownData;
              h_unknownCount := unknownCount;
              h_lodOffset := pLodStart;
              h_legacyWeightOffset := pLegacyWeight;
              h_legacyWeightCount := totalVertexCount t;
              h_stripOffset := pStripData;
              h_stripCount := totalStripCount t |};
         outMeshHeaders := outMeshes f;
         boneStates := boneStates;
         messages := log;
         events := trace w ++ fillTrace f ++ report ++ [FileWrite dataSize] |}.

(** *** The cursor under repeated stores *)

Lemma bytesStored_app t1 t2 :
  bytesStored (t1 ++ t2) = bytesStored t1 + bytesStored t2.
Proof.
  unfold bytesStored.
  induction t1 as [|e t1 IH]; cbn; [done|]. rewrite IH. lia.
Qed.

Lemma put_pWrite len adv w : pWrite (put len adv w) = pWrite w + adv.
Proof. reflexivity. Qed.

Lemma put_bytes len adv w :
  bytesStored (trace (put len adv w)) = bytesStored (trace w) + len.
Proof. unfold put. cbn [trace]. rewrite bytesStored_app. cbn. lia. Qed.

Lemma iter_put_pWrite n len adv w :
  pWrite (Nat.iter n (put len adv) w) = pWrite w + Z.of_nat n * adv.
Proof.
  induction n as [|n IH]; [cbn; lia|].
  rewrite Nat.iter_succ, put_pWrite, IH. lia.
Qed.

Lemma iter_put_bytes n len adv w :
  bytesStored (trace (Nat.iter n (put len adv) w))
  = bytesStored (trace w) + Z.of_nat n * len.
Proof.
  induction n as [|n IH]; [cbn; lia|].
  rewrite Nat.iter_succ, put_bytes, IH. lia.
Qed.

(** A mesh of three vertices with a position and a second UV channel, the
    stored stride counting both. *)
Definition positionUv2Mesh : MeshHeader_rev4 :=
  {| flags := 0x200000001; vertCacheSize := 20; vertCount := 3;
     vertBufferSize := 60; indexCount := 3; extraBoneWeightSize := 0;
     vertBoneCount := 0; pVertices := Some (replicate 60 0);
     pIndices := Some (replicate 6 0); pBoneWeights := None |}.

Example positionUv2Mesh_191 :
  copyVertices_191 positionUv2Mesh {| pWrite := 304; trace := [] |}
  = {| pWrite := 340;
       trace := [Store 304 12; Store 316 12; Store 328 12] |}.
Proof. reflexivity. Qed.

Example positionUv2Mesh_160 :
  copyVertices_160 positionUv2Mesh {| pWrite := 304; trace := [] |}
  = {| pWrite := 340;
       trace := [Store 304 12; Store 316 12; Store 328 12] |}.
Proof. reflexivity. Qed.

(** C1 (as amended).  For a mesh whose 64-bit flag word has the second-UV
    bit, conversion removes exactly that bit.  If the stride the source mesh
    stores ([vertCacheSize]) is 8 bytes more than the stride computed from
    its flags, the converted stride is 8 bytes smaller than the source
    stride and, for a mesh with a vertex pointer, the vertex bytes written
    and the cursor advance are [newStride * vertCount], in the v19.1
    converter and (when the stored buffer size is stride times count) in the
    v16 converter; the converted mesh header carries the new flags and the
    new stride. *)
Theorem uv2_strip_stride_and_bytes
    (m : MeshHeader_rev4) (w : writer) (verts : list Z) :
  0 <= flags m < 2 ^ 64 ->
  test (flags m) VERTEX_HAS_UV2_FLAG = true ->
  vertCacheSize m = CalculateVertexSize_191 (flags m) + 8 ->
  pVertices m = Some verts ->
  0 <= vertCount m ->
  let newFlags := ConvertMeshFlags_191 (flags m) in
  let newStride := CalculateVertexSize_191 newFlags in
  newFlags = flags m - VERTEX_HAS_UV2_FLAG
  /\ newStride = vertCacheSize m - 8
  /\ advanced (copyVertices_191 m) w = newStride * vertCount m
  /\ bytesStored (trace (copyVertices_191 m w))
     = bytesStored (trace w) + newStride * vertCount m
  /\ (vertBufferSize m = vertCacheSize m * vertCount m ->
      advanced (copyVertices_160 m) w = newStride * vertCount m
      /\ bytesStored (trace (copyVertices_160 m w))
         = bytesStored (trace w) + newStride * vertCount m)
  /\ (forall pMeshStart f,
        exists out,
          outMeshes (fillMesh_191 pMeshStart m f) = outMeshes f ++ [out]
          /\ o_flags out = newFlags /\ o_vertCacheSize out = newStride).
Proof.
  intros Hr Huv2 Hstored Hverts Hcount newFlags newStride.
  assert (Hstride : newStride = vertCacheSize m - 8).
  { unfold newStride, newFlags.
    rewrite stride_ignores_uv2. lia. }
  pose proof (CalculateVertexSize_191_range newFlags) as Hrange.
  fold newStride in Hrange.
  split; [by apply ConvertMeshFlags_191_sub|].
  split; [exact Hstride|].
  assert (H191 : copyVertices_191 m w
                 = if 0 <? vertCount m
                   then Nat.iter (Z.to_nat (vertCount m))
                          (put newStride newStride) w
                   else w).
  { unfold copyVertices_191. rewrite Hverts.
    destruct (0 <? vertCount m); [|done].
    fold newFlags. fold newStride.
    destruct (Z.eqb_spec (vertCacheSize m) newStride); [lia|done]. }
  split; [|split; [|split]].
  - unfold advanced. rewrite H191.
    destruct (Z.ltb_spec 0 (vertCount m)).
    + rewrite iter_put_pWrite. lia.
    + replace (vertCount m) with 0 by lia. lia.
  - rewrite H191.
    destruct (Z.ltb_spec 0 (vertCount m)).
    + rewrite iter_put_bytes. lia.
    + replace (vertCount m) with 0 by lia. lia.
  - intros Hbuf.
    assert (H160 : copyVertices_160 m w
                   = if 0 <? vertCount m
                     then Nat.iter (Z.to_nat (vertCount m))
                            (put newStride newStride) w
                     else w).
    { unfold copyVertices_160. rewrite Hverts.
      rewrite ConvertMeshFlags_160_191, CalculateVertexSize_160_191.
      fold newFlags. fold newStride. rewrite Huv2.
      destruct (Z.ltb_spec 0 (vertCount m)) as [Hpos|Hzero].
      - destruct (Z.ltb_spec 0 (vertBufferSize m)); [|nia].
        destruct (Z.ltb_spec newStride (vertCacheSize m)); [done|lia].
      - replace (vertCount m) with 0 in * by lia.
        destruct (Z.ltb_spec 0 (vertBufferSize m)); [lia|done]. }
    unfold advanced. rewrite H160.
    destruct (Z.ltb_spec 0 (vertCount m)).
    + rewrite iter_put_pWrite, iter_put_bytes. lia.
    + replace (vertCount m) with 0 by lia. lia.
  - intros pMeshStart f. eexists. split; [reflexivity|]. done.
Qed.

Lemma uv2_strip_stride_and_bytes_witness :
  0 <= flags positionUv2Mesh < 2 ^ 64
  /\ test (flags positionUv2Mesh) VERTEX_HAS_UV2_FLAG = true
  /\ vertCacheSize positionUv2Mesh
     = CalculateVertexSize_191 (flags positionUv2Mesh) + 8
  /\ CalculateVertexSize_191 (ConvertMeshFlags_191 (flags positionUv2Mesh))
     = vertCacheSize positionUv2Mesh - 8
  /\ advanced (copyVertices_191 positionUv2Mesh)
       {| pWrite := 304; trace := [] |}
     = 12 * 3.
Proof.
  assert (H1 : 0 <= flags positionUv2Mesh < 2 ^ 64) by (cbn; lia).
  assert (H2 : test (flags positionUv2Mesh) VERTEX_HAS_UV2_FLAG = true)
    by reflexivity.
  assert (H3 : vertCacheSize positionUv2Mesh
               = CalculateVertexSize_191 (flags positionUv2Mesh) + 8)
    by reflexivity.
  destruct (uv2_strip_stride_and_bytes positionUv2Mesh
              {| pWrite := 304; trace := [] |} (replicate 60 0)
              H1 H2 H3 eq_refl ltac:(cbn; lia))
    as (_ & Hstride & Hadv & _).
  split; [exact H1|]. split; [exact H2|]. split; [exact H3|].
  split; [exact Hstride|exact Hadv].
Defined.

(** C1, the claim as stated fails: a mesh with the second-UV bit whose
    stored stride is the 12 bytes of its position.  The converted stride is
    12, the source stride, not 8 bytes less.  And a mesh with the bit, a
    stored stride of 20 and three vertices but a null vertex pointer has
    nothing written for it, not 3 times 12 bytes. *)
Lemma uv2_stride_not_reduced_counterexample :
  let m :=
    {| flags := 0x200000001; vertCacheSize := 12; vertCount := 3;
       vertBufferSize := 36; indexCount := 3; extraBoneWeightSize := 0;
       vertBoneCount := 0; pVertices := Some (replicate 36 0);
       pIndices := Some (replicate 6 0); pBoneWeights := None |} in
  let unbacked :=
    {| flags := 0x200000001; vertCacheSize := 20; vertCount := 3;
       vertBufferSize := 60; indexCount := 0; extraBoneWeightSize := 0;
       vertBoneCount := 0; pVertices := None;
       pIndices := None; pBoneWeights := None |} in
  test (flags m) VERTEX_HAS_UV2_FLAG = true
  /\ CalculateVertexSize_191 (flags m) = 12
  /\ CalculateVertexSize_191 (ConvertMeshFlags_191 (flags m)) = 12
  /\ CalculateVertexSize_191 (ConvertMeshFlags_191 (flags m))
     <> vertCacheSize m - 8
  /\ test (flags unbacked) VERTEX_HAS_UV2_FLAG = true
  /\ copyVertices_191 unbacked {| pWrite := 304; trace := [] |}
     = {| pWrite := 304; trace := [] |}
  /\ CalculateVertexSize_191 (ConvertMeshFlags_191 (flags unbacked))
     * vertCount unbacked = 36.
Proof. cbn. repeat split; discriminate. Qed.

(** *** The overflow check *)

(** One LOD, one mesh: a position-only vertex of 12 bytes, stored stride 12,
    and a stored vertex-buffer size of 8192 bytes, backed by 8192 bytes of
    vertex data. *)
Definition overflowingMesh : MeshHeader_rev4 :=
  {| flags := 0x1; vertCacheSize := 12; vertCount := 1;
     vertBufferSize := 8192; indexCount := 0; extraBoneWeightSize := 0;
     vertBoneCount := 0; pVertices := Some (replicate (Z.to_nat 8192) 0);
     pIndices := None; pBoneWeights := None |}.

Definition overflowingGroup : VertexGroupHeader_rev4 :=
  {| lodIndex := 0; groupIndex := 0; lodMap := 1;
     pLod := [Some {| pMesh := [Some overflowingMesh] |}] |}.

(** C5, the code at a failing input.  The buffer is sized from stride times
    count (4543 bytes), the equal-stride branch copies the stored buffer
    size: the store of 8192 bytes at offset 304 runs past the end of the
    buffer, five more stores follow, and only then is the cursor compared
    with the end of the buffer; the excess is reported and the file is
    written all the same, with the 8603 bytes the cursor covers. *)
Theorem vg_overflow_reported_after_the_write :
  exists r,
    ConvertVGData_191 overflowingGroup None None = Some r
    /\ outputBufSize r = 4543
    /\ events r
       = [Store 0 224; Store 304 8192; Store 8496 48; Store 8552 16;
          Store 8568 35; Store 8544 8; Store 224 72;
          OverflowReport 4060; FileWrite 8603]
    /\ outputBufSize r < 304 + 8192.
Proof.
  eexists. split; [vm_compute; reflexivity|]. cbn [outputBufSize events].
  split; [reflexivity|]. split; [reflexivity|]. lia.
Qed.

(** The same group with a consistent buffer size stays inside the buffer
    and reports nothing. *)
Example vg_consistent_mesh_fits :
  option_map events
    (ConvertVGData_191
       {| lodIndex := 0; groupIndex := 0; lodMap := 1;
          pLod := [Some {| pMesh := [Some positionUv2Mesh] |}] |}
       None None)
  = Some [Store 0 224; Store 304 6; Store 320 12; Store 332 12;
          Store 344 12; Store 368 48; Store 424 16; Store 440 16;
          Store 456 16; Store 472 35; Store 416 8; Store 224 72;
          FileWrite 507].
Proof. vm_compute. reflexivity. Qed.

End VG.

(* ------------------------------------------------------------------ *)
(** ** The output arena of the model file: cursor and string table *)

Module Arena.

(** Modelled from the spec: the macros [ALIGN2], [ALIGN4] and [ALIGN64] are
    defined in a header that is not among the sources.  The spec (section 3)
    has the cursor re-aligned to the boundary before a section begins, so
    each rounds the cursor up to the next multiple.  The cursor is an
    offset into the arena here, which is the pointer's alignment when the
    arena starts on such a boundary. *)
Definition ALIGN2 (pData : Z) : Z := Z.land (pData + 1) (Z.lnot 1).
Definition ALIGN4 (pData : Z) : Z := Z.land (pData + 3) (Z.lnot 3).
Definition ALIGN64 (pData : Z) : Z := Z.land (pData + 63) (Z.lnot 63).

(** One call of [AddToStringTable (base, slot, text)]: the record that owns
    the slot (as an offset into the arena), the slot's field and the
    text. *)
Record stringentry := {
  owner : Z;
  slot : string;
  text : string
}.

Example ALIGN4_up : ALIGN4 181 = 184.
Proof. reflexivity. Qed.

Example ALIGN4_fixed : ALIGN4 184 = 184.
Proof. reflexivity. Qed.

End Arena.

(* ------------------------------------------------------------------ *)
(** ** Bones ([ConvertBones_191], [rmdl_191.cpp], lines 715-843;
       [ConvertBones_160], v16 file, lines 689-817) *)

Module Bones.
Import Arena.

Definition V10_BONE_USED_BY_BONE_MERGE : Z := 0x00040000.

(** [flags & ~V10_BONE_USED_BY_BONE_MERGE] on a signed [int]. *)
Definition TranslateBoneFlags_191 (flags : Z) : Z :=
  Z.land flags (Z.lnot V10_BONE_USED_BY_BONE_MERGE).

Definition STUDIO_PROC_JIGGLE : Z := 5.

(** A source bone: the fields read from its [mstudiobonehdr_t] and from its
    [mstudiobonedata_t], and [dataAddr], the offset of the latter in the
    model file.  The two declarations are not among the sources;
    [collisionIndex] and [proctype] are taken as unsigned 8-bit fields and
    [procindex] as an unsigned 16-bit one. *)
Record mstudiobone_v191 := {
  pszName : string;
  surfaceprop : string;
  contents : Z;
  surfacepropLookup : Z;
  physicsbone : Z;
  dataAddr : Z;
  parent : Z;
  flags : Z;
  proctype : Z;
  procindex : Z;
  collisionIndex : Z
}.

(** Where the pose of a converted bone comes from: entry [i] of the linear
    bone arrays (v19.1), that entry with the scale and the alignment of the
    inline bone data (v16), the inline bone data alone (v16), or the
    identity transform (v19.1). *)
Inductive pose :=
  | FromLinearBone (i : nat)
  | FromLinearBoneAndData (i : nat)
  | FromBoneData (i : nat)
  | IdentityTransform.

Record mstudiobone_v8 := {
  n_parent : Z;
  n_flags : Z;
  n_proctype : Z;
  n_procindex : Z;
  n_contents : Z;
  n_surfacepropLookup : Z;
  n_physicsbone : Z;
  n_collisionIndex : Z;
  n_bonecontroller : Z;
  n_pose : pose
}.

Definition set_procindex (v : Z) (b : mstudiobone_v8) : mstudiobone_v8 :=
  {| n_parent := n_parent b; n_flags := n_flags b;
     n_proctype := n_proctype b; n_procindex := v;
     n_contents := n_contents b;
     n_surfacepropLookup := n_surfacepropLookup b;
     n_physicsbone := n_physicsbone b;
     n_collisionIndex := n_collisionIndex b;
     n_bonecontroller := n_bonecontroller b; n_pose := n_pose b |}.

(** The body of the first loop for bone [i].  [linear] tells whether the
    linear bone table passed the validation and has bones; [poses] gives the
    pose taken with it and the pose taken without. *)
Definition convertBone (linear : bool) (poses : (nat -> pose) * (nat -> pose))
    (i : nat) (oldBone : mstudiobone_v191) : mstudiobone_v8 :=
  let unsupported :=
    negb (proctype oldBone =? STUDIO_PROC_JIGGLE) && (0 <? proctype oldBone) in
  {| n_parent := parent oldBone;
     n_flags := TranslateBoneFlags_191 (flags oldBone);
     n_proctype := if unsupported then 0 else proctype oldBone;
     n_procindex := if unsupported then 0 else procindex oldBone;
     n_contents := contents oldBone;
     n_surfacepropLookup := surfacepropLookup oldBone;
     n_physicsbone := physicsbone oldBone;
     n_collisionIndex :=
       if collisionIndex oldBone =? 0xFF then -1
       else collisionIndex oldBone;
     n_bonecontroller := -1;
     n_pose := if linear then poses.1 i else poses.2 i |}.

(** [std::map<uint8_t, uint8_t>::emplace]: keys in ascending order, an
    existing key keeps its value. *)
Fixpoint emplace (k v : Z) (m : list (Z * Z)) : list (Z * Z) :=
  match m with
  | [] => [(k, v)]
  | (k', v') :: m' =>
      if k <? k' then (k, v) :: m
      else if k =? k' then m
      else (k', v') :: emplace k v m'
  end.

Fixpoint find (k : Z) (m : list (Z * Z)) : option Z :=
  match m with
  | [] => None
  | (k', v') :: m' => if k =? k' then Some v' else find k m'
  end.

Record jiggles := {
  j_pData : Z;
  j_bones : list mstudiobone_v8;
  j_copied : list (Z * list Z);
  j_linearprocbones : list (Z * Z)
}.

Record converted := {
  boneindex : Z;
  bones : list mstudiobone_v8;
  jiggleBones : list (Z * list Z);
  procBoneCount : Z;
  procBoneTableOffset : Z;
  procBoneTable : list Z;
  linearProcBoneOffset : Z;
  linearProcBones : list Z;
  strings : list stringentry;
  pData : Z
}.

Section ConvertBones.

(** The model file, and what the missing header declares: the sizes of the
    two target records, the offset macro [FIX_OFFSET] and the position of
    the [bone] field in a jiggle record (given as the function that reads
    it from the record's bytes). *)
Variable pMDL : list Z.
Variable sizeof_mstudiobone : Z.
Variable sizeof_mstudiojigglebone : Z.
Variable FIX_OFFSET : Z -> Z.
Variable jigglebone_bone : list Z -> Z.

(** The bytes of the source jiggle record of a bone. *)
Definition oldJBone (oldBoneData : mstudiobone_v191) : list Z :=
  BoneState.run pMDL
    (dataAddr oldBoneData + FIX_OFFSET (procindex oldBoneData))
    (Z.to_nat sizeof_mstudiojigglebone).

(** The body of the second loop: copy one jiggle record to the cursor and
    point the bone at it. *)
Definition copyJiggle (pBoneStart : Z) (st : jiggles)
    (pb : nat * mstudiobone_v191) : jiggles :=
  let boneid := pb.1 in
  let bone := pBoneStart + Z.of_nat boneid * sizeof_mstudiobone in
  let jBone := j_pData st in
  {| j_pData := jBone + sizeof_mstudiojigglebone;
     j_bones := alter (set_procindex (s32 (jBone - bone))) boneid (j_bones st);
     j_copied := j_copied st ++ [(jBone, oldJBone pb.2)];
     j_linearprocbones :=
       emplace (u8 (jigglebone_bone (oldJBone pb.2)))
         (u8 (Z.of_nat (length (j_linearprocbones st))))
         (j_linearprocbones st) |}.

Definition isJiggle (pb : nat * mstudiobone_v191) : Prop :=
  proctype pb.2 = STUDIO_PROC_JIGGLE.

#[local] Instance isJiggle_dec pb : Decision (isJiggle pb).
Proof. unfold isJiggle. apply _. Defined.

(** [pLinearBone] after the validation: present, of the model's bone count,
    and not empty. *)
Definition usableLinearBone (numBones : Z) (linearNumbones : option Z)
    : bool :=
  match linearNumbones with
  | Some n => (n =? numBones) && (0 <? n)
  | None => false
  end.

(** The vector [proceduralBones]: the jiggle bones in bone order, each with
    its index and its source bone. *)
Definition proceduralBones (oldBones : list mstudiobone_v191)
    : list (nat * mstudiobone_v191) :=
  filter isJiggle (imap pair oldBones).

Definition copyJiggles (pBoneStart pData : Z)
    (newBones : list mstudiobone_v8)
    (oldBones : list mstudiobone_v191) : jiggles :=
  fold_left (copyJiggle pBoneStart) (proceduralBones oldBones)
    {| j_pData := pData; j_bones := newBones; j_copied := [];
       j_linearprocbones := [] |}.

(** [ConvertBones] from the cursor [pData0] on; [oldBones] are the
    [numBones] source bones, [linearNumbones] is [Some n] when the source
    has a linear bone table with [n] bones. *)
Definition ConvertBones (poses : (nat -> pose) * (nat -> pose))
    (oldBones : list mstudiobone_v191) (linearNumbones : option Z)
    (strings0 : list stringentry) (pData0 : Z) : converted :=
  let numBones := Z.of_nat (length oldBones) in
  let pBoneStart := pData0 in
  let linear := usableLinearBone numBones linearNumbones in
  let newBones := imap (convertBone linear poses) oldBones in
  let added :=
    concat
      (imap
         (fun i oldBone =>
            let newBone := pBoneStart + Z.of_nat i * sizeof_mstudiobone in
            [ {| owner := newBone; slot := "sznameindex";
                 text := pszName oldBone |};
              {| owner := newBone; slot := "surfacepropidx";
                 text := surfaceprop oldBone |} ])
         oldBones) in
  let pData := ALIGN4 (pBoneStart + numBones * sizeof_mstudiobone) in
  match proceduralBones oldBones with
  | [] =>
      {| boneindex := pBoneStart; bones := newBones; jiggleBones := [];
         procBoneCount := 0; procBoneTableOffset := 0; procBoneTable := [];
         linearProcBoneOffset := 0; linearProcBones := [];
         strings := strings0 ++ added; pData := pData |}
  | _ =>
      let st := copyJiggles pBoneStart pData newBones oldBones in
      let pData := ALIGN4 (j_pData st) in
      match j_linearprocbones st with
      | [] =>
          {| boneindex := pBoneStart; bones := j_bones st;
             jiggleBones := j_copied st;
             procBoneCount := 0; procBoneTableOffset := 0;
             procBoneTable := [];
             linearProcBoneOffset := 0; linearProcBones := [];
             strings := strings0 ++ added; pData := pData |}
      | m =>
          let count := Z.of_nat (length m) in
          {| boneindex := pBoneStart; bones := j_bones st;
             jiggleBones := j_copied st;
             procBoneCount := s32 count;
             procBoneTableOffset := s32 pData;
             procBoneTable := m.*1;
             linearProcBoneOffset := s32 (pData + count);
             linearProcBones :=
               map (fun i => default 0xff (find (u8 (Z.of_nat i)) m))
                 (seq 0 (length oldBones));
             strings := strings0 ++ added;
             pData := ALIGN4 (pData + count + numBones) |}
      end
  end.

(** The two converters differ in the poses only. *)
Definition ConvertBones_191 :=
  ConvertBones (FromLinearBone, fun _ => IdentityTransform).
Definition ConvertBones_160 :=
  ConvertBones (FromLinearBoneAndData, FromBoneData).

(** *** What the two loops leave in a bone *)

Lemma NoDup_fmap_filter {A B : Type} (f : A -> B) (P : A -> Prop)
    `{!forall x, Decision (P x)} (l : list A) :
  NoDup (f <$> l) -> NoDup (f <$> filter P l).
Proof.
  induction l as [|x l IH]; [done|].
  rewrite fmap_cons, NoDup_cons. intros [Hx Hl].
  rewrite filter_cons. destruct (decide (P x)); [|by apply IH].
  rewrite fmap_cons. apply NoDup_cons. split; [|by apply IH].
  intros Hin. apply Hx.
  apply list_elem_of_fmap in Hin as (y & -> & Hy).
  apply list_elem_of_filter in Hy as [_ Hy].
  by apply list_elem_of_fmap_2.
Qed.

Lemma proceduralBones_NoDup oldBones :
  NoDup (proceduralBones oldBones).*1.
Proof.
  unfold proceduralBones. apply NoDup_fmap_filter.
  rewrite fmap_imap.
  rewrite (imap_ext _ (fun j _ => id j)) by done.
  rewrite (imap_seq_0 oldBones id), list_fmap_id.
  apply NoDup_seq.
Qed.

Lemma elem_of_proceduralBones oldBones i oldBone :
  (i, oldBone) ∈ proceduralBones oldBones
  <-> oldBones !! i = Some oldBone /\ proctype oldBone = STUDIO_PROC_JIGGLE.
Proof.
  unfold proceduralBones. rewrite list_elem_of_filter.
  rewrite elem_of_lookup_imap. unfold isJiggle. cbn.
  split.
  - intros (Hj & j & x & [= -> ->] & Hx). done.
  - intros (Hx & Hj). split; [done|]. by exists i, oldBone.
Qed.

Lemma copyJiggle_fold pBoneStart (J : list (nat * mstudiobone_v191)) :
  forall st,
  NoDup J.*1 ->
  let st' := fold_left (copyJiggle pBoneStart) J st in
  (forall i, i ∉ J.*1 -> j_bones st' !! i = j_bones st !! i)
  /\ (forall i oldBone, (i, oldBone) ∈ J ->
        exists jBone,
          (jBone, oldJBone oldBone) ∈ j_copied st'
          /\ j_bones st' !! i
             = set_procindex
                 (s32 (jBone
                       - (pBoneStart + Z.of_nat i * sizeof_mstudiobone)))
               <$> j_bones st !! i)
  /\ (forall x, x ∈ j_copied st -> x ∈ j_copied st').
Proof.
  induction J as [|[i0 old0] J IH]; intros st Hnd; cbn [fold_left].
  - split; [done|]. split; [|done]. intros i oldBone Hin. by inversion Hin.
  - cbn in Hnd. apply NoDup_cons in Hnd as [Hi0 Hnd].
    destruct (IH (copyJiggle pBoneStart st (i0, old0)) Hnd)
      as (Hother & Hjiggle & Hkeep).
    split; [|split].
    + intros i Hi. cbn in Hi. apply not_elem_of_cons in Hi as [Hne Hi].
      rewrite (Hother i Hi). cbn. by rewrite list_lookup_alter_ne.
    + intros i oldBone Hin. apply elem_of_cons in Hin as [[= -> ->]|Hin].
      * exists (j_pData st). split.
        -- apply Hkeep. cbn. apply elem_of_app. right. apply list_elem_of_here.
        -- rewrite (Hother i0 Hi0). cbn. by rewrite list_lookup_alter_eq.
      * destruct (Hjiggle i oldBone Hin) as (jBone & Hcopied & Hbone).
        exists jBone. split; [done|]. rewrite Hbone. cbn.
        rewrite list_lookup_alter_ne; [done|].
        intros ->. apply Hi0. by apply (list_elem_of_fmap_2 fst) in Hin.
    + intros x Hx. apply Hkeep. cbn. apply elem_of_app. by left.
Qed.

(** The second loop writes its records one behind the other: record [k] of
    the loop starts [k] record sizes behind the cursor the loop starts
    with, and the cursor ends behind the last one. *)
Lemma copyJiggle_fold_layout pBoneStart (J : list (nat * mstudiobone_v191)) :
  forall st,
  let st' := fold_left (copyJiggle pBoneStart) J st in
  j_pData st'
  = j_pData st + Z.of_nat (length J) * sizeof_mstudiojigglebone
  /\ j_copied st'
     = j_copied st
       ++ imap (fun k pb =>
                  (j_pData st + Z.of_nat k * sizeof_mstudiojigglebone,
                   oldJBone pb.2)) J.
Proof.
  induction J as [|pb J IH]; intros st; cbn [fold_left].
  - cbn. split; [lia|]. by rewrite app_nil_r.
  - destruct (IH (copyJiggle pBoneStart st pb)) as [Hp Hc].
    cbn zeta in Hp, Hc. rewrite Hp, Hc. cbn [copyJiggle j_pData j_copied].
    split; [cbn [length]; lia|].
    rewrite <- app_assoc. cbn [app imap]. f_equal. f_equal.
    + f_equal. lia.
    + apply imap_ext. intros k x _. cbn. f_equal. lia.
Qed.

(** The number of jiggle bones before bone [i]: the position of bone [i]
    in the vector [proceduralBones]. *)
Definition jiggleRank (oldBones : list mstudiobone_v191) (i : nat) : nat :=
  length (proceduralBones (take i oldBones)).

Lemma proceduralBones_middle l1 x l2 :
  proctype x = STUDIO_PROC_JIGGLE ->
  proceduralBones (l1 ++ x :: l2) !! length (proceduralBones l1)
  = Some (length l1, x).
Proof.
  intros Hj. unfold proceduralBones.
  rewrite imap_app, filter_app. cbn [imap].
  rewrite filter_cons_True by exact Hj.
  rewrite Nat.add_0_r. apply list_lookup_middle. done.
Qed.

Lemma proceduralBones_lookup oldBones i oldBone :
  oldBones !! i = Some oldBone ->
  proctype oldBone = STUDIO_PROC_JIGGLE ->
  proceduralBones oldBones !! jiggleRank oldBones i = Some (i, oldBone).
Proof.
  intros Hi Hj. unfold jiggleRank.
  pose proof (proceduralBones_middle (take i oldBones) oldBone
                (drop (S i) oldBones) Hj) as Hm.
  rewrite take_drop_middle in Hm by exact Hi.
  rewrite Hm. f_equal. f_equal.
  apply length_take_le. apply lookup_lt_Some in Hi. lia.
Qed.

(** An earlier jiggle bone has a smaller rank. *)
Lemma jiggleRank_lt oldBones i0 i old0 :
  (i0 < i)%nat ->
  oldBones !! i0 = Some old0 ->
  proctype old0 = STUDIO_PROC_JIGGLE ->
  (jiggleRank oldBones i0 < jiggleRank oldBones i)%nat.
Proof.
  intros Hlt Hi0 Hj.
  assert (Htake : take i oldBones !! i0 = Some old0)
    by (rewrite lookup_take_lt by exact Hlt; exact Hi0).
  pose proof (proceduralBones_lookup _ _ _ Htake Hj) as Hm.
  apply lookup_lt_Some in Hm. unfold jiggleRank in Hm |- *.
  rewrite take_take in Hm. by rewrite Nat.min_l in Hm by lia.
Qed.

(** The bytes copied for a jiggle bone are the record-size bytes of the
    model file behind the bone's procedural payload offset. *)
Lemma oldJBone_bytes oldBone :
  length (oldJBone oldBone) = Z.to_nat sizeof_mstudiojigglebone
  /\ forall n, (n < Z.to_nat sizeof_mstudiojigglebone)%nat ->
       oldJBone oldBone !! n
       = Some (BoneState.byte_at pMDL
                 (dataAddr oldBone + FIX_OFFSET (procindex oldBone)
                  + Z.of_nat n)).
Proof.
  unfold oldJBone. split; [apply BoneState.run_length|].
  generalize (dataAddr oldBone + FIX_OFFSET (procindex oldBone)).
  induction (Z.to_nat sizeof_mstudiojigglebone) as [|m IH]; intros p n Hn;
    [lia|].
  destruct n as [|n]; cbn.
  - do 2 f_equal. lia.
  - rewrite IH by lia. do 2 f_equal. lia.
Qed.

Section Converted.

Variable poses : (nat -> pose) * (nat -> pose).
Variable oldBones : list mstudiobone_v191.
Variable linearNumbones : option Z.
Variable strings0 : list stringentry.
Variable pData0 : Z.

Let out := ConvertBones poses oldBones linearNumbones strings0 pData0.
Let linear :=
  usableLinearBone (Z.of_nat (length oldBones)) linearNumbones.

Lemma ConvertBones_shape :
  let st :=
    copyJiggles pData0
      (ALIGN4 (pData0 + Z.of_nat (length oldBones) * sizeof_mstudiobone))
      (imap (convertBone linear poses) oldBones) oldBones in
  boneindex out = pData0
  /\ bones out = j_bones st /\ jiggleBones out = j_copied st.
Proof.
  unfold out, linear, ConvertBones, copyJiggles.
  destruct (proceduralBones oldBones) as [|pb rest]; [done|].
  by destruct (j_linearprocbones _).
Qed.

(** A bone that is not a jiggle bone leaves the first loop as it stays; a
    jiggle bone has its record copied to some offset [jBone] of the arena
    and its [procindex] set to the distance from the bone to the copy. *)
Lemma ConvertBones_bone i oldBone :
  oldBones !! i = Some oldBone ->
  (proctype oldBone <> STUDIO_PROC_JIGGLE ->
   bones out !! i = Some (convertBone linear poses i oldBone))
  /\ (proctype oldBone = STUDIO_PROC_JIGGLE ->
      exists jBone,
        (jBone, oldJBone oldBone) ∈ jiggleBones out
        /\ bones out !! i
           = Some (set_procindex
                     (s32 (jBone
                           - (boneindex out
                              + Z.of_nat i * sizeof_mstudiobone)))
                     (convertBone linear poses i oldBone))).
Proof.
  intros Hi.
  destruct ConvertBones_shape as (Hidx & Hbones & Hcopied).
  rewrite Hidx, Hbones, Hcopied. unfold copyJiggles.
  destruct (copyJiggle_fold pData0 (proceduralBones oldBones)
              {| j_pData :=
                   ALIGN4 (pData0
                           + Z.of_nat (length oldBones) * sizeof_mstudiobone);
                 j_bones := imap (convertBone linear poses) oldBones;
                 j_copied := []; j_linearprocbones := [] |}
              (proceduralBones_NoDup oldBones))
    as (Hother & Hjiggle & _).
  cbn [j_bones] in Hother, Hjiggle.
  split.
  - intros Hnj. rewrite Hother.
    + by rewrite list_lookup_imap, Hi.
    + intros Hin. apply list_elem_of_fmap in Hin as ([j b] & Hj & Hin).
      cbn in Hj. subst j.
      apply elem_of_proceduralBones in Hin as [Hb Hjig]. congruence.
  - intros Hjig.
    destruct (Hjiggle i oldBone) as (jBone & Hin & Hb).
    { by apply elem_of_proceduralBones. }
    exists jBone. split; [done|].
    by rewrite Hb, list_lookup_imap, Hi.
Qed.

(** The log of the copies: one record per jiggle bone, in bone order,
    record [k] at [k] record sizes behind the 4-aligned end of the bone
    array. *)
Lemma ConvertBones_jiggleBones :
  jiggleBones out
  = imap (fun k pb =>
            (ALIGN4 (pData0 + Z.of_nat (length oldBones) * sizeof_mstudiobone)
             + Z.of_nat k * sizeof_mstudiojigglebone,
             oldJBone pb.2))
      (proceduralBones oldBones).
Proof.
  destruct ConvertBones_shape as (_ & _ & Hcopied). rewrite Hcopied.
  unfold copyJiggles.
  by destruct (copyJiggle_fold_layout pData0 (proceduralBones oldBones)
                 {| j_pData :=
                      ALIGN4 (pData0
                              + Z.of_nat (length oldBones)
                                * sizeof_mstudiobone);
                    j_bones := imap (convertBone linear poses) oldBones;
                    j_copied := []; j_linearprocbones := [] |})
    as [_ ->].
Qed.

(** A jiggle bone points at its own record: the record of its rank. *)
Lemma ConvertBones_jiggle_procindex i oldBone :
  oldBones !! i = Some oldBone ->
  proctype oldBone = STUDIO_PROC_JIGGLE ->
  bones out !! i
  = Some (set_procindex
            (s32 (ALIGN4 (pData0
                          + Z.of_nat (length oldBones) * sizeof_mstudiobone)
                  + Z.of_nat (jiggleRank oldBones i)
                    * sizeof_mstudiojigglebone
                  - (pData0 + Z.of_nat i * sizeof_mstudiobone)))
            (convertBone linear poses i oldBone)).
Proof.
  intros Hi Hj.
  destruct ConvertBones_shape as (_ & Hbones & _). rewrite Hbones.
  unfold copyJiggles.
  pose proof (proceduralBones_middle (take i oldBones) oldBone
                (drop (S i) oldBones) Hj) as Hmid.
  assert (Hsplit : exists J1 J2,
             proceduralBones oldBones = J1 ++ (i, oldBone) :: J2
             /\ length J1 = jiggleRank oldBones i).
  { pose proof (proceduralBones_lookup oldBones i oldBone Hi Hj) as Hk.
    apply list_elem_of_split_length in Hk as (J1 & J2 & HJ & Hlen).
    by exists J1, J2. }
  destruct Hsplit as (J1 & J2 & HJ & Hlen).
  pose proof (proceduralBones_NoDup oldBones) as Hnd.
  rewrite HJ in Hnd |- *. rewrite fmap_app, fmap_cons in Hnd.
  apply NoDup_app in Hnd as (Hnd1 & Hnot1 & Hnd2).
  rewrite fold_left_app. cbn [fold_left].
  set (st0 := {| j_pData :=
                   ALIGN4 (pData0
                           + Z.of_nat (length oldBones) * sizeof_mstudiobone);
                 j_bones := imap (convertBone linear poses) oldBones;
                 j_copied := []; j_linearprocbones := [] |}).
  destruct (copyJiggle_fold_layout pData0 J1 st0) as [Hp1 _].
  destruct (copyJiggle_fold pData0 J1 st0 Hnd1) as (Hother1 & _ & _).
  cbn zeta in Hp1, Hother1.
  set (st1 := fold_left (copyJiggle pData0) J1 st0) in *.
  apply NoDup_cons in Hnd2 as [Hi2 Hnd2].
  destruct (copyJiggle_fold pData0 J2 (copyJiggle pData0 st1 (i, oldBone))
              Hnd2) as (Hother2 & _ & _).
  cbn zeta in Hother2. rewrite (Hother2 i Hi2).
  cbn [copyJiggle j_bones fst snd]. rewrite list_lookup_alter_eq.
  rewrite Hother1.
  - rewrite Hp1, Hlen. subst st0. cbn [j_pData j_bones].
    by rewrite list_lookup_imap, Hi.
  - intros Hin. apply (Hnot1 i Hin). apply list_elem_of_here.
Qed.

(** C7.  In the converted skeleton a bone whose procedural type is neither
    0 nor jiggle (5) has procedural type 0 and procedural payload offset 0.
    A jiggle bone keeps type 5 and its payload is copied: with [k] jiggle
    bones before it, the record-size bytes of the model file behind its
    source payload offset are written [k] record sizes behind the
    4-aligned end of the bone array, as record [k] of the copies, and its
    payload offset is the distance from the converted bone to that record.
    An earlier jiggle bone has a smaller [k], so no two bones share a
    record, and there is one record per jiggle bone.  The procedural type
    is an unsigned field.  Both converters are instances of
    [ConvertBones]. *)
Theorem procedural_bone_demotion (i : nat) (oldBone : mstudiobone_v191) :
  oldBones !! i = Some oldBone ->
  0 <= proctype oldBone ->
  (proctype oldBone <> 0 -> proctype oldBone <> STUDIO_PROC_JIGGLE ->
   exists newBone,
     bones out !! i = Some newBone
     /\ n_proctype newBone = 0 /\ n_procindex newBone = 0)
  /\ (proctype oldBone = STUDIO_PROC_JIGGLE ->
      let k := jiggleRank oldBones i in
      let jBone :=
        ALIGN4 (pData0 + Z.of_nat (length oldBones) * sizeof_mstudiobone)
        + Z.of_nat k * sizeof_mstudiojigglebone in
      exists newBone bytes,
        bones out !! i = Some newBone
        /\ n_proctype newBone = STUDIO_PROC_JIGGLE
        /\ n_procindex newBone
           = s32 (jBone
                  - (boneindex out + Z.of_nat i * sizeof_mstudiobone))
        /\ jiggleBones out !! k = Some (jBone, bytes)
        /\ (jBone, oldJBone oldBone) ∈ jiggleBones out
        /\ length bytes = Z.to_nat sizeof_mstudiojigglebone
        /\ (forall n, (n < Z.to_nat sizeof_mstudiojigglebone)%nat ->
              bytes !! n
              = Some (BoneState.byte_at pMDL
                        (dataAddr oldBone + FIX_OFFSET (procindex oldBone)
                         + Z.of_nat n)))
        /\ (forall i0 old0,
              (i0 < i)%nat -> oldBones !! i0 = Some old0 ->
              proctype old0 = STUDIO_PROC_JIGGLE ->
              (jiggleRank oldBones i0 < k)%nat)
        /\ length (jiggleBones out) = length (proceduralBones oldBones)).
Proof.
  intros Hi Hunsigned.
  destruct (ConvertBones_bone i oldBone Hi) as [Hplain _].
  split.
  - intros Hnz Hnj. eexists. split; [by apply Hplain|].
    cbn. destruct (Z.eqb_spec (proctype oldBone) STUDIO_PROC_JIGGLE); [done|].
    destruct (Z.ltb_spec 0 (proctype oldBone)); [done|lia].
  - intros Hj k jBone.
    destruct ConvertBones_shape as (Hidx & _ & _).
    destruct (oldJBone_bytes oldBone) as [Hlen Hbytes].
    assert (Hk : jiggleBones out !! k = Some (jBone, oldJBone oldBone)).
    { rewrite ConvertBones_jiggleBones, list_lookup_imap.
      unfold k. by rewrite (proceduralBones_lookup oldBones i oldBone Hi Hj). }
    eexists _, (oldJBone oldBone).
    split; [exact (ConvertBones_jiggle_procindex i oldBone Hi Hj)|].
    split; [cbn; by rewrite Hj|].
    split; [cbn [n_procindex set_procindex]; by rewrite Hidx|].
    split; [exact Hk|].
    split; [by apply list_elem_of_lookup_2 in Hk|].
    split; [exact Hlen|]. split; [exact Hbytes|].
    split; [intros i0 old0; apply jiggleRank_lt|].
    by rewrite ConvertBones_jiggleBones, length_imap.
Qed.

(** The collision index of a converted bone: the sentinel 0xFF becomes -1,
    any other value is copied. *)
Lemma ConvertBones_collisionIndex i oldBone :
  oldBones !! i = Some oldBone ->
  exists newBone,
    bones out !! i = Some newBone
    /\ n_collisionIndex newBone
       = if collisionIndex oldBone =? 0xFF then -1
         else collisionIndex oldBone.
Proof.
  intros Hi. destruct (ConvertBones_bone i oldBone Hi) as [Hplain Hjig].
  destruct (Z.eq_dec (proctype oldBone) STUDIO_PROC_JIGGLE) as [Hj|Hnj].
  - destruct (Hjig Hj) as (jBone & _ & Hb). eexists. split; [exact Hb|done].
  - eexists. split; [by apply Hplain|done].
Qed.

End Converted.

End ConvertBones.

(** *** A skeleton of three bones *)

Definition sampleBone (pt pi ci addr : Z) : mstudiobone_v191 :=
  {| pszName := "bone"; surfaceprop := ""; contents := 0;
     surfacepropLookup := 0; physicsbone := 0; dataAddr := addr;
     parent := -1; flags := 0x40400;
     proctype := pt; procindex := pi; collisionIndex := ci |}.

(** A plain bone without collision index, a jiggle bone, and a
    quaternion-interpolation bone (type 2). *)
Definition sampleBones : list mstudiobone_v191 :=
  [sampleBone 0 0 0xFF 0; sampleBone 5 16 0 8; sampleBone 2 40 3 16].

(** Sample values for what the missing header fixes: a 64-byte file holding
    the bytes 0..63, records of 180 and 8 bytes, offsets taken as they are,
    the [bone] field in the first byte of a jiggle record. *)
Definition sampleConvertBones :=
  ConvertBones_191 (map Z.of_nat (seq 0 64)) 180 8 (fun o => o)
    (fun bytes => default 0 (bytes !! 0%nat)) sampleBones (Some 3) [] 1000.

Example sampleBones_converted :
  map (fun b => (n_proctype b, n_procindex b, n_collisionIndex b, n_flags b))
    (bones sampleConvertBones)
  = [(0, 0, -1, 0x400); (5, 360, 0, 0x400); (0, 0, 3, 0x400)]
  /\ jiggleBones sampleConvertBones = [(1540, [24; 25; 26; 27; 28; 29; 30; 31])]
  /\ pData sampleConvertBones = 1552.
Proof. vm_compute. done. Qed.

Lemma procedural_bone_demotion_witness :
  (sampleBones !! 2%nat = Some (sampleBone 2 40 3 16)
   /\ 0 <= proctype (sampleBone 2 40 3 16)
   /\ exists newBone,
        bones sampleConvertBones !! 2%nat = Some newBone
        /\ n_proctype newBone = 0 /\ n_procindex newBone = 0)
  /\ (sampleBones !! 1%nat = Some (sampleBone 5 16 0 8)
      /\ 0 <= proctype (sampleBone 5 16 0 8)
      /\ exists newBone,
           bones sampleConvertBones !! 1%nat = Some newBone
           /\ n_proctype newBone = 5
           /\ n_procindex newBone = 360
           /\ jiggleBones sampleConvertBones !! 0%nat
              = Some (1540, [24; 25; 26; 27; 28; 29; 30; 31])).
Proof.
  split.
  - split; [reflexivity|]. split; [cbn; lia|].
    destruct (procedural_bone_demotion (map Z.of_nat (seq 0 64)) 180 8
                (fun o => o) (fun bytes => default 0 (bytes !! 0%nat))
                (FromLinearBone, fun _ => IdentityTransform)
                sampleBones (Some 3) [] 1000 2%nat (sampleBone 2 40 3 16)
                eq_refl ltac:(cbn; lia)) as [Hdemoted _].
    apply Hdemoted; unfold STUDIO_PROC_JIGGLE; cbn; lia.
  - split; [reflexivity|]. split; [cbn; lia|].
    destruct (procedural_bone_demotion (map Z.of_nat (seq 0 64)) 180 8
                (fun o => o) (fun bytes => default 0 (bytes !! 0%nat))
                (FromLinearBone, fun _ => IdentityTransform)
                sampleBones (Some 3) [] 1000 1%nat (sampleBone 5 16 0 8)
                eq_refl ltac:(cbn; lia)) as [_ Hjiggle].
    destruct (Hjiggle eq_refl)
      as (newBone & bytes & Hb & Htype & Hidx & Hk & _).
    exists newBone. split; [exact Hb|]. split; [exact Htype|].
    split; [exact Hidx|].
    vm_compute. reflexivity.
Defined.

End Bones.

(* ------------------------------------------------------------------ *)
(** ** Sequences and animation descriptors ([ConvertSequences_191],
       [rmdl_191.cpp], lines 1206-1638; [ConvertSequences_160], v16 file,
       lines 1183-1719; [ConvertAnims_140], [rmdl_140.cpp], lines 345-398) *)

Module Sequences.
Import Arena.

(** [30.0f]: sign 0, exponent 131, fraction 0.875. *)
Definition float_30 : Z := 0x41F00000.

(** The source records, as far as the converter reads them.  Strings stand
    for what the string accessors return.  Fields that are copied as they
    are and feed nothing else (bounding box, blend parameters, fade times,
    the numeric fields of an IK rule, an autolayer or an event) are left
    out. *)
Record mstudioikrule_v191 := {
  ik_szattachmentindex : Z;
  ik_attachName : string
}.

Record mstudioanimdesc_v191 := {
  a_sznameindex : Z;
  a_pszName : string;
  a_fps : Z;
  a_flags : Z;
  a_numframes : Z;
  a_numikrules : Z;
  a_ikruleindex : Z;
  a_ikrules : list mstudioikrule_v191;
  a_sectionindex : Z;
  a_sectionframes : Z;
  a_sectionstallframes : Z;
  a_animDataAsset : Z
}.

Record mstudioevent_v191 := {
  ev_optionsindex : Z;
  ev_szeventindex : Z;
  ev_eventName : string
}.

(** A source sequence.  [v19AnimIndices k] is entry [k] of the 16-bit
    animation-index array and [animDescAt o] the descriptor at byte offset
    [o] from the sequence. *)
Record mstudioseqdesc_v191 := {
  pszLabel : string;
  szactivitynameindex : Z;
  pszActivity : string;
  flags : Z;
  activity : Z;
  actweight : Z;
  numblends : Z;
  groupsize0 : Z;
  groupsize1 : Z;
  paramindex0 : Z;
  paramindex1 : Z;
  localentrynode : Z;
  localexitnode : Z;
  numikrules : Z;
  numautolayers : Z;
  numiklocks : Z;
  numactivitymodifiers : Z;
  ikResetMask : Z;
  cycleposeindex : Z;
  animindexindex : Z;
  v19AnimIndices : nat -> Z;
  animDescAt : Z -> mstudioanimdesc_v191;
  autolayerindex : Z;
  numevents : Z;
  eventindex : Z;
  events : list mstudioevent_v191;
  weightlistindex : Z;
  posekeyindex : Z
}.

(** A converted animation descriptor: its offset in the arena, the name
    interned for it, its scalar fields, and the bone-flag array written at
    [animindex]. *)
Record mstudioanimdesc_v8 := {
  n_offset : Z;
  n_name : string;
  n_fps : Z;
  n_flags : Z;
  n_numframes : Z;
  n_nummovements : Z;
  n_ikruleindex : Z;
  n_numikrules : Z;
  n_animindex : Z;
  n_boneFlags : list Z;
  n_sectionindex : Z;
  n_sectionframes : Z
}.

(** A converted sequence: the fields of the first loop, and what the second
    loop writes for it. *)
Record mstudioseqdesc_v8 := {
  s_offset : Z;
  s_label : string;
  s_szactivityname : option string;
  s_flags : Z;
  s_activity : Z;
  s_actweight : Z;
  s_numblends : Z;
  s_groupsize0 : Z;
  s_groupsize1 : Z;
  s_paramindex0 : Z;
  s_paramindex1 : Z;
  s_localentrynode : Z;
  s_localexitnode : Z;
  s_numikrules : Z;
  s_numautolayers : Z;
  s_numiklocks : Z;
  s_numactivitymodifiers : Z;
  s_ikResetMask : Z;
  s_cycleposeindex : Z;
  s_animindexindex : Z;
  s_animIndices : list Z;
  s_anims : list mstudioanimdesc_v8;
  s_autolayerindex : Z;
  s_numevents : Z;
  s_eventindex : Z;
  s_weightlistindex : Z;
  s_posekeyindex : Z
}.

(** The cursor and the string table. *)
Record arena := {
  pData : Z;
  strings : list stringentry
}.

Definition AddToStringTable (base : Z) (field txt : string) (g : arena)
    : arena :=
  {| pData := pData g;
     strings :=
       strings g ++ [{| owner := base; slot := field; text := txt |}] |}.

Definition move (f : Z -> Z) (g : arena) : arena :=
  {| pData := f (pData g); strings := strings g |}.

(** [((4 * numBones + 7) / 8 + 1) & 0xFFFFFFFE] *)
Definition flagSize (numBones : Z) : Z :=
  s32 (Z.land (u32 (Z.quot (4 * numBones + 7) 8 + 1)) 0xFFFFFFFE).

(** [numAnims]: the product of the grid sizes, at least one. *)
Definition numAnims (oldSeq : mstudioseqdesc_v191) : Z :=
  let n := s32 (groupsize0 oldSeq * groupsize1 oldSeq) in
  if n <=? 0 then 1 else n.

(** The descriptor of cell [animIdx], if the source has one. *)
Definition oldAnimDesc (FIX_OFFSET : Z -> Z) (oldSeq : mstudioseqdesc_v191)
    (animIdx : nat) : option mstudioanimdesc_v191 :=
  if (0 <? animindexindex oldSeq) && (0 <? v19AnimIndices oldSeq animIdx)
  then Some (animDescAt oldSeq (FIX_OFFSET (v19AnimIndices oldSeq animIdx)))
  else None.

Section ConvertSequences.

(** What the missing header fixes: the flag [STUDIO_ALLZEROS], the offset
    macro and the sizes of the target records. *)
Variable STUDIO_ALLZEROS : Z.
Variable FIX_OFFSET : Z -> Z.
Variable sizeof_mstudioseqdesc : Z.
Variable sizeof_mstudioanimdesc : Z.
Variable sizeof_mstudioikrule : Z.
Variable sizeof_mstudioanimsections : Z.
Variable sizeof_mstudioautolayer : Z.
Variable sizeof_mstudioevent : Z.

(** [g_model.hdrV54()->numbones] *)
Variable numBones : Z.

(** The bone-flag array of a placeholder: [flagSize] zero bytes. *)
Definition zeroBoneFlags : list Z :=
  if 0 <? numBones then replicate (Z.to_nat (flagSize numBones)) 0 else [].

Definition writeBoneFlags (g : arena) : arena :=
  if 0 <? numBones then move (fun p => p + flagSize numBones) g else g.

Definition copyIkRule (g : arena) (oldIK : mstudioikrule_v191) : arena :=
  let newIK := pData g in
  let g :=
    if 0 <? ik_szattachmentindex oldIK
    then AddToStringTable newIK "szattachmentindex" (ik_attachName oldIK) g
    else g in
  move (fun p => p + sizeof_mstudioikrule) g.

(** The loop body for one cell of the blend grid: the descriptor written
    and the arena after it. *)
Definition convertAnim (oldSeq : mstudioseqdesc_v191) (newSeq : Z)
    (g : arena) (animIdx : nat) : mstudioanimdesc_v8 * arena :=
  let g := move ALIGN4 g in
  let newAnim := pData g in
  let g := move (fun p => p + sizeof_mstudioanimdesc) g in
  match oldAnimDesc FIX_OFFSET oldSeq animIdx with
  | Some old =>
      let name :=
        if 0 <? a_sznameindex old then a_pszName old else pszLabel oldSeq in
      let g := AddToStringTable newAnim "sznameindex" name g in
      let hasIk := (0 <? a_numikrules old) && (0 <? a_ikruleindex old) in
      let g := if hasIk then move ALIGN4 g else g in
      let ikruleindex := if hasIk then s32 (pData g - newAnim) else 0 in
      let g :=
        if hasIk
        then fold_left copyIkRule
               (take (Z.to_nat (a_numikrules old)) (a_ikrules old)) g
        else g in
      let g := move ALIGN4 g in
      let animindex := s32 (pData g - newAnim) in
      let g := writeBoneFlags g in
      let hasSections := 0 <? a_sectionindex old in
      let g := if hasSections then move ALIGN2 g else g in
      let sectionindex := if hasSections then s32 (pData g - newAnim) else 0 in
      let numSections :=
        if 0 <? a_sectionframes old
        then s32 (Z.quot (a_numframes old - a_sectionstallframes old - 1)
                    (a_sectionframes old) + 2)
        else 1 in
      let g :=
        if hasSections
        then move (fun p => p + Z.max 0 numSections
                              * sizeof_mstudioanimsections) g
        else g in
      ({| n_offset := newAnim; n_name := name;
          n_fps := a_fps old; n_flags := a_flags old;
          n_numframes := a_numframes old; n_nummovements := 0;
          n_ikruleindex := ikruleindex;
          n_numikrules := if hasIk then a_numikrules old else 0;
          n_animindex := animindex; n_boneFlags := zeroBoneFlags;
          n_sectionindex := sectionindex;
          n_sectionframes := if hasSections then a_sectionframes old else 0 |},
       move ALIGN2 g)
  | None =>
      let g := AddToStringTable newAnim "sznameindex" (pszLabel oldSeq) g in
      let g := move ALIGN4 g in
      let animindex := s32 (pData g - newAnim) in
      let g := writeBoneFlags g in
      ({| n_offset := newAnim; n_name := pszLabel oldSeq;
          n_fps := float_30; n_flags := STUDIO_ALLZEROS;
          n_numframes := 1; n_nummovements := 0;
          n_ikruleindex := 0; n_numikrules := 0;
          n_animindex := animindex; n_boneFlags := zeroBoneFlags;
          n_sectionindex := 0; n_sectionframes := 0 |},
       move ALIGN2 g)
  end.

(** The loop over the cells: descriptors in cell order. *)
Definition convertAnims (oldSeq : mstudioseqdesc_v191) (newSeq : Z)
    (g : arena) : list mstudioanimdesc_v8 * arena :=
  fold_left
    (fun acc animIdx =>
       let '(d, g) := convertAnim oldSeq newSeq acc.2 animIdx in
       (acc.1 ++ [d], g))
    (seq 0 (Z.to_nat (numAnims oldSeq))) ([], g).

Definition copyEvent (g : arena) (oldEvent : mstudioevent_v191) : arena :=
  let newEvent := pData g in
  let g :=
    if 0 <? ev_szeventindex oldEvent
    then AddToStringTable newEvent "szeventindex" (ev_eventName oldEvent) g
    else g in
  move (fun p => p + sizeof_mstudioevent) g.

(** The first loop for one sequence, at arena offset [newSeq]: the scalar
    fields and the interned names. *)
Definition internSeqNames (newSeq : Z) (oldSeq : mstudioseqdesc_v191)
    (g : arena) : arena :=
  let g := AddToStringTable newSeq "szlabelindex" (pszLabel oldSeq) g in
  if 0 <? szactivitynameindex oldSeq
  then AddToStringTable newSeq "szactivitynameindex" (pszActivity oldSeq) g
  else g.

(** [(oldSeq->activity == 65535) ? -1 : static_cast<int>(oldSeq->activity)] *)
Definition convertActivity (oldSeq : mstudioseqdesc_v191) : Z :=
  if activity oldSeq =? 65535 then -1 else activity oldSeq.

(** The second loop for one sequence: animation-index array, descriptors,
    autolayers, events, weight list and pose keys, and the finished
    sequence record. *)
Definition convertSeq (newSeq : Z) (oldSeq : mstudioseqdesc_v191)
    (g : arena) : mstudioseqdesc_v8 * arena :=
  let g := move ALIGN4 g in
  let animindexindex := s32 (pData g - newSeq) in
  let g := move (fun p => p + numAnims oldSeq * 4) g in
  let '(anims, g) := convertAnims oldSeq newSeq g in
  let hasLayers :=
    (0 <? numautolayers oldSeq) && (0 <? autolayerindex oldSeq) in
  let g := if hasLayers then move ALIGN4 g else g in
  let autolayerindex := if hasLayers then s32 (pData g - newSeq) else 0 in
  let g :=
    if hasLayers
    then move (fun p => p + numautolayers oldSeq * sizeof_mstudioautolayer) g
    else g in
  let hasEvents := (0 <? numevents oldSeq) && (0 <? eventindex oldSeq) in
  let g := if hasEvents then move ALIGN4 g else g in
  let eventindex := if hasEvents then s32 (pData g - newSeq) else 0 in
  let g :=
    if hasEvents
    then fold_left copyEvent
           (take (Z.to_nat (numevents oldSeq)) (events oldSeq)) g
    else g in
  let hasWeights := 0 <? weightlistindex oldSeq in
  let g := if hasWeights then move ALIGN4 g else g in
  let weightlistindex := if hasWeights then s32 (pData g - newSeq) else 0 in
  let g := if hasWeights then move (fun p => p + numBones * 4) g else g in
  let hasPoseKeys := 0 <? posekeyindex oldSeq in
  let g := if hasPoseKeys then move ALIGN4 g else g in
  let posekeyindex := if hasPoseKeys then s32 (pData g - newSeq) else 0 in
  let g :=
    if hasPoseKeys
    then move (fun p => p + u64 (s32 (groupsize0 oldSeq + groupsize1 oldSeq)
                                 * 4)) g
    else g in
  ({| s_offset := newSeq;
      s_label := pszLabel oldSeq;
      s_szactivityname :=
        if 0 <? szactivitynameindex oldSeq then Some (pszActivity oldSeq)
        else None;
      s_flags := flags oldSeq;
      s_activity := convertActivity oldSeq;
      s_actweight := actweight oldSeq;
      s_numblends := numblends oldSeq;
      s_groupsize0 := groupsize0 oldSeq;
      s_groupsize1 := groupsize1 oldSeq;
      s_paramindex0 := paramindex0 oldSeq;
      s_paramindex1 := paramindex1 oldSeq;
      s_localentrynode := localentrynode oldSeq;
      s_localexitnode := localexitnode oldSeq;
      s_numikrules := numikrules oldSeq;
      s_numautolayers := numautolayers oldSeq;
      s_numiklocks := numiklocks oldSeq;
      s_numactivitymodifiers := numactivitymodifiers oldSeq;
      s_ikResetMask := ikResetMask oldSeq;
      s_cycleposeindex := cycleposeindex oldSeq;
      s_animindexindex := animindexindex;
      s_animIndices := map (fun d => s32 (n_offset d - newSeq)) anims;
      s_anims := anims;
      s_autolayerindex := autolayerindex;
      s_numevents := if hasEvents then numevents oldSeq else 0;
      s_eventindex := eventindex;
      s_weightlistindex := weightlistindex;
      s_posekeyindex := posekeyindex |},
   g).

(** [ConvertSequences_191] from the arena [g0] on: the header fields
    [localseqindex] and [numlocalseq], the converted sequences and the
    arena after them. *)
Definition ConvertSequences_191 (oldSeqs : list mstudioseqdesc_v191)
    (g0 : arena) : Z * Z * list mstudioseqdesc_v8 * arena :=
  let localseqindex := s32 (pData g0) in
  let numSeqs := Z.of_nat (length oldSeqs) in
  match oldSeqs with
  | [] => (localseqindex, numSeqs, [], g0)
  | _ =>
      let newSeqBase := pData g0 in
      let newSeq i := newSeqBase + Z.of_nat i * sizeof_mstudioseqdesc in
      let g :=
        fold_left (fun g p => internSeqNames (newSeq p.1) p.2 g)
          (imap pair oldSeqs) g0 in
      let g := move (fun p => p + numSeqs * sizeof_mstudioseqdesc) g in
      let '(newSeqs, g) :=
        fold_left
          (fun acc p =>
             let '(s, g) := convertSeq (newSeq p.1) p.2 acc.2 in
             (acc.1 ++ [s], g))
          (imap pair oldSeqs) ([], g) in
      (localseqindex, numSeqs, newSeqs, move ALIGN4 g)
  end.

(** *** What the loops emit *)

(** A loop that appends one record per element and threads a state: the
    record of element [i] is the one its body returns from some state. *)
Lemma fold_emit_lookup {A B St : Type} (f : St -> A -> B * St)
    (l : list A) :
  forall (acc0 : list B) (s0 : St),
  let r :=
    fold_left
      (fun acc a => let '(b, s) := f acc.2 a in (acc.1 ++ [b], s))
      l (acc0, s0) in
  length r.1 = (length acc0 + length l)%nat
  /\ (forall i b, acc0 !! i = Some b -> r.1 !! i = Some b)
  /\ (forall i a, l !! i = Some a ->
        exists s, r.1 !! (length acc0 + i)%nat = Some (f s a).1).
Proof.
  induction l as [|a l IH]; intros acc0 s0; cbn [fold_left].
  - cbn. split; [lia|]. split; [done|]. intros i x Hi. by destruct i.
  - cbn [fst snd]. destruct (f s0 a) as [b s1] eqn:Hf.
    destruct (IH (acc0 ++ [b]) s1) as (Hlen & Hkeep & Hnew).
    rewrite length_app in Hlen, Hnew. cbn [length] in Hlen, Hnew.
    split; [cbn [length]; lia|]. split.
    + intros i x Hi. apply Hkeep. by apply lookup_app_l_Some.
    + intros [|i] x Hi.
      * cbn in Hi. injection Hi as ->. exists s0. rewrite Hf. cbn [fst].
        apply Hkeep. rewrite Nat.add_0_r. apply list_lookup_middle. done.
      * cbn in Hi. destruct (Hnew i x Hi) as (s & Hs). exists s.
        replace (length acc0 + S i)%nat with (length acc0 + 1 + i)%nat by lia.
        exact Hs.
Qed.

Lemma numAnims_pos oldSeq : 1 <= numAnims oldSeq.
Proof.
  unfold numAnims.
  destruct (Z.leb_spec (s32 (groupsize0 oldSeq * groupsize1 oldSeq)) 0); lia.
Qed.

(** With at least one cell (and fewer than 2^31) the count is the number of
    cells. *)
Lemma numAnims_cells oldSeq :
  0 < groupsize0 oldSeq * groupsize1 oldSeq < 2 ^ 31 ->
  numAnims oldSeq = groupsize0 oldSeq * groupsize1 oldSeq.
Proof.
  intros Hr. unfold numAnims. rewrite s32_small by lia.
  destruct (Z.leb_spec (groupsize0 oldSeq * groupsize1 oldSeq) 0); lia.
Qed.

Lemma convertAnims_spec oldSeq newSeq g :
  Z.of_nat (length (convertAnims oldSeq newSeq g).1) = numAnims oldSeq
  /\ (forall k, Z.of_nat k < numAnims oldSeq ->
        exists g', (convertAnims oldSeq newSeq g).1 !! k
                   = Some (convertAnim oldSeq newSeq g' k).1).
Proof.
  unfold convertAnims.
  destruct (fold_emit_lookup (convertAnim oldSeq newSeq)
              (seq 0 (Z.to_nat (numAnims oldSeq))) [] g)
    as (Hlen & _ & Hnew).
  pose proof (numAnims_pos oldSeq).
  split.
  - rewrite Hlen, length_seq. cbn. lia.
  - intros k Hk. apply (Hnew k k). apply lookup_seq. split; [done|lia].
Qed.

Lemma convertSeq_anims newSeq oldSeq g :
  s_anims (convertSeq newSeq oldSeq g).1
  = (convertAnims oldSeq newSeq
       (move (fun p => p + numAnims oldSeq * 4) (move ALIGN4 g))).1
  /\ s_animIndices (convertSeq newSeq oldSeq g).1
     = map (fun d => s32 (n_offset d - newSeq))
         (s_anims (convertSeq newSeq oldSeq g).1)
  /\ s_activity (convertSeq newSeq oldSeq g).1 = convertActivity oldSeq.
Proof.
  unfold convertSeq. by destruct (convertAnims _ _ _) as [anims g'].
Qed.

(** Sequence [i] of the output is the conversion of sequence [i] of the
    input, and there are as many of them. *)
Lemma ConvertSequences_191_lookup oldSeqs g0 i oldSeq :
  oldSeqs !! i = Some oldSeq ->
  exists g,
    (ConvertSequences_191 oldSeqs g0).1.2 !! i
    = Some (convertSeq
              (pData g0 + Z.of_nat i * sizeof_mstudioseqdesc) oldSeq g).1.
Proof.
  intros Hi. unfold ConvertSequences_191.
  destruct oldSeqs as [|s0 rest] eqn:Hs; [done|]. rewrite <- Hs in *.
  match goal with
  | |- context [fold_left ?body (imap pair oldSeqs) ([], ?g1)] =>
      destruct (fold_emit_lookup
                  (fun g p =>
                     convertSeq
                       (pData g0 + Z.of_nat p.1 * sizeof_mstudioseqdesc)
                       p.2 g)
                  (imap pair oldSeqs) [] g1) as (_ & _ & Hnew)
  end.
  destruct (Hnew i (i, oldSeq)) as (g & Hg).
  { by rewrite list_lookup_imap, Hi. }
  cbn [length Nat.add fst snd] in Hg.
  destruct (fold_left _ (imap pair oldSeqs) _) as [newSeqs g'].
  exists g. exact Hg.
Qed.


Lemma zeroBoneFlags_zero : Forall (fun b => b = 0) zeroBoneFlags.
Proof.
  unfold zeroBoneFlags. destruct (0 <? numBones); [|constructor].
  by apply Forall_replicate.
Qed.

(** The activity of a converted sequence: the sentinel 65535 becomes -1,
    any other value is copied. *)
Lemma ConvertSequences_191_activity oldSeqs g0 i oldSeq :
  oldSeqs !! i = Some oldSeq ->
  exists newSeq,
    (ConvertSequences_191 oldSeqs g0).1.2 !! i = Some newSeq
    /\ s_activity newSeq
       = if activity oldSeq =? 65535 then -1 else activity oldSeq.
Proof.
  intros Hi.
  destruct (ConvertSequences_191_lookup oldSeqs g0 i oldSeq Hi) as (g & Hg).
  eexists. split; [exact Hg|].
  by destruct (convertSeq_anims
                 (pData g0 + Z.of_nat i * sizeof_mstudioseqdesc) oldSeq g)
    as (_ & _ & ->).
Qed.

(** C2 (as amended).  The v19.1 sequence converter emits for every sequence
    as many animation descriptors as animation-index entries, namely
    [numAnims]: the number of blend-grid cells [groupsize[0] *
    groupsize[1]] when that is positive, and one when the grid has no cell.
    A grid of 2 by 1 gives exactly 2 descriptors and 2 index entries. *)
Theorem anim_descriptors_per_sequence
    (oldSeqs : list mstudioseqdesc_v191) (g0 : arena) (i : nat)
    (oldSeq : mstudioseqdesc_v191) :
  oldSeqs !! i = Some oldSeq ->
  exists newSeq,
    (ConvertSequences_191 oldSeqs g0).1.2 !! i = Some newSeq
    /\ Z.of_nat (length (s_anims newSeq)) = numAnims oldSeq
    /\ Z.of_nat (length (s_animIndices newSeq)) = numAnims oldSeq
    /\ (0 < groupsize0 oldSeq * groupsize1 oldSeq < 2 ^ 31 ->
        numAnims oldSeq = groupsize0 oldSeq * groupsize1 oldSeq)
    /\ (- 2 ^ 31 <= groupsize0 oldSeq * groupsize1 oldSeq <= 0 ->
        numAnims oldSeq = 1)
    /\ (groupsize0 oldSeq = 2 -> groupsize1 oldSeq = 1 ->
        length (s_anims newSeq) = 2%nat
        /\ length (s_animIndices newSeq) = 2%nat).
Proof.
  intros Hi.
  destruct (ConvertSequences_191_lookup oldSeqs g0 i oldSeq Hi) as (g & Hg).
  eexists. split; [exact Hg|].
  destruct (convertSeq_anims
              (pData g0 + Z.of_nat i * sizeof_mstudioseqdesc) oldSeq g)
    as (Hanims & Hidx & _).
  rewrite Hidx, length_map, Hanims.
  destruct (convertAnims_spec oldSeq
              (pData g0 + Z.of_nat i * sizeof_mstudioseqdesc)
              (move (fun p => p + numAnims oldSeq * 4) (move ALIGN4 g)))
    as (Hlen & _).
  split; [exact Hlen|]. split; [exact Hlen|].
  split; [apply numAnims_cells|]. split.
  - intros Hr. unfold numAnims. rewrite s32_small by lia.
    destruct (Z.leb_spec (groupsize0 oldSeq * groupsize1 oldSeq) 0); lia.
  - intros H0 H1.
    assert (numAnims oldSeq = 2)
      by (rewrite numAnims_cells; rewrite H0, H1; lia).
    lia.
Qed.

(** A cell whose descriptor is found keeps the descriptor's frame rate,
    flags and frame count, whether or not the descriptor names an external
    animation asset; its bone-flag array is all zero as well. *)
Lemma located_descriptor_copied oldSeq newSeq g k old :
  oldAnimDesc FIX_OFFSET oldSeq k = Some old ->
  let d := (convertAnim oldSeq newSeq g k).1 in
  n_fps d = a_fps old /\ n_flags d = a_flags old
  /\ n_numframes d = a_numframes old /\ n_nummovements d = 0
  /\ Forall (fun b => b = 0) (n_boneFlags d).
Proof.
  intros Hold. unfold convertAnim. rewrite Hold. cbn.
  repeat split. apply zeroBoneFlags_zero.
Qed.










End ConvertSequences.

(** *** Sample sequences *)

(** A source descriptor of 12 frames at 20 fps ([0x41A00000]) that names an
    external animation asset. *)
Definition sampleAnim : mstudioanimdesc_v191 :=
  {| a_sznameindex := 0; a_pszName := ""; a_fps := 0x41A00000; a_flags := 0;
     a_numframes := 12; a_numikrules := 0; a_ikruleindex := 0;
     a_ikrules := []; a_sectionindex := 0; a_sectionframes := 0;
     a_sectionstallframes := 0; a_animDataAsset := 77 |}.

(** A sequence "ref" without activity, with a grid of [g0] by [g1] cells,
    the animation-index array [indices] at offset [aidx]. *)
Definition sampleSeq (g0 g1 aidx : Z) (indices : list Z)
    : mstudioseqdesc_v191 :=
  {| pszLabel := "ref"; szactivitynameindex := 0; pszActivity := "";
     flags := 0x80000; activity := 65535; actweight := 1; numblends := 0;
     groupsize0 := g0; groupsize1 := g1; paramindex0 := 0; paramindex1 := 0;
     localentrynode := 0; localexitnode := 0; numikrules := 0;
     numautolayers := 0; numiklocks := 0; numactivitymodifiers := 0;
     ikResetMask := 0; cycleposeindex := 0; animindexindex := aidx;
     v19AnimIndices := fun k => default 0 (indices !! k);
     animDescAt := fun _ => sampleAnim;
     autolayerindex := 0; numevents := 0; eventindex := 0; events := [];
     weightlistindex := 0; posekeyindex := 0 |}.

(** Sample values for what the missing header fixes: the flag 0x20, offsets
    taken as they are, records of 232, 52, 140, 4, 24 and 80 bytes; a model
    of three bones. *)
Definition sampleConvertSequences :=
  ConvertSequences_191 0x20 (fun o => o) 232 52 140 4 24 80 3.

Definition sampleArena : arena := {| pData := 1000; strings := [] |}.

(** Three sequences: a 2 by 1 grid without index array, an empty grid, and
    a 2 by 1 grid whose first cell has a descriptor. *)
Definition sampleSeqs : list mstudioseqdesc_v191 :=
  [sampleSeq 2 1 0 []; sampleSeq 0 0 0 []; sampleSeq 2 1 64 [96; 0]].

Example sampleSeqs_converted :
  map (fun s =>
         (s_activity s, s_animindexindex s, s_animIndices s,
          map (fun d => (n_fps d, n_flags d, n_numframes d)) (s_anims s)))
    (sampleConvertSequences sampleSeqs sampleArena).1.2
  = [(-1, 696, [704; 760], [(float_30, 0x20, 1); (float_30, 0x20, 1)]);
     (-1, 584, [588], [(float_30, 0x20, 1)]);
     (-1, 412, [420; 476], [(0x41A00000, 0, 12); (float_30, 0x20, 1)])].
Proof. vm_compute. reflexivity. Qed.

Lemma anim_descriptors_per_sequence_witness :
  sampleSeqs !! 0%nat = Some (sampleSeq 2 1 0 [])
  /\ exists newSeq,
       (sampleConvertSequences sampleSeqs sampleArena).1.2 !! 0%nat
       = Some newSeq
       /\ length (s_anims newSeq) = 2%nat
       /\ length (s_animIndices newSeq) = 2%nat.
Proof.
  split; [reflexivity|].
  destruct (anim_descriptors_per_sequence 0x20 (fun o => o) 232 52 140 4 24
              80 3 sampleSeqs sampleArena 0%nat (sampleSeq 2 1 0 []) eq_refl)
    as (newSeq & Hseq & _ & _ & _ & _ & Hgrid).
  exists newSeq. split; [exact Hseq|]. by apply Hgrid.
Defined.



(** C2, the claim as stated fails: a sequence whose grid is 0 by 0 has no
    blend-grid cell, and the converter emits one descriptor and one index
    entry for it. *)
Lemma descriptor_for_empty_grid_counterexample :
  let emptyGrid := sampleSeq 0 0 0 [] in
  let cells := groupsize0 emptyGrid * groupsize1 emptyGrid in
  let newSeqs :=
    (sampleConvertSequences [sampleSeq 0 0 0 []] sampleArena).1.2 in
  cells = 0
  /\ map (fun s => (length (s_anims s), length (s_animIndices s))) newSeqs
     = [(1%nat, 1%nat)]
  /\ map (fun s => Z.of_nat (length (s_anims s))) newSeqs <> [cells].
Proof. vm_compute. repeat split; discriminate. Qed.

(** *** The v14 path *)

(** [ConvertAnims_140] counts with the sum of the grid sizes: the number of
    descriptors [CopyAnimDesc_140] writes for a sequence, none when the sum
    is 0. *)
Definition numAnims_140 (groupsize0 groupsize1 : Z) : Z :=
  let numAnims := s32 (groupsize0 + groupsize1) in
  if numAnims =? 0 then 0 else Z.max 0 numAnims.

Example numAnims_140_grid_2_1 : numAnims_140 2 1 = 3.
Proof. reflexivity. Qed.

End Sequences.

(* ------------------------------------------------------------------ *)
(** ** Width promotion of the sentinels ([rmdl_191.cpp], lines 750-751 and
       1252-1253; v16 file, lines 724-725 and 1235-1236) *)

Module Promotion.

(** C8.  A bone's collision index 0xFF becomes -1 in the converted bone and
    any other value is copied; a sequence's activity 65535 becomes -1 in
    the converted sequence and any other value is copied.  Neither target
    field is ever left at the unsigned maximum of the source field. *)
Theorem sentinel_promotion
    (pMDL : list Z) (sizeof_mstudiobone sizeof_mstudiojigglebone : Z)
    (FIX_OFFSET : Z -> Z) (jigglebone_bone : list Z -> Z)
    (poses : (nat -> Bones.pose) * (nat -> Bones.pose))
    (oldBones : list Bones.mstudiobone_v191) (linearNumbones : option Z)
    (strings0 : list Arena.stringentry) (pData0 : Z)
    (STUDIO_ALLZEROS sizeof_mstudioseqdesc sizeof_mstudioanimdesc
       sizeof_mstudioikrule sizeof_mstudioanimsections
       sizeof_mstudioautolayer sizeof_mstudioevent numBones : Z)
    (oldSeqs : list Sequences.mstudioseqdesc_v191) (g0 : Sequences.arena)
    (i j : nat) (oldBone : Bones.mstudiobone_v191)
    (oldSeq : Sequences.mstudioseqdesc_v191) :
  oldBones !! i = Some oldBone ->
  oldSeqs !! j = Some oldSeq ->
  (exists newBone,
     Bones.bones
       (Bones.ConvertBones pMDL sizeof_mstudiobone sizeof_mstudiojigglebone
          FIX_OFFSET jigglebone_bone poses oldBones linearNumbones strings0
          pData0) !! i = Some newBone
     /\ (Bones.collisionIndex oldBone = 0xFF ->
         Bones.n_collisionIndex newBone = -1)
     /\ (Bones.collisionIndex oldBone <> 0xFF ->
         Bones.n_collisionIndex newBone = Bones.collisionIndex oldBone)
     /\ Bones.n_collisionIndex newBone <> 0xFF)
  /\ (exists newSeq,
        (Sequences.ConvertSequences_191 STUDIO_ALLZEROS FIX_OFFSET
           sizeof_mstudioseqdesc sizeof_mstudioanimdesc sizeof_mstudioikrule
           sizeof_mstudioanimsections sizeof_mstudioautolayer
           sizeof_mstudioevent numBones oldSeqs g0).1.2 !! j = Some newSeq
        /\ (Sequences.activity oldSeq = 65535 ->
            Sequences.s_activity newSeq = -1)
        /\ (Sequences.activity oldSeq <> 65535 ->
            Sequences.s_activity newSeq = Sequences.activity oldSeq)
        /\ Sequences.s_activity newSeq <> 65535).
Proof.
  intros Hbone Hseq. split.
  - destruct (Bones.ConvertBones_collisionIndex pMDL sizeof_mstudiobone
                sizeof_mstudiojigglebone FIX_OFFSET jigglebone_bone poses
                oldBones linearNumbones strings0 pData0 i oldBone Hbone)
      as (newBone & Hnew & Hci).
    exists newBone. split; [exact Hnew|]. rewrite Hci.
    destruct (Z.eqb_spec (Bones.collisionIndex oldBone) 0xFF);
      repeat split; intros; lia.
  - destruct (Sequences.ConvertSequences_191_activity STUDIO_ALLZEROS
                FIX_OFFSET sizeof_mstudioseqdesc sizeof_mstudioanimdesc
                sizeof_mstudioikrule sizeof_mstudioanimsections
                sizeof_mstudioautolayer sizeof_mstudioevent numBones
                oldSeqs g0 j oldSeq Hseq)
      as (newSeq & Hnew & Hact).
    exists newSeq. split; [exact Hnew|]. rewrite Hact.
    destruct (Z.eqb_spec (Sequences.activity oldSeq) 65535);
      repeat split; intros; lia.
Qed.

Lemma sentinel_promotion_witness :
  Bones.sampleBones !! 0%nat = Some (Bones.sampleBone 0 0 0xFF 0)
  /\ Sequences.sampleSeqs !! 0%nat = Some (Sequences.sampleSeq 2 1 0 [])
  /\ (exists newBone,
        Bones.bones Bones.sampleConvertBones !! 0%nat = Some newBone
        /\ Bones.n_collisionIndex newBone = -1)
  /\ (exists newSeq,
        (Sequences.sampleConvertSequences Sequences.sampleSeqs
           Sequences.sampleArena).1.2 !! 0%nat = Some newSeq
        /\ Sequences.s_activity newSeq = -1).
Proof.
  split; [reflexivity|]. split; [reflexivity|].
  destruct (sentinel_promotion (map Z.of_nat (seq 0 64)) 180 8 (fun o => o)
              (fun bytes => default 0 (bytes !! 0%nat))
              (Bones.FromLinearBone, fun _ => Bones.IdentityTransform)
              Bones.sampleBones (Some 3) [] 1000
              0x20 232 52 140 4 24 80 3
              Sequences.sampleSeqs Sequences.sampleArena 0%nat 0%nat
              (Bones.sampleBone 0 0 0xFF 0) (Sequences.sampleSeq 2 1 0 [])
              eq_refl eq_refl)
    as [(newBone & Hb & Hff & _) (newSeq & Hs & Hact & _)].
  split.
  - exists newBone. split; [exact Hb|]. by apply Hff.
  - exists newSeq. split; [exact Hs|]. by apply Hact.
Defined.

End Promotion.

(* ------------------------------------------------------------------ *)
(** ** Collision data ([ConvertCollisionData_V191], [rmdl_191.cpp],
       lines 1826-1962) *)

Module Collision.
Import Arena.

(** A v19.1 collision header.  Its declaration is not among the sources;
    the three offsets are taken as [int], as the differences the converter
    forms suggest.  Origin and scale are carried as bit patterns. *)
Record mstudiocollheader_v191 := {
  bvhFlags : Z;
  origin : list Z;
  decodeScale : Z;
  vertsOfs : Z;
  leafDataOfs : Z;
  nodesOfs : Z
}.

Record mstudiocollmodel := {
  contentMasksIndex : Z;
  surfacePropsIndex : Z;
  surfaceNamesIndex : Z;
  pOldCollHeaders : list mstudiocollheader_v191
}.

Definition headerCount (m : mstudiocollmodel) : Z :=
  Z.of_nat (length (pOldCollHeaders m)).

Definition nullHeader : mstudiocollheader_v191 :=
  {| bvhFlags := 0; origin := [0; 0; 0]; decodeScale := 0;
     vertsOfs := 0; leafDataOfs := 0; nodesOfs := 0 |}.

(** [pOldCollHeaders[i]]; the loops stay inside the array. *)
Definition headerAt (m : mstudiocollmodel) (i : nat)
    : mstudiocollheader_v191 :=
  default nullHeader (pOldCollHeaders m !! i).

(** A converted header and the three copies made for it, each with the
    source offset and the length handed to [memcpy_s]. *)
Record mstudiocollheader_v8 := {
  unk : Z;
  n_origin : list Z;
  scale : Z;
  vertIndex : Z;
  bvhLeafIndex : Z;
  bvhNodeIndex : Z
}.

Record copied := {
  vertData : Z;
  vertSize : Z;
  leafData : Z;
  leafSize : Z;
  nodeData : Z;
  nodeSize : Z
}.

Definition isLast (m : mstudiocollmodel) (i : nat) : bool :=
  Z.of_nat i =? headerCount m - 1.

(** [oldHeader->leafDataOfs - oldHeader->vertsOfs], widened to 64 bits. *)
Definition vertSizeOf (oldHeader : mstudiocollheader_v191) : Z :=
  s32 (leafDataOfs oldHeader - vertsOfs oldHeader).

Definition leafSizeOf (m : mstudiocollmodel) (i : nat) : Z :=
  let oldHeader := headerAt m i in
  if negb (isLast m i)
  then s32 (vertsOfs (headerAt m (i + 1)) - leafDataOfs oldHeader)
  else s32 (nodesOfs (headerAt m 0) - leafDataOfs oldHeader).

(** For the last header the size comes from the space left in the file,
    computed in [size_t] and stored in a signed 64-bit variable, and is
    clamped to 1 MiB. *)
Definition nodeSizeOf (fileSize collisionOffset : Z) (m : mstudiocollmodel)
    (i : nat) : Z :=
  let oldHeader := headerAt m i in
  if negb (isLast m i)
  then s32 (nodesOfs (headerAt m (i + 1)) - nodesOfs oldHeader)
  else
    let maxNodeEnd := u64 (fileSize - collisionOffset - nodesOfs oldHeader) in
    let nodeSize := s64 maxNodeEnd in
    if 1024 * 1024 <? nodeSize then 1024 * 1024 else nodeSize.

Section ConvertCollisionData.

(** Sizes of the target records ([mstudiocollmodel_t] and the 32-byte
    header) and of a surface property; the file size and the offset of the
    collision data in the file. *)
Variable sizeof_mstudiocollmodel : Z.
Variable sizeof_mstudiocollheader : Z.
Variable fileSize : Z.
Variable collisionOffset : Z.

(** First loop, header [i]: vertices and leaves, each behind a 64-byte
    boundary.  Returns the two indices with the cursor after the copies. *)
Definition copyVertsAndLeaves (m : mstudiocollmodel) (pNewCollModel : Z)
    (pData : Z) (i : nat) : Z * Z * Z :=
  let oldHeader := headerAt m i in
  let pData := ALIGN64 pData in
  let vertIndex := s32 (pData - pNewCollModel) in
  let pData := pData + vertSizeOf oldHeader in
  let pData := ALIGN64 pData in
  let bvhLeafIndex := s32 (pData - pNewCollModel) in
  let pData := pData + leafSizeOf m i in
  (vertIndex, bvhLeafIndex, pData).

(** Second loop, header [i]: nodes. *)
Definition copyNodes (m : mstudiocollmodel) (pNewCollModel : Z)
    (pData : Z) (i : nat) : Z * Z :=
  let pData := ALIGN64 pData in
  let bvhNodeIndex := s32 (pData - pNewCollModel) in
  (bvhNodeIndex, pData + nodeSizeOf fileSize collisionOffset m i).

(** [ConvertCollisionData_V191] from the cursor [pData0] on: the converted
    headers, the copies made for each, and the cursor at the end. *)
Definition ConvertCollisionData_V191 (m : mstudiocollmodel) (pData0 : Z)
    : list (mstudiocollheader_v8 * copied) * Z :=
  let pNewCollModel := pData0 in
  let indices := seq 0 (length (pOldCollHeaders m)) in
  let pData := pData0 + sizeof_mstudiocollmodel in
  let pData := pData + headerCount m * sizeof_mstudiocollheader in
  let surfacePropsSize := s32 (contentMasksIndex m - surfacePropsIndex m) in
  let contentMasksSize := s32 (surfaceNamesIndex m - contentMasksIndex m) in
  let surfaceNamesSize :=
    s32 (vertsOfs (headerAt m 0) - surfaceNamesIndex m) in
  let pData := pData + surfacePropsSize in
  let pData := pData + contentMasksSize in
  let pData := pData + surfaceNamesSize in
  let '(first, pData) :=
    fold_left
      (fun acc i =>
         let '(vertIndex, bvhLeafIndex, pData) :=
           copyVertsAndLeaves m pNewCollModel acc.2 i in
         (acc.1 ++ [(vertIndex, bvhLeafIndex)], pData))
      indices ([], pData) in
  let '(second, pData) :=
    fold_left
      (fun acc i =>
         let '(bvhNodeIndex, pData) := copyNodes m pNewCollModel acc.2 i in
         (acc.1 ++ [bvhNodeIndex], pData))
      indices ([], pData) in
  (imap
     (fun i oldHeader =>
        let vl := default (0, 0) (first !! i) in
        ({| unk := bvhFlags oldHeader;
            n_origin := origin oldHeader;
            scale := decodeScale oldHeader;
            vertIndex := vl.1;
            bvhLeafIndex := vl.2;
            bvhNodeIndex := default 0 (second !! i) |},
         {| vertData := vertsOfs oldHeader;
            vertSize := vertSizeOf oldHeader;
            leafData := leafDataOfs oldHeader;
            leafSize := leafSizeOf m i;
            nodeData := nodesOfs oldHeader;
            nodeSize := nodeSizeOf fileSize collisionOffset m i |}))
     (pOldCollHeaders m),
   pData).

(** *** The inferred lengths *)

(** The three offsets of a header are non-negative [int]s. *)
Definition offsetsInRange (h : mstudiocollheader_v191) : Prop :=
  0 <= vertsOfs h < 2 ^ 31
  /\ 0 <= leafDataOfs h < 2 ^ 31
  /\ 0 <= nodesOfs h < 2 ^ 31.

Lemma headerAt_lookup m i h :
  pOldCollHeaders m !! i = Some h -> headerAt m i = h.
Proof. unfold headerAt. by intros ->. Qed.

Lemma isLast_spec m i h :
  pOldCollHeaders m !! i = Some h ->
  isLast m i = true <-> pOldCollHeaders m !! (i + 1)%nat = None.
Proof.
  intros Hi. apply lookup_lt_Some in Hi.
  unfold isLast, headerCount. rewrite Z.eqb_eq, lookup_ge_None. lia.
Qed.

Lemma ConvertCollisionData_V191_lookup m pData0 i oldHeader :
  pOldCollHeaders m !! i = Some oldHeader ->
  exists newHeader,
    (ConvertCollisionData_V191 m pData0).1 !! i
    = Some (newHeader,
            {| vertData := vertsOfs oldHeader;
               vertSize := vertSizeOf oldHeader;
               leafData := leafDataOfs oldHeader;
               leafSize := leafSizeOf m i;
               nodeData := nodesOfs oldHeader;
               nodeSize := nodeSizeOf fileSize collisionOffset m i |})
    /\ unk newHeader = bvhFlags oldHeader
    /\ n_origin newHeader = origin oldHeader
    /\ scale newHeader = decodeScale oldHeader.
Proof.
  intros Hi. unfold ConvertCollisionData_V191.
  destruct (fold_left _ _ _) as [first pData1].
  destruct (fold_left _ _ _) as [second pData2].
  cbn [fst]. rewrite list_lookup_imap, Hi. cbn.
  eexists. split; [reflexivity|]. done.
Qed.

(** C3 (as amended).  For a collision model whose header offsets are
    non-negative [int]s (so in particular for monotonically increasing
    ones), every header's copied origin, scale and flags are the source's,
    and the inferred lengths are: vertices, from the header's vertex offset
    to its own leaf offset; leaves, from the header's leaf offset to the
    next header's vertex offset, and for the last header to the first
    header's node offset; nodes, from the header's node offset to the next
    header's node offset, and for the last header the space left in the
    file after its node offset, clamped to 1 MiB. *)
Theorem collision_buffer_lengths
    (m : mstudiocollmodel) (pData0 : Z) (i : nat)
    (oldHeader : mstudiocollheader_v191) :
  pOldCollHeaders m !! i = Some oldHeader ->
  Forall offsetsInRange (pOldCollHeaders m) ->
  exists newHeader c,
    (ConvertCollisionData_V191 m pData0).1 !! i = Some (newHeader, c)
    /\ unk newHeader = bvhFlags oldHeader
    /\ n_origin newHeader = origin oldHeader
    /\ scale newHeader = decodeScale oldHeader
    /\ vertSize c = leafDataOfs oldHeader - vertsOfs oldHeader
    /\ (forall next,
          pOldCollHeaders m !! (i + 1)%nat = Some next ->
          leafSize c = vertsOfs next - leafDataOfs oldHeader
          /\ nodeSize c = nodesOfs next - nodesOfs oldHeader)
    /\ (pOldCollHeaders m !! (i + 1)%nat = None ->
        forall first,
          pOldCollHeaders m !! 0%nat = Some first ->
          leafSize c = nodesOfs first - leafDataOfs oldHeader
          /\ (0 <= fileSize - collisionOffset - nodesOfs oldHeader < 2 ^ 63 ->
              nodeSize c
              = Z.min (fileSize - collisionOffset - nodesOfs oldHeader)
                  (1024 * 1024))).
Proof.
  intros Hi Hall.
  destruct (ConvertCollisionData_V191_lookup m pData0 i oldHeader Hi)
    as (newHeader & Hlookup & Hunk & Horigin & Hscale).
  eexists _, _. split; [exact Hlookup|].
  do 3 (split; [assumption|]). cbn [vertSize leafSize nodeSize].
  pose proof (Forall_lookup_1 _ _ _ _ Hall Hi) as (Hv & Hl & Hn).
  split; [|split].
  - unfold vertSizeOf. apply s32_small. lia.
  - intros next Hnext.
    pose proof (Forall_lookup_1 _ _ _ _ Hall Hnext) as (Hv' & Hl' & Hn').
    unfold leafSizeOf, nodeSizeOf.
    destruct (isLast m i) eqn:Hlast.
    { apply (isLast_spec m i oldHeader Hi) in Hlast. congruence. }
    cbn [negb].
    rewrite (headerAt_lookup m i oldHeader Hi).
    rewrite (headerAt_lookup m (i + 1) next Hnext).
    split; apply s32_small; lia.
  - intros Hnone first Hfirst.
    pose proof (Forall_lookup_1 _ _ _ _ Hall Hfirst) as (Hv' & Hl' & Hn').
    unfold leafSizeOf, nodeSizeOf.
    rewrite (proj2 (isLast_spec m i oldHeader Hi) Hnone). cbn [negb].
    rewrite (headerAt_lookup m i oldHeader Hi).
    rewrite (headerAt_lookup m 0 first Hfirst).
    split; [apply s32_small; lia|].
    intros Hspace. rewrite u64_small, s64_small by lia.
    destruct (Z.ltb_spec (1024 * 1024)
                (fileSize - collisionOffset - nodesOfs oldHeader)); lia.
Qed.

End ConvertCollisionData.

(** *** A model of two headers *)

(** Vertices of 100 bytes and leaves of 100 bytes for each header, laid out
    header by header from offset 1024, then the nodes: 200 bytes for the
    first header, the rest of the file for the second. *)
Definition twoHeaders : mstudiocollmodel :=
  {| contentMasksIndex := 912; surfacePropsIndex := 896;
     surfaceNamesIndex := 928;
     pOldCollHeaders :=
       [ {| bvhFlags := 1; origin := [0; 0; 0]; decodeScale := 0x3F800000;
            vertsOfs := 1024; leafDataOfs := 1124; nodesOfs := 1424 |};
         {| bvhFlags := 1; origin := [0; 0; 0]; decodeScale := 0x3F800000;
            vertsOfs := 1224; leafDataOfs := 1324; nodesOfs := 1624 |} ] |}.

(** The model sits at offset 4096 of a file of 6000 bytes; sample sizes of
    20 and 32 bytes for the target records. *)
Definition twoHeadersConverted :=
  ConvertCollisionData_V191 20 32 6000 4096 twoHeaders 0.

Example twoHeaders_lengths :
  map (fun p => (vertSize p.2, leafSize p.2, nodeSize p.2))
    twoHeadersConverted.1
  = [(100, 100, 200); (100, 100, 280)]
  /\ map (fun p => (vertIndex p.1, bvhLeafIndex p.1, bvhNodeIndex p.1))
       twoHeadersConverted.1
     = [(256, 384, 768); (512, 640, 1024)].
Proof. vm_compute. done. Qed.

Lemma collision_buffer_lengths_witness :
  pOldCollHeaders twoHeaders !! 0%nat
  = Some (headerAt twoHeaders 0)
  /\ Forall offsetsInRange (pOldCollHeaders twoHeaders)
  /\ exists newHeader c,
       twoHeadersConverted.1 !! 0%nat = Some (newHeader, c)
       /\ vertSize c = 100 /\ leafSize c = 100 /\ nodeSize c = 200.
Proof.
  assert (Hall : Forall offsetsInRange (pOldCollHeaders twoHeaders))
    by (repeat constructor; cbn; lia).
  split; [reflexivity|]. split; [exact Hall|].
  destruct (collision_buffer_lengths 20 32 6000 4096 twoHeaders 0 0%nat
              (headerAt twoHeaders 0) eq_refl Hall)
    as (newHeader & c & Hlookup & _ & _ & _ & Hvert & Hnext & _).
  destruct (Hnext (headerAt twoHeaders 1) eq_refl) as [Hleaf Hnode].
  exists newHeader, c. split; [exact Hlookup|]. done.
Defined.

(** C3, the claim as stated fails: the offsets of the two headers increase
    section by section, the next header's vertex offset is 200 bytes after
    the first header's and its leaf offset 200 bytes after the first
    header's, and the converter infers 100 bytes of vertices and 100 bytes
    of leaves for the first header. *)
Lemma lengths_are_not_gaps_to_next_counterexample :
  let h0 := headerAt twoHeaders 0 in
  let h1 := headerAt twoHeaders 1 in
  (vertsOfs h0 < vertsOfs h1 /\ leafDataOfs h0 < leafDataOfs h1
   /\ nodesOfs h0 < nodesOfs h1)
  /\ vertsOfs h1 - vertsOfs h0 = 200
  /\ leafDataOfs h1 - leafDataOfs h0 = 200
  /\ (vertSize <$> (snd <$> twoHeadersConverted.1 !! 0%nat)) = Some 100
  /\ (leafSize <$> (snd <$> twoHeadersConverted.1 !! 0%nat)) = Some 100
  /\ (vertSize <$> (snd <$> twoHeadersConverted.1 !! 0%nat))
     <> Some (vertsOfs h1 - vertsOfs h0)
  /\ (leafSize <$> (snd <$> twoHeadersConverted.1 !! 0%nat))
     <> Some (leafDataOfs h1 - leafDataOfs h0).
Proof. vm_compute. repeat split; discriminate. Qed.


End Collision.

(* ------------------------------------------------------------------ *)
(** ** Physics header ([ConvertRMDL191To10], [rmdl_191.cpp],
       lines 2290-2378) *)

Module Phy.

Definition byte_at := BoneState.byte_at.

(** [*reinterpret_cast<uint16_t*>(buf + off)] and the four bytes of an
    [int32_t], least significant byte first. *)
Definition read_u16 (buf : list Z) (off : Z) : Z :=
  byte_at buf off + 2 ^ 8 * byte_at buf (off + 1).

Definition int32_bytes (x : Z) : list Z :=
  [u32 x mod 2 ^ 8; u32 x / 2 ^ 8 mod 2 ^ 8;
   u32 x / 2 ^ 16 mod 2 ^ 8; u32 x / 2 ^ 24 mod 2 ^ 8].

(** The [int32_t] stored at offset [off]. *)
Definition read_i32 (buf : list Z) (off : Z) : Z :=
  s32 (byte_at buf off + 2 ^ 8 * byte_at buf (off + 1)
       + 2 ^ 16 * byte_at buf (off + 2) + 2 ^ 24 * byte_at buf (off + 3)).

Record IVPSHeader := {
  size : Z;
  id : Z;
  solidCount : Z;
  checkSum : Z;
  keyValuesOffset : Z
}.

(** The object representation of the header: five [int32_t], 20 bytes. *)
Definition IVPSHeader_bytes (h : IVPSHeader) : list Z :=
  int32_bytes (size h) ++ int32_bytes (id h) ++ int32_bytes (solidCount h)
  ++ int32_bytes (checkSum h) ++ int32_bytes (keyValuesOffset h).

Definition sizeof_IVPSHeader : Z := 20.

(** The header built from the model's checksum and the source file. *)
Definition v10Header (checksum : Z) (phyInputBuf : list Z) : IVPSHeader :=
  let v19KeyValuesOffset := read_u16 phyInputBuf 2 in
  {| size := 20; id := 1; solidCount := 1; checkSum := checksum;
     keyValuesOffset := v19KeyValuesOffset + 16 |}.

(** The two writes to the physics output: the header, then the source from
    byte 4 on.  (A source shorter than its header makes the second write
    read outside the buffer; nothing is claimed about it.) *)
Definition phyOut (checksum : Z) (phyInputBuf : list Z) : list Z :=
  IVPSHeader_bytes (v10Header checksum phyInputBuf) ++ drop 4 phyInputBuf.

(** [sizeof(IVPSHeader) + (phyInputSize - 4)] in [size_t]. *)
Definition v10PhySize (phyInputBuf : list Z) : Z :=
  u64 (sizeof_IVPSHeader + u64 (Z.of_nat (length phyInputBuf) - 4)).

(** [seekp (off)] and a write of the four bytes of [v] on a file; a write
    behind the end fills the gap with zeros. *)
Definition patch_i32 (file : list Z) (off : Z) (v : Z) : list Z :=
  let n := Z.to_nat off in
  take n file ++ replicate (n - length file) 0 ++ int32_bytes v
  ++ drop (n + 4) file.

(** The files after the physics step: the model file written before, and
    the physics output if there is a source physics file.  [opened] tells
    whether the model file could be reopened for the patch; [phySizeOffset]
    is [offsetof (studiohdr_t, phySize)]. *)
Definition convertPhy (phySizeOffset : Z) (checksum : Z)
    (rmdlFile : list Z) (phyFile : option (list Z)) (opened : bool)
    : list Z * option (list Z) :=
  match phyFile with
  | None => (rmdlFile, None)
  | Some phyInputBuf =>
      let phySizeValue := s32 (v10PhySize phyInputBuf) in
      ((if opened then patch_i32 rmdlFile phySizeOffset phySizeValue
        else rmdlFile),
       Some (phyOut checksum phyInputBuf))
  end.

(** *** Reading back what was written *)

Lemma int32_bytes_length x : length (int32_bytes x) = 4%nat.
Proof. reflexivity. Qed.

Lemma byte_at_app_r (l1 l2 : list Z) (off : Z) :
  Z.of_nat (length l1) <= off ->
  byte_at (l1 ++ l2) off = byte_at l2 (off - Z.of_nat (length l1)).
Proof.
  intros Hoff. unfold byte_at, BoneState.byte_at.
  rewrite lookup_app_r by lia. do 2 f_equal. lia.
Qed.

Lemma byte_at_app_l (l1 l2 : list Z) (off : Z) :
  0 <= off < Z.of_nat (length l1) ->
  byte_at (l1 ++ l2) off = byte_at l1 off.
Proof.
  intros Hoff. unfold byte_at, BoneState.byte_at.
  by rewrite lookup_app_l by lia.
Qed.

(** An [int32_t] written at the front of a buffer reads back as itself. *)
Lemma read_i32_int32_bytes (x : Z) (rest : list Z) :
  - 2 ^ 31 <= x < 2 ^ 31 ->
  read_i32 (int32_bytes x ++ rest) 0 = x.
Proof.
  intros Hx. unfold read_i32.
  rewrite !byte_at_app_l by (rewrite int32_bytes_length; lia).
  change (byte_at (int32_bytes x) 0) with (u32 x mod 2 ^ 8).
  change (byte_at (int32_bytes x) (0 + 1)) with (u32 x / 2 ^ 8 mod 2 ^ 8).
  change (byte_at (int32_bytes x) (0 + 2)) with (u32 x / 2 ^ 16 mod 2 ^ 8).
  change (byte_at (int32_bytes x) (0 + 3)) with (u32 x / 2 ^ 24 mod 2 ^ 8).
  assert (Hdecomp : forall y, 0 <= y < 2 ^ 32 ->
            y mod 2 ^ 8 + 2 ^ 8 * (y / 2 ^ 8 mod 2 ^ 8)
            + 2 ^ 16 * (y / 2 ^ 16 mod 2 ^ 8)
            + 2 ^ 24 * (y / 2 ^ 24 mod 2 ^ 8) = y).
  { intros y Hy.
    pose proof (Z.div_mod y (2 ^ 8) ltac:(lia)).
    pose proof (Z.div_mod (y / 2 ^ 8) (2 ^ 8) ltac:(lia)).
    pose proof (Z.div_mod (y / 2 ^ 8 / 2 ^ 8) (2 ^ 8) ltac:(lia)).
    rewrite !Z.div_div in * by lia.
    change (2 ^ 8 * 2 ^ 8) with (2 ^ 16) in *.
    change (2 ^ 16 * 2 ^ 8) with (2 ^ 24) in *.
    assert (y / 2 ^ 24 < 2 ^ 8) by (apply Z.div_lt_upper_bound; lia).
    assert (0 <= y / 2 ^ 24) by (apply Z.div_pos; lia).
    rewrite (Z.mod_small (y / 2 ^ 24)) by lia. lia. }
  rewrite Hdecomp by (unfold u32; apply Z.mod_pos_bound; lia).
  unfold s32, u32.
  rewrite Zplus_mod_idemp_l, Z.mod_small by lia. lia.
Qed.

Lemma read_i32_shift (l1 l2 : list Z) (off : Z) :
  0 <= off ->
  read_i32 (l1 ++ l2) (Z.of_nat (length l1) + off) = read_i32 l2 off.
Proof.
  intros Hoff. unfold read_i32.
  rewrite !byte_at_app_r by lia. repeat f_equal; lia.
Qed.

Lemma read_i32_at_end (l1 l2 : list Z) (off : Z) :
  off = Z.of_nat (length l1) -> read_i32 (l1 ++ l2) off = read_i32 l2 0.
Proof.
  intros ->. rewrite <- (Z.add_0_r (Z.of_nat (length l1))).
  by apply read_i32_shift.
Qed.

Lemma read_i32_behind_i32 (y : Z) (l : list Z) (off : Z) :
  0 <= off -> read_i32 (int32_bytes y ++ l) (4 + off) = read_i32 l off.
Proof.
  intros Hoff.
  change 4 with (Z.of_nat (length (int32_bytes y))).
  by apply read_i32_shift.
Qed.

Lemma IVPSHeader_bytes_length h : length (IVPSHeader_bytes h) = 20%nat.
Proof. reflexivity. Qed.

Lemma read_u16_range (buf : list Z) (off : Z) :
  Forall (fun b => 0 <= b < 256) buf -> 0 <= read_u16 buf off < 2 ^ 16.
Proof.
  intros Hbytes. unfold read_u16, byte_at.
  pose proof (BoneState.byte_at_range buf Hbytes off).
  pose proof (BoneState.byte_at_range buf Hbytes (off + 1)).
  lia.
Qed.

(** A patch inside the file replaces four bytes and nothing else. *)
Lemma patch_i32_inside (file : list Z) (off v : Z) :
  0 <= off -> off + 4 <= Z.of_nat (length file) ->
  - 2 ^ 31 <= v < 2 ^ 31 ->
  read_i32 (patch_i32 file off v) off = v
  /\ length (patch_i32 file off v) = length file
  /\ (forall o, 0 <= o -> o < off \/ off + 4 <= o ->
                byte_at (patch_i32 file off v) o = byte_at file o).
Proof.
  intros Hoff Hfit Hv. unfold patch_i32.
  replace (Z.to_nat off - length file)%nat with 0%nat by lia.
  cbn [replicate app].
  assert (Htake : length (take (Z.to_nat off) file) = Z.to_nat off)
    by (rewrite length_take; lia).
  split; [|split].
  - rewrite read_i32_at_end by lia. by apply read_i32_int32_bytes.
  - rewrite !length_app, Htake, int32_bytes_length, length_drop. lia.
  - intros o Ho [Hlow|Hhigh].
    + rewrite byte_at_app_l by lia.
      unfold byte_at, BoneState.byte_at. by rewrite lookup_take_lt by lia.
    + rewrite byte_at_app_r by lia.
      rewrite byte_at_app_r by (rewrite int32_bytes_length; lia).
      unfold byte_at, BoneState.byte_at. rewrite lookup_drop.
      do 2 f_equal. rewrite Htake, int32_bytes_length. lia.
Qed.

(** C9.  For a source physics file of at least its 4-byte header, the
    physics output is a 20-byte header with size 20, id 1, solid count 1,
    the model's checksum, and the source key-values offset plus 16,
    followed by the source bytes from offset 4 on; it is 16 bytes longer
    than the source.  When the model file is reopened, its four bytes at
    the offset of the physics-size field then hold the size of the physics
    output, and no other byte of the model file changes. *)
Theorem physics_header_conversion
    (phySizeOffset checksum : Z) (rmdlFile phyInputBuf : list Z) :
  Forall (fun b => 0 <= b < 256) phyInputBuf ->
  (4 <= length phyInputBuf)%nat ->
  Z.of_nat (length phyInputBuf) + 16 < 2 ^ 31 ->
  - 2 ^ 31 <= checksum < 2 ^ 31 ->
  0 <= phySizeOffset ->
  phySizeOffset + 4 <= Z.of_nat (length rmdlFile) ->
  exists out,
    convertPhy phySizeOffset checksum rmdlFile (Some phyInputBuf) true
    = (patch_i32 rmdlFile phySizeOffset (Z.of_nat (length out)), Some out)
    /\ read_i32 out 0 = 20
    /\ read_i32 out 4 = 1
    /\ read_i32 out 8 = 1
    /\ read_i32 out 12 = checksum
    /\ read_i32 out 16 = read_u16 phyInputBuf 2 + 16
    /\ drop 20 out = drop 4 phyInputBuf
    /\ length out = (length phyInputBuf + 16)%nat
    /\ read_i32 (patch_i32 rmdlFile phySizeOffset (Z.of_nat (length out)))
         phySizeOffset
       = Z.of_nat (length out)
    /\ length (patch_i32 rmdlFile phySizeOffset (Z.of_nat (length out)))
       = length rmdlFile
    /\ (forall o, 0 <= o -> o < phySizeOffset \/ phySizeOffset + 4 <= o ->
          byte_at (patch_i32 rmdlFile phySizeOffset (Z.of_nat (length out))) o
          = byte_at rmdlFile o).
Proof.
  intros Hbytes Hlen Hsmall Hck Hoff Hfit.
  pose proof (read_u16_range phyInputBuf 2 Hbytes) as Hkv.
  assert (Hout : length (phyOut checksum phyInputBuf)
                 = (length phyInputBuf + 16)%nat).
  { unfold phyOut. rewrite length_app, IVPSHeader_bytes_length, length_drop.
    lia. }
  exists (phyOut checksum phyInputBuf).
  split.
  { unfold convertPhy. do 2 f_equal. rewrite Hout.
    unfold v10PhySize, sizeof_IVPSHeader.
    rewrite (u64_small (Z.of_nat (length phyInputBuf) - 4)) by lia.
    rewrite u64_small, s32_small by lia. lia. }
  destruct (patch_i32_inside rmdlFile phySizeOffset
              (Z.of_nat (length (phyOut checksum phyInputBuf))) Hoff Hfit)
    as (Hread & Hsame & Hrest); [rewrite Hout; lia|].
  unfold phyOut at 1 2 3 4 5 6, IVPSHeader_bytes, v10Header.
  cbn [size id solidCount checkSum keyValuesOffset].
  rewrite <- !app_assoc.
  split; [by apply read_i32_int32_bytes|].
  split.
  { change 4 with (4 + 0). rewrite read_i32_behind_i32 by lia.
    by apply read_i32_int32_bytes. }
  split.
  { change 8 with (4 + (4 + 0)). rewrite !read_i32_behind_i32 by lia.
    by apply read_i32_int32_bytes. }
  split.
  { change 12 with (4 + (4 + (4 + 0))). rewrite !read_i32_behind_i32 by lia.
    by apply read_i32_int32_bytes. }
  split.
  { change 16 with (4 + (4 + (4 + (4 + 0)))).
    rewrite !read_i32_behind_i32 by lia.
    apply read_i32_int32_bytes. lia. }
  split; [reflexivity|].
  split; [exact Hout|].
  split; [exact Hread|]. split; [exact Hsame|exact Hrest].
Qed.

(** A 10-byte physics file: version 1, key values at offset 6. *)
Definition samplePhy : list Z := [1; 0; 6; 0; 0xAA; 0xBB; 0x7B; 0x7D; 0x0A; 0].

(** A 16-byte model file with the physics-size field at offset 8. *)
Definition sampleRmdl : list Z := replicate 16 0xCC.

Example samplePhy_converted :
  convertPhy 8 0x12345678 sampleRmdl (Some samplePhy) true
  = ([0xCC; 0xCC; 0xCC; 0xCC; 0xCC; 0xCC; 0xCC; 0xCC;
      26; 0; 0; 0; 0xCC; 0xCC; 0xCC; 0xCC],
     Some [20; 0; 0; 0; 1; 0; 0; 0; 1; 0; 0; 0; 0x78; 0x56; 0x34; 0x12;
           22; 0; 0; 0; 0xAA; 0xBB; 0x7B; 0x7D; 0x0A; 0]).
Proof. vm_compute. reflexivity. Qed.

Lemma physics_header_conversion_witness :
  Forall (fun b => 0 <= b < 256) samplePhy
  /\ (4 <= length samplePhy)%nat
  /\ Z.of_nat (length samplePhy) + 16 < 2 ^ 31
  /\ - 2 ^ 31 <= 0x12345678 < 2 ^ 31
  /\ 0 <= 8
  /\ 8 + 4 <= Z.of_nat (length sampleRmdl)
  /\ exists out,
       convertPhy 8 0x12345678 sampleRmdl (Some samplePhy) true
       = (patch_i32 sampleRmdl 8 (Z.of_nat (length out)), Some out)
       /\ read_i32 out 16 = 22
       /\ length out = 26%nat.
Proof.
  assert (H1 : Forall (fun b => 0 <= b < 256) samplePhy)
    by (repeat constructor; lia).
  assert (H2 : (4 <= length samplePhy)%nat) by (cbn; lia).
  assert (H3 : Z.of_nat (length samplePhy) + 16 < 2 ^ 31) by (cbn; lia).
  assert (H4 : - 2 ^ 31 <= 0x12345678 < 2 ^ 31) by lia.
  assert (H5 : 0 <= 8) by lia.
  assert (H6 : 8 + 4 <= Z.of_nat (length sampleRmdl)) by (cbn; lia).
  do 6 (split; [assumption|]).
  destruct (physics_header_conversion 8 0x12345678 sampleRmdl samplePhy
              H1 H2 H3 H4 H5 H6)
    as (out & Hconv & _ & _ & _ & _ & Hkv & _ & Hlen & _).
  exists out. split; [exact Hconv|]. split; [exact Hkv|exact Hlen].
Defined.

End Phy.

(* ------------------------------------------------------------------ *)
(** ** The pattern search: what a hit guarantees and where it cannot hit
       ([FindBoneStateData_191], [rmdl_191.cpp], lines 50-127;
       [FindBoneStateData_160], v16 file, lines 63-140) *)

Module BoneStateBounds.
Import BoneState.

(** The candidate test can only succeed for a non-negative count: the size
    of the set is compared with it. *)
Lemma candidateOK_count data count totalBones off :
  candidateOK data count totalBones off = true -> 0 <= count.
Proof.
  unfold candidateOK.
  destruct (scanRun _ _ _ _ _) as [valid U].
  rewrite andb_true_iff, Z.eqb_eq. intros [_ <-]. lia.
Qed.

(** A hit of either scan: the offset lies in the scanned region, the run
    fits into the file and is a valid table. *)
Lemma FindBoneStateData_191_Some data count totalBones off :
  FindBoneStateData_191 data count totalBones = Some off ->
  0 < count
  /\ searchStart <= off <= Z.of_nat (length data) - count
  /\ validTable totalBones (run data off (Z.to_nat count)).
Proof.
  unfold FindBoneStateData_191.
  destruct (Z.eqb_spec count 0) as [|Hc]; [done|].
  destruct (Z.eqb_spec totalBones 0) as [|Ht]; [done|].
  destruct (Z.ltb_spec (Z.of_nat (length data)) count) as [|Hsz]; [done|].
  cbn [orb].
  destruct (backwardScan _ _ _ _) as [off'|] eqn:Hb.
  - intros [= ->].
    apply backwardScan_Some in Hb as (Hr & Hhit & _).
    unfold backwardTest in Hhit.
    rewrite !andb_true_iff in Hhit. destruct Hhit as [[Hok _] _].
    pose proof (candidateOK_count _ _ _ _ Hok) as Hnn.
    split; [lia|]. split; [lia|]. by apply candidateOK_spec.
  - intros Hf. apply forwardScan_Some in Hf as (Hr & Hok & _).
    pose proof (candidateOK_count _ _ _ _ Hok) as Hnn.
    split; [lia|]. split; [lia|]. by apply candidateOK_spec.
Qed.

(** The bytes of a run inside the file are the bytes of the file. *)
Lemma run_lookup data n : forall p i,
  0 <= p -> (i < n)%nat ->
  run data p n !! i = Some (byte_at data (p + Z.of_nat i)).
Proof.
  induction n as [|n IH]; intros p i Hp Hi; [lia|].
  destruct i as [|i]; cbn.
  - do 2 f_equal. lia.
  - rewrite IH by lia. do 2 f_equal. lia.
Qed.

Lemma run_bytes data p n :
  Forall (fun b => 0 <= b < 256) data ->
  Forall (fun b => 0 <= b < 256) (run data p n).
Proof.
  intros Hbytes. revert p. induction n as [|n IH]; intros p; cbn.
  - constructor.
  - constructor; [by apply byte_at_range|apply IH].
Qed.

(** Pairwise distinct bytes: at most 256 of them. *)
Lemma NoDup_bytes_length (l : list Z) :
  Forall (fun b => 0 <= b < 256) l -> NoDup l -> (length l <= 256)%nat.
Proof.
  intros Hbytes Hnd.
  assert (Hsub : l ⊆+ seqZ 0 256).
  { apply NoDup_submseteq; [done|]. intros x Hx.
    rewrite Forall_forall in Hbytes. apply elem_of_seqZ.
    specialize (Hbytes x Hx). lia. }
  apply submseteq_length in Hsub. by rewrite length_seqZ in Hsub.
Qed.

(** X1.  Whatever the pattern search returns lies at or behind offset
    0x1000, the [count] bytes from it on lie inside the file, and they are
    a valid table: bone indices below [totalBones], pairwise distinct.  In
    particular a file shorter than 0x1000 + [count] bytes yields nothing. *)
Theorem found_table_lies_inside_the_file
    (data : list Z) (count totalBones off : Z) :
  FindBoneStateData_191 data count totalBones = Some off ->
  0x1000 <= off
  /\ off + count <= Z.of_nat (length data)
  /\ 0x1000 + count <= Z.of_nat (length data)
  /\ (forall i, (i < Z.to_nat count)%nat ->
        exists b, data !! Z.to_nat (off + Z.of_nat i) = Some b
                  /\ run data off (Z.to_nat count) !! i = Some b
                  /\ b < totalBones)
  /\ NoDup (run data off (Z.to_nat count))
  /\ FindBoneStateData_160 data count totalBones = Some off.
Proof.
  intros Hfind.
  destruct (FindBoneStateData_191_Some _ _ _ _ Hfind)
    as (Hc & Hr & Hall & Hnd).
  unfold searchStart in Hr.
  split; [lia|]. split; [lia|]. split; [lia|].
  split; [|split; [exact Hnd|exact Hfind]].
  intros i Hi.
  assert (Hin : (Z.to_nat (off + Z.of_nat i) < length data)%nat) by lia.
  apply lookup_lt_is_Some in Hin as [b Hb].
  exists b. split; [exact Hb|].
  assert (Hrun : run data off (Z.to_nat count) !! i = Some b).
  { rewrite run_lookup by lia. unfold byte_at. by rewrite Hb. }
  split; [exact Hrun|].
  by apply (Forall_lookup_1 _ _ _ _ Hall Hrun).
Qed.

Lemma found_table_lies_inside_the_file_witness :
  FindBoneStateData_191 (replicate 4096 255 ++ [2; 0; 1] ++ [255]) 3 3
  = Some 4096
  /\ 4096 + 3 <= Z.of_nat (length (replicate 4096 255 ++ [2; 0; 1] ++ [255]))
  /\ NoDup (run (replicate 4096 255 ++ [2; 0; 1] ++ [255]) 4096 3).
Proof.
  assert (H : FindBoneStateData_191
                (replicate 4096 255 ++ [2; 0; 1] ++ [255]) 3 3 = Some 4096)
    by (vm_compute; reflexivity).
  destruct (found_table_lies_inside_the_file _ _ _ _ H)
    as (_ & Hfit & _ & _ & Hnd & _).
  split; [exact H|]. split; [exact Hfit|exact Hnd].
Defined.

(** X2.  On a file of bytes the pattern search finds nothing when the
    header declares more than 256 bone states: a table of pairwise distinct
    bytes cannot be longer. *)
Theorem no_table_beyond_256_states
    (data : list Z) (count totalBones : Z) :
  Forall (fun b => 0 <= b < 256) data ->
  256 < count ->
  FindBoneStateData_191 data count totalBones = None.
Proof.
  intros Hbytes Hcount.
  destruct (FindBoneStateData_191 data count totalBones) as [off|] eqn:Hfind;
    [|done].
  exfalso.
  destruct (FindBoneStateData_191_Some _ _ _ _ Hfind)
    as (_ & _ & _ & Hnd).
  apply NoDup_bytes_length in Hnd; [|by apply run_bytes].
  rewrite run_length in Hnd. lia.
Qed.

Lemma no_table_beyond_256_states_witness :
  Forall (fun b => 0 <= b < 256) (replicate 300 0)
  /\ 256 < 257
  /\ FindBoneStateData_191 (replicate 300 0) 257 300 = None.
Proof.
  assert (Hbytes : Forall (fun b => 0 <= b < 256) (replicate 300 0))
    by (apply Forall_replicate; lia).
  split; [exact Hbytes|]. split; [lia|].
  apply (no_table_beyond_256_states (replicate 300 0) 257 300 Hbytes). lia.
Defined.

(** X3.  The last position of the file, [size - count], is reached by the
    backward scan only: the forward scan stops one offset short of it.  So
    when the only valid table of a file is its last [count] bytes, the
    search returns it if the 16 bytes before it look like the small header
    and returns nothing otherwise. *)
Theorem last_position_needs_a_header
    (data : list Z) (count totalBones : Z) :
  Forall (fun b => 0 <= b < 256) data ->
  0 < count ->
  0 <= totalBones ->
  let last := Z.of_nat (length data) - count in
  searchStart <= last ->
  validTable totalBones (run data last (Z.to_nat count)) ->
  (forall off, searchStart <= off < last ->
     ~ validTable totalBones (run data off (Z.to_nat count))) ->
  (plausibleHeader data last ->
   FindBoneStateData_191 data count totalBones = Some last)
  /\ (~ plausibleHeader data last ->
      FindBoneStateData_191 data count totalBones = None).
Proof.
  intros Hbytes Hc Ht last Hstart Hvalid Hearlier.
  pose proof (FindBoneStateData_191_spec data count totalBones Hc Hbytes Ht)
    as Hspec.
  assert (Hback : forall off, backwardHit data count totalBones off ->
                              off = last /\ plausibleHeader data last).
  { intros off (Hr & Hv & Hh). fold last in Hr.
    destruct (decide (off = last)) as [->|Hne]; [done|].
    exfalso. apply (Hearlier off); [lia|done]. }
  assert (Hfwd : forall off, ~ forwardHit data count totalBones off).
  { intros off (Hr & Hv). fold last in Hr. by apply (Hearlier off). }
  destruct (FindBoneStateData_191 data count totalBones) as [off|].
  - destruct Hspec as [[Hb _]|(_ & Hf & _)]; [|by destruct (Hfwd off)].
    destruct (Hback off Hb) as [-> Hh]. split; [done|]. intros Hno. done.
  - destruct Hspec as [Hnob _]. split; [|done].
    intros Hh. destruct (Hnob last). split; [fold last; lia|done].
Qed.

Lemma last_position_needs_a_header_witness :
  let data := replicate 4096 255 ++ [2; 0; 1] in
  validTable 3 (run data 4096 3)
  /\ ~ plausibleHeader data 4096
  /\ FindBoneStateData_191 data 3 3 = None.
Proof.
  intros data.
  assert (Hbytes : Forall (fun b => 0 <= b < 256) data).
  { apply Forall_app. split; [apply Forall_replicate; lia|].
    repeat constructor; lia. }
  assert (Hvalid : validTable 3 (run data 4096 3)).
  { split.
    - repeat constructor; cbn; lia.
    - cbn. repeat constructor; set_solver. }
  assert (Hno : ~ plausibleHeader data 4096).
  { intros (_ & Hlod & _). vm_compute in Hlod. destruct Hlod as [_ Hle].
    by apply Hle. }
  split; [exact Hvalid|]. split; [exact Hno|].
  destruct (last_position_needs_a_header data 3 3 Hbytes ltac:(lia)
              ltac:(lia)) as [_ Hmiss].
  - unfold searchStart. cbn. lia.
  - exact Hvalid.
  - intros off Hoff. unfold searchStart in Hoff. cbn in Hoff. lia.
  - by apply Hmiss.
Defined.

End BoneStateBounds.

(* ------------------------------------------------------------------ *)
(** ** The converted skeleton: flags and the procedural-bone tables
       ([ConvertBones_191], [rmdl_191.cpp], lines 22-25 and 715-843;
       [ConvertBones_160], v16 file, lines 22-25 and 689-817) *)

Module BoneTables.
Import Arena Bones.

(** *** The flag filter *)

Lemma TranslateBoneFlags_191_bits flags n :
  0 <= n ->
  Z.testbit (TranslateBoneFlags_191 flags) n
  = Z.testbit flags n && negb (n =? 18).
Proof.
  intros Hn. unfold TranslateBoneFlags_191.
  change V10_BONE_USED_BY_BONE_MERGE with (2 ^ 18).
  rewrite Z.land_spec, Z.lnot_spec, Z.pow2_bits_eqb by lia.
  by rewrite (Z.eqb_sym 18 n).
Qed.

(** *** The ordered map [linearprocbones] *)

Lemma emplace_keys k v m x :
  x ∈ (emplace k v m).*1 <-> x = k \/ x ∈ m.*1.
Proof.
  induction m as [|[k' v'] m IH]; cbn [emplace].
  - rewrite fmap_cons, fmap_nil. set_solver.
  - destruct (Z.ltb_spec k k').
    { rewrite !fmap_cons. cbn [fst]. set_solver. }
    destruct (Z.eqb_spec k k') as [->|Hne].
    { rewrite !fmap_cons. cbn [fst]. set_solver. }
    rewrite !fmap_cons. cbn [fst]. rewrite !elem_of_cons, IH. tauto.
Qed.

Lemma emplace_sorted k v m :
  StronglySorted Z.lt m.*1 -> StronglySorted Z.lt (emplace k v m).*1.
Proof.
  induction m as [|[k' v'] m IH]; cbn [emplace]; intros Hs.
  - rewrite fmap_cons, fmap_nil. repeat constructor.
  - rewrite fmap_cons in Hs. cbn [fst] in Hs.
    apply StronglySorted_cons in Hs as [Hall Hs].
    destruct (Z.ltb_spec k k').
    { rewrite !fmap_cons. cbn [fst]. apply StronglySorted_cons. split.
      - constructor; [done|]. eapply Forall_impl; [exact Hall|].
        intros x Hx. cbn in Hx. lia.
      - apply StronglySorted_cons. done. }
    destruct (Z.eqb_spec k k') as [->|Hne].
    { rewrite !fmap_cons. cbn [fst]. by apply StronglySorted_cons. }
    rewrite fmap_cons. cbn [fst]. apply StronglySorted_cons. split.
    + apply Forall_forall. intros x Hx. apply emplace_keys in Hx as [->|Hx].
      * lia.
      * rewrite Forall_forall in Hall. by apply Hall.
    + by apply IH.
Qed.

(** A key above every key of the map goes to its end. *)
Lemma emplace_append k v m :
  Forall (fun x => x < k) m.*1 -> emplace k v m = m ++ [(k, v)].
Proof.
  induction m as [|[k' v'] m IH]; cbn [emplace]; intros Hall; [done|].
  rewrite fmap_cons in Hall. cbn [fst] in Hall.
  apply Forall_cons in Hall as [Hk Hall].
  destruct (Z.ltb_spec k k'); [lia|].
  destruct (Z.eqb_spec k k'); [lia|].
  by rewrite IH.
Qed.

Lemma find_None k m : find k m = None <-> k ∉ m.*1.
Proof.
  induction m as [|[k' v'] m IH]; cbn [find].
  - rewrite fmap_nil. set_solver.
  - rewrite fmap_cons. cbn [fst]. rewrite not_elem_of_cons.
    destruct (Z.eqb_spec k k'); [|tauto].
    split; [done|]. intros [Hne _]. done.
Qed.

Lemma find_lookup k b v m :
  NoDup m.*1 -> m !! k = Some (b, v) -> find b m = Some v.
Proof.
  revert k. induction m as [|[k' v'] m IH]; intros k Hnd Hk; [done|].
  rewrite fmap_cons in Hnd. cbn [fst] in Hnd.
  apply NoDup_cons in Hnd as [Hk' Hnd]. cbn [find].
  destruct k as [|k]; cbn in Hk.
  - injection Hk as -> ->. by rewrite Z.eqb_refl.
  - destruct (Z.eqb_spec b k') as [->|Hne]; [|by apply (IH k)].
    destruct Hk'. apply list_elem_of_fmap. exists (k', v).
    split; [done|]. by apply list_elem_of_lookup_2 in Hk.
Qed.

Lemma StronglySorted_lt_NoDup (l : list Z) :
  StronglySorted Z.lt l -> NoDup l.
Proof.
  induction l as [|x l IH]; [constructor|].
  rewrite StronglySorted_cons. intros [Hall Hs].
  constructor; [|by apply IH].
  intros Hin. rewrite Forall_forall in Hall. specialize (Hall x Hin). lia.
Qed.

(** The map after the keys [targets] have been offered in this order, each
    with the size of the map at that moment. *)
Definition insertTargets (targets : list Z) (m0 : list (Z * Z))
    : list (Z * Z) :=
  fold_left (fun m t => emplace t (u8 (Z.of_nat (length m))) m) targets m0.

Lemma insertTargets_keys targets : forall m0 x,
  x ∈ (insertTargets targets m0).*1 <-> x ∈ targets \/ x ∈ m0.*1.
Proof.
  induction targets as [|t targets IH]; intros m0 x; cbn [insertTargets fold_left].
  - set_solver.
  - fold (insertTargets targets (emplace t (u8 (Z.of_nat (length m0))) m0)).
    rewrite IH, emplace_keys, elem_of_cons. tauto.
Qed.

Lemma insertTargets_sorted targets : forall m0,
  StronglySorted Z.lt m0.*1 ->
  StronglySorted Z.lt (insertTargets targets m0).*1.
Proof.
  induction targets as [|t targets IH]; intros m0 Hs;
    cbn [insertTargets fold_left]; [done|].
  apply IH. by apply emplace_sorted.
Qed.

(** Keys offered in ascending order are numbered in that order. *)
Lemma insertTargets_ascending targets : forall m0,
  StronglySorted Z.lt (m0.*1 ++ targets) ->
  insertTargets targets m0
  = m0 ++ imap (fun k t => (t, u8 (Z.of_nat (length m0 + k)))) targets.
Proof.
  induction targets as [|t targets IH]; intros m0 Hs;
    cbn [insertTargets fold_left].
  - cbn. by rewrite app_nil_r.
  - fold (insertTargets targets (emplace t (u8 (Z.of_nat (length m0))) m0)).
    assert (Hlt : Forall (fun x => x < t) m0.*1).
    { apply Forall_forall. intros x Hx.
      apply (StronglySorted_app_1_elem_of _ _ _ _ _ Hs Hx). set_solver. }
    rewrite emplace_append by done.
    rewrite IH.
    + rewrite <- app_assoc. f_equal. cbn [imap app]. f_equal.
      * by rewrite Nat.add_0_r.
      * apply imap_ext. intros k x _. cbn.
        rewrite length_app. cbn [length]. do 3 f_equal. lia.
    + rewrite fmap_app, fmap_cons, fmap_nil. cbn [fst].
      by rewrite <- app_assoc.
Qed.

Section Tables.

Variable pMDL : list Z.
Variable sizeof_mstudiobone : Z.
Variable sizeof_mstudiojigglebone : Z.
Variable FIX_OFFSET : Z -> Z.
Variable jigglebone_bone : list Z -> Z.
Variable poses : (nat -> pose) * (nat -> pose).
Variable oldBones : list mstudiobone_v191.
Variable linearNumbones : option Z.
Variable strings0 : list stringentry.
Variable pData0 : Z.

Let out :=
  ConvertBones pMDL sizeof_mstudiobone sizeof_mstudiojigglebone FIX_OFFSET
    jigglebone_bone poses oldBones linearNumbones strings0 pData0.

(** The byte [jBone->bone] of a source jiggle record, as the map key. *)
Definition jiggleTarget (oldBone : mstudiobone_v191) : Z :=
  u8 (jigglebone_bone
        (oldJBone pMDL sizeof_mstudiojigglebone FIX_OFFSET oldBone)).

(** The keys offered to the map, in the order of the second loop. *)
Definition jiggleTargets : list Z :=
  (fun pb : nat * mstudiobone_v191 => jiggleTarget pb.2)
    <$> proceduralBones oldBones.

Lemma copyJiggle_length pBoneStart (J : list (nat * mstudiobone_v191)) :
  forall st,
  length (j_bones
            (fold_left
               (copyJiggle pMDL sizeof_mstudiobone sizeof_mstudiojigglebone
                  FIX_OFFSET jigglebone_bone pBoneStart) J st))
  = length (j_bones st).
Proof.
  induction J as [|pb J IH]; intros st; cbn [fold_left]; [done|].
  rewrite IH. cbn. by rewrite length_alter.
Qed.

Lemma copyJiggle_linearprocbones pBoneStart
    (J : list (nat * mstudiobone_v191)) :
  forall st,
  j_linearprocbones
    (fold_left
       (copyJiggle pMDL sizeof_mstudiobone sizeof_mstudiojigglebone
          FIX_OFFSET jigglebone_bone pBoneStart) J st)
  = insertTargets
      ((fun pb : nat * mstudiobone_v191 => jiggleTarget pb.2) <$> J)
      (j_linearprocbones st).
Proof.
  induction J as [|pb J IH]; intros st; [done|].
  rewrite fmap_cons. cbn [fold_left insertTargets]. by rewrite IH.
Qed.

Lemma jiggleTargets_bytes : Forall (fun b => 0 <= b < 256) jiggleTargets.
Proof.
  apply Forall_forall. intros x Hx.
  apply list_elem_of_fmap in Hx as (pb & -> & _).
  unfold jiggleTarget, u8. apply Z.mod_pos_bound. lia.
Qed.

(** The two tables and the count, in terms of the map. *)
Lemma ConvertBones_tables :
  let m := insertTargets jiggleTargets [] in
  procBoneTable out = m.*1
  /\ procBoneCount out = s32 (Z.of_nat (length m))
  /\ linearProcBones out
     = match m with
       | [] => []
       | _ => map (fun i => default 0xff (find (u8 (Z.of_nat i)) m))
                (seq 0 (length oldBones))
       end.
Proof.
  unfold out, ConvertBones, jiggleTargets.
  destruct (proceduralBones oldBones) as [|pb rest] eqn:HJ; [done|].
  unfold copyJiggles. rewrite HJ.
  rewrite copyJiggle_linearprocbones. cbn [j_linearprocbones].
  destruct (insertTargets _ _) as [|p m]; done.
Qed.

Lemma elem_of_jiggleTargets b :
  b ∈ jiggleTargets
  <-> exists i oldBone,
        oldBones !! i = Some oldBone
        /\ proctype oldBone = STUDIO_PROC_JIGGLE /\ b = jiggleTarget oldBone.
Proof.
  unfold jiggleTargets. rewrite list_elem_of_fmap. split.
  - intros ([i oldBone] & -> & Hin).
    apply elem_of_proceduralBones in Hin as [Hi Hj]. by exists i, oldBone.
  - intros (i & oldBone & Hi & Hj & ->). exists (i, oldBone).
    split; [done|]. by apply elem_of_proceduralBones.
Qed.

Lemma insertTargets_jiggle_sorted :
  StronglySorted Z.lt (insertTargets jiggleTargets []).*1.
Proof. apply insertTargets_sorted. rewrite fmap_nil. constructor. Qed.

Lemma insertTargets_jiggle_length :
  (length (insertTargets jiggleTargets []) <= 256)%nat.
Proof.
  rewrite <- (length_fmap fst).
  apply BoneStateBounds.NoDup_bytes_length.
  - apply Forall_forall. intros x Hx.
    apply insertTargets_keys in Hx as [Hx|Hx].
    + pose proof jiggleTargets_bytes as Hb. rewrite Forall_forall in Hb.
      by apply Hb.
    + rewrite fmap_nil in Hx. by apply elem_of_nil in Hx.
  - apply StronglySorted_lt_NoDup, insertTargets_jiggle_sorted.
Qed.

(** X4.  The converted skeleton has one bone per source bone.  Each
    converted bone, jiggle bone or not, has the source bone's flags with
    bit 0x40000 (used by bone merge) cleared and every other bit as it was,
    the source bone's parent, contents, surface-property lookup and physics
    bone, and bone controllers of -1. *)
Theorem bone_merge_flag_removed (i : nat) (oldBone : mstudiobone_v191) :
  oldBones !! i = Some oldBone ->
  length (bones out) = length oldBones
  /\ exists newBone,
       bones out !! i = Some newBone
       /\ Z.testbit (n_flags newBone) 18 = false
       /\ (forall n, 0 <= n -> n <> 18 ->
             Z.testbit (n_flags newBone) n = Z.testbit (flags oldBone) n)
       /\ n_parent newBone = parent oldBone
       /\ n_contents newBone = contents oldBone
       /\ n_surfacepropLookup newBone = surfacepropLookup oldBone
       /\ n_physicsbone newBone = physicsbone oldBone
       /\ n_bonecontroller newBone = -1.
Proof.
  intros Hi. split.
  - destruct (ConvertBones_shape pMDL sizeof_mstudiobone
                sizeof_mstudiojigglebone FIX_OFFSET jigglebone_bone poses
                oldBones linearNumbones strings0 pData0) as (_ & Hbones & _).
    unfold out. rewrite Hbones. unfold copyJiggles.
    rewrite copyJiggle_length. cbn [j_bones]. apply length_imap.
  - assert (Hflags : forall b : mstudiobone_v8,
              n_flags b = TranslateBoneFlags_191 (flags oldBone) ->
              Z.testbit (n_flags b) 18 = false
              /\ (forall n, 0 <= n -> n <> 18 ->
                    Z.testbit (n_flags b) n = Z.testbit (flags oldBone) n)).
    { intros b ->. split.
      - rewrite TranslateBoneFlags_191_bits by lia. apply andb_false_r.
      - intros n Hn Hne. rewrite TranslateBoneFlags_191_bits by lia.
        destruct (Z.eqb_spec n 18); [done|]. apply andb_true_r. }
    destruct (ConvertBones_bone pMDL sizeof_mstudiobone
                sizeof_mstudiojigglebone FIX_OFFSET jigglebone_bone poses
                oldBones linearNumbones strings0 pData0 i oldBone Hi)
      as [Hplain Hjig].
    assert (Hnew : exists newBone,
              bones out !! i = Some newBone
              /\ n_flags newBone = TranslateBoneFlags_191 (flags oldBone)
              /\ n_parent newBone = parent oldBone
              /\ n_contents newBone = contents oldBone
              /\ n_surfacepropLookup newBone = surfacepropLookup oldBone
              /\ n_physicsbone newBone = physicsbone oldBone
              /\ n_bonecontroller newBone = -1).
    { destruct (Z.eq_dec (proctype oldBone) STUDIO_PROC_JIGGLE) as [Hj|Hnj].
      - destruct (Hjig Hj) as (jBone & _ & Hb).
        eexists. split; [exact Hb|done].
      - eexists. split; [by apply Hplain|done]. }
    destruct Hnew as (newBone & Hb & Hf & Hrest).
    exists newBone. split; [exact Hb|].
    destruct (Hflags newBone Hf) as [H18 Hother].
    split; [exact H18|]. split; [exact Hother|exact Hrest].
Qed.

(** X5.  The procedural-bone table written behind the jiggle records is
    strictly ascending, holds exactly the bone bytes named by the jiggle
    records of the source's jiggle bones, and has at most 256 entries; the
    header's count is its length. *)
Theorem proc_bone_table_is_the_sorted_key_set :
  StronglySorted Z.lt (procBoneTable out)
  /\ (forall b,
        b ∈ procBoneTable out
        <-> exists i oldBone,
              oldBones !! i = Some oldBone
              /\ proctype oldBone = STUDIO_PROC_JIGGLE
              /\ b = jiggleTarget oldBone)
  /\ procBoneCount out = Z.of_nat (length (procBoneTable out))
  /\ (length (procBoneTable out) <= 256)%nat.
Proof.
  destruct ConvertBones_tables as (Htable & Hcount & _).
  fold out in Htable, Hcount.
  pose proof insertTargets_jiggle_length as Hlen.
  rewrite Htable, Hcount, length_fmap.
  split; [apply insertTargets_jiggle_sorted|].
  split; [|split; [apply s32_small; lia|done]].
  intros b. rewrite insertTargets_keys, fmap_nil, <- elem_of_jiggleTargets.
  split; [intros [H|H]; [done|by apply elem_of_nil in H]|by left].
Qed.

(** X6.  When the jiggle records, taken in bone order, name strictly
    ascending bones, the two tables are inverse to each other: the
    procedural-bone table lists the named bones in that order, the entry
    of a named bone in the linear table is its position in the
    procedural-bone table, and the entry of every other bone is 0xff. *)
Theorem proc_bone_tables_are_inverse :
  StronglySorted Z.lt jiggleTargets ->
  (length oldBones <= 256)%nat ->
  procBoneTable out = jiggleTargets
  /\ (forall k b,
        procBoneTable out !! k = Some b ->
        (Z.to_nat b < length oldBones)%nat ->
        linearProcBones out !! Z.to_nat b = Some (Z.of_nat k))
  /\ (forall i,
        (i < length oldBones)%nat -> jiggleTargets <> [] ->
        Z.of_nat i ∉ procBoneTable out ->
        linearProcBones out !! i = Some 0xff).
Proof.
  intros Hsorted Hbones.
  destruct ConvertBones_tables as (Htable & _ & Hlinear).
  fold out in Htable, Hlinear.
  pose proof insertTargets_jiggle_length as Hlen.
  pose proof insertTargets_jiggle_sorted as Hs.
  assert (Hm : insertTargets jiggleTargets []
               = imap (fun k t => (t, u8 (Z.of_nat k))) jiggleTargets).
  { rewrite insertTargets_ascending by (by rewrite fmap_nil).
    cbn [app length]. apply imap_ext. intros k x _. done. }
  assert (Hkeys : (insertTargets jiggleTargets []).*1 = jiggleTargets).
  { rewrite Hm, fmap_imap.
    rewrite (imap_ext _ (fun _ x => id x)) by done.
    by rewrite (imap_const id), list_fmap_id. }
  rewrite Htable, Hkeys. rewrite Hkeys in Hs.
  assert (Hentry : forall i, (i < length oldBones)%nat ->
            jiggleTargets <> [] ->
            linearProcBones out !! i
            = Some (default 0xff
                      (find (Z.of_nat i) (insertTargets jiggleTargets [])))).
  { intros i Hi Hne. rewrite Hlinear.
    destruct (insertTargets jiggleTargets []) as [|p m] eqn:Hins.
    { destruct Hne. by rewrite <- Hkeys. }
    rewrite list_lookup_fmap, lookup_seq_lt by done. cbn.
    unfold u8. rewrite Z.mod_small by lia. done. }
  split; [done|]. split.
  - intros k b Hk Hb.
    assert (Hne : jiggleTargets <> []) by (by destruct jiggleTargets).
    rewrite (Hentry _ Hb Hne).
    pose proof (lookup_lt_Some _ _ _ Hk) as Hklt.
    assert (Hbyte : 0 <= b < 256).
    { pose proof jiggleTargets_bytes as Hall.
      by apply (Forall_lookup_1 _ _ _ _ Hall Hk). }
    rewrite Z2Nat.id by lia.
    rewrite (find_lookup k b (u8 (Z.of_nat k))).
    + cbn. f_equal. unfold u8. apply Z.mod_small.
      rewrite Hm, length_imap in Hlen. lia.
    + rewrite Hkeys. by apply StronglySorted_lt_NoDup.
    + rewrite Hm, list_lookup_imap, Hk. done.
  - intros i Hi Hne Hnot. rewrite (Hentry _ Hi Hne).
    assert (Hnone : find (Z.of_nat i) (insertTargets jiggleTargets []) = None).
    { apply find_None. by rewrite Hkeys. }
    by rewrite Hnone.
Qed.

End Tables.

Lemma bone_merge_flag_removed_witness :
  sampleBones !! 1%nat = Some (sampleBone 5 16 0 8)
  /\ length (bones sampleConvertBones) = 3%nat
  /\ exists newBone,
       bones sampleConvertBones !! 1%nat = Some newBone
       /\ Z.testbit (n_flags newBone) 18 = false.
Proof.
  split; [reflexivity|].
  destruct (bone_merge_flag_removed (map Z.of_nat (seq 0 64)) 180 8
              (fun o => o) (fun bytes => default 0 (bytes !! 0%nat))
              (FromLinearBone, fun _ => IdentityTransform)
              sampleBones (Some 3) [] 1000 1%nat (sampleBone 5 16 0 8)
              eq_refl)
    as (Hlen & newBone & Hb & H18 & _).
  split; [exact Hlen|]. exists newBone. split; [exact Hb|exact H18].
Defined.

(** A skeleton of three bones whose second and third bone are jiggle bones;
    in the 64-byte file holding the bytes 0..63 their jiggle records start
    at offsets 1 and 2 and so name the bones 1 and 2. *)
Definition jiggleChain : list mstudiobone_v191 :=
  [sampleBone 0 0 0xFF 0; sampleBone 5 1 0 0; sampleBone 5 2 0 0].

Definition jiggleChainConverted : converted :=
  ConvertBones_191 (map Z.of_nat (seq 0 64)) 180 8 (fun o => o)
    (fun bytes => default 0 (bytes !! 0%nat)) jiggleChain (Some 3) [] 1000.

Example jiggleChain_tables :
  procBoneTable jiggleChainConverted = [1; 2]
  /\ linearProcBones jiggleChainConverted = [0xff; 0; 1]
  /\ procBoneCount jiggleChainConverted = 2.
Proof. vm_compute. done. Qed.

Lemma proc_bone_tables_are_inverse_witness :
  StronglySorted Z.lt
    (jiggleTargets (map Z.of_nat (seq 0 64)) 8 (fun o => o)
       (fun bytes => default 0 (bytes !! 0%nat)) jiggleChain)
  /\ (length jiggleChain <= 256)%nat
  /\ procBoneTable jiggleChainConverted !! 1%nat = Some 2
  /\ linearProcBones jiggleChainConverted !! 2%nat = Some 1.
Proof.
  assert (Hs : StronglySorted Z.lt
                 (jiggleTargets (map Z.of_nat (seq 0 64)) 8 (fun o => o)
                    (fun bytes => default 0 (bytes !! 0%nat)) jiggleChain)).
  { vm_compute. repeat constructor. }
  assert (Hlen : (length jiggleChain <= 256)%nat) by (cbn; lia).
  split; [exact Hs|]. split; [exact Hlen|]. split; [reflexivity|].
  destruct (proc_bone_tables_are_inverse (map Z.of_nat (seq 0 64)) 180 8
              (fun o => o) (fun bytes => default 0 (bytes !! 0%nat))
              (FromLinearBone, fun _ => IdentityTransform)
              jiggleChain (Some 3) [] 1000 Hs Hlen) as (_ & Hinv & _).
  apply (Hinv 1%nat 2); [reflexivity|cbn; lia].
Defined.

End BoneTables.

(* ------------------------------------------------------------------ *)
(** ** The vertex-geometry transcoder on consistent input: every store
       stays inside the output buffer ([ConvertVGData_191],
       [rmdl_191.cpp], lines 129-602) *)

Module VGBounds.
Import VertexFormat VG.

(** *** Rounding the cursor up to a multiple of 16 *)

Lemma land_lnot_15 (x : Z) : Z.land x (Z.lnot 15) = x / 16 * 16.
Proof.
  rewrite <- Z.ldiff_land. change 15 with (Z.ones 4).
  rewrite Z.ldiff_ones_r by lia.
  rewrite Z.shiftr_div_pow2, Z.shiftl_mul_pow2 by lia. reflexivity.
Qed.

Lemma align16_pWrite w : pWrite (align16 w) = (pWrite w + 15) / 16 * 16.
Proof. unfold align16. cbn [pWrite]. apply land_lnot_15. Qed.

Lemma align16_bounds w :
  pWrite w <= pWrite (align16 w) <= pWrite w + 15
  /\ pWrite (align16 w) mod 16 = 0.
Proof.
  rewrite align16_pWrite.
  pose proof (Z.div_mod (pWrite w + 15) 16 ltac:(lia)) as Hdm.
  pose proof (Z.mod_pos_bound (pWrite w + 15) 16 ltac:(lia)) as Hmod.
  split; [lia|]. apply Z.mod_mul. lia.
Qed.

(** *** Steps that only move the cursor forward *)

Definition sumZ (l : list Z) : Z := foldr Z.add 0 l.

(** A store that lies between two cursor positions. *)
Definition inside (lo hi : Z) (e : event) : Prop :=
  match e with
  | Store dst len => lo <= dst /\ 0 <= len /\ dst + len <= hi
  | _ => False
  end.

(** [f] appends stores to the trace, all of them between the old and the
    new cursor, and moves the cursor forward by at most [c]. *)
Definition grows (c : Z) (f : writer -> writer) : Prop :=
  forall w,
    exists new,
      trace (f w) = trace w ++ new
      /\ pWrite w <= pWrite (f w) <= pWrite w + c
      /\ Forall (inside (pWrite w) (pWrite (f w))) new.

Lemma inside_mono lo hi lo' hi' e :
  lo' <= lo -> hi <= hi' -> inside lo hi e -> inside lo' hi' e.
Proof. destruct e; cbn; [lia|done|done]. Qed.

Lemma grows_weaken c c' f : c <= c' -> grows c f -> grows c' f.
Proof.
  intros Hc Hf w. destruct (Hf w) as (new & Ht & Hp & Hin).
  exists new. split; [done|]. split; [lia|done].
Qed.

Lemma grows_same c : 0 <= c -> grows c (fun w => w).
Proof.
  intros Hc w. exists []. rewrite app_nil_r. split; [done|].
  split; [lia|constructor].
Qed.

Lemma grows_put len adv c :
  0 <= len <= adv -> adv <= c -> grows c (put len adv).
Proof.
  intros Hlen Hc w. exists [Store (pWrite w) len]. cbn.
  split; [done|]. split; [lia|]. repeat constructor; lia.
Qed.

Lemma grows_advance n c : 0 <= n <= c -> grows c (advance n).
Proof.
  intros Hn w. exists []. cbn. rewrite app_nil_r.
  split; [done|]. split; [lia|constructor].
Qed.

Lemma grows_align16 : grows 15 align16.
Proof.
  intros w. exists []. destruct (align16_bounds w) as [Hb _].
  split; [cbn; by rewrite app_nil_r|]. split; [done|constructor].
Qed.

Lemma grows_comp c1 c2 f g :
  grows c1 f -> grows c2 g -> grows (c1 + c2) (fun w => g (f w)).
Proof.
  intros Hf Hg w.
  destruct (Hf w) as (new1 & Ht1 & Hp1 & Hin1).
  destruct (Hg (f w)) as (new2 & Ht2 & Hp2 & Hin2).
  exists (new1 ++ new2). rewrite Ht2, Ht1, app_assoc.
  split; [done|]. split; [lia|].
  apply Forall_app. split.
  - eapply Forall_impl; [exact Hin1|]. intros e. apply inside_mono; lia.
  - eapply Forall_impl; [exact Hin2|]. intros e. apply inside_mono; lia.
Qed.

Lemma grows_fold {M : Type} (c : M -> Z) (f : M -> writer -> writer)
    (l : list M) :
  Forall (fun m => grows (c m) (f m)) l ->
  grows (sumZ (c <$> l)) (fun w => fold_left (fun w m => f m w) l w).
Proof.
  induction l as [|m l IH]; intros Hall; cbn [fold_left].
  - apply grows_same. cbn. lia.
  - apply Forall_cons in Hall as [Hm Hall].
    rewrite fmap_cons. cbn [sumZ foldr].
    apply (grows_comp _ _ (f m)
             (fun w => fold_left (fun w m => f m w) l w) Hm (IH Hall)).
Qed.

Lemma grows_iter c f n :
  grows c f -> grows (Z.of_nat n * c) (Nat.iter n f).
Proof.
  intros Hf. induction n as [|n IH].
  - cbn [Nat.iter]. apply (grows_same 0). lia.
  - replace (Z.of_nat (S n) * c) with (Z.of_nat n * c + c) by lia.
    apply (grows_comp _ _ (Nat.iter n f) f IH Hf).
Qed.

(** *** The meshes of a group, in the order of the loops *)

Definition lodMeshes (olod : option ModelLODHeader_rev4)
    : list MeshHeader_rev4 :=
  match olod with
  | None => []
  | Some lod => omap id (pMesh lod)
  end.

Definition meshes (g : VertexGroupHeader_rev4) : list MeshHeader_rev4 :=
  concat (lodMeshes <$> pLod g).

Lemma fold_left_omap {A : Type} (f : MeshHeader_rev4 -> A -> A)
    (l : list (option MeshHeader_rev4)) :
  forall a,
  fold_left (fun a om => match om with None => a | Some m => f m a end) l a
  = fold_left (fun a m => f m a) (omap id l) a.
Proof.
  induction l as [|[m|] l IH]; intros a; cbn; [done| |]; apply IH.
Qed.

Lemma forEachMesh_meshes {A : Type} (g : VertexGroupHeader_rev4)
    (f : MeshHeader_rev4 -> A -> A) (a : A) :
  forEachMesh g f a = fold_left (fun a m => f m a) (meshes g) a.
Proof.
  unfold forEachMesh, meshes. revert a.
  induction (pLod g) as [|[lod|] lods IH]; intros a; [done| |].
  - rewrite fmap_cons. cbn [concat fold_left lodMeshes].
    rewrite fold_left_app, <- fold_left_omap. apply IH.
  - rewrite fmap_cons. cbn [concat fold_left lodMeshes app]. apply IH.
Qed.

(** *** Sums over the meshes *)

Lemma sumZ_bounds (B : Z) (l : list Z) :
  Forall (fun x => 0 <= x <= B) l ->
  0 <= sumZ l <= Z.of_nat (length l) * B.
Proof.
  induction l as [|x l IH]; intros Hall; cbn [sumZ foldr length]; [lia|].
  apply Forall_cons in Hall as [Hx Hall]. specialize (IH Hall).
  unfold sumZ in IH. lia.
Qed.

Lemma fold_proj {T A M : Type} (F : T -> A) (g : M -> T -> T)
    (step : M -> A -> A) :
  (forall m t, F (g m t) = step m (F t)) ->
  forall l t0,
  F (fold_left (fun t m => g m t) l t0)
  = fold_left (fun a m => step m a) l (F t0).
Proof.
  intros Hstep l. induction l as [|m l IH]; intros t0; cbn; [done|].
  by rewrite IH, Hstep.
Qed.

(** A 64-bit counter that is advanced by [x m] for every mesh and does not
    wrap. *)
Lemma fold_sum {M : Type} (step : M -> Z -> Z) (x : M -> Z) (l : list M) :
  Forall (fun m => 0 <= x m
                   /\ forall a, 0 <= a -> a + x m < 2 ^ 64 ->
                                step m a = a + x m) l ->
  forall a0, 0 <= a0 -> a0 + sumZ (x <$> l) < 2 ^ 64 ->
  fold_left (fun a m => step m a) l a0 = a0 + sumZ (x <$> l).
Proof.
  induction l as [|m l IH]; intros Hall a0 Ha0 Hfit; cbn [fold_left].
  - cbn. lia.
  - apply Forall_cons in Hall as [[Hx Hstep] Hall].
    rewrite fmap_cons in Hfit |- *. cbn [sumZ foldr] in Hfit |- *.
    assert (Hrest : 0 <= sumZ (x <$> l)).
    { clear -Hall. induction l as [|m' l IH]; cbn; [lia|].
      apply Forall_cons in Hall as [[Hx _] Hall]. specialize (IH Hall).
      unfold sumZ in IH. lia. }
    unfold sumZ in Hrest.
    rewrite Hstep by lia. rewrite IH by (try done; unfold sumZ; lia).
    unfold sumZ. lia.
Qed.

(** *** Consistent meshes *)

(** The stride of the converted vertices of a mesh. *)
Definition newStride (m : MeshHeader_rev4) : Z :=
  CalculateVertexSize_191 (ConvertMeshFlags_191 (flags m)).

(** The strips written for a mesh. *)
Definition strips (m : MeshHeader_rev4) : Z :=
  if hasGeometry m then 1 else 0.

(** A mesh header whose unsigned fields hold what they stand for: counts
    and sizes in range, a stored vertex-buffer size of at most stride times
    count where the stored stride is the converted one, and vertex data
    made of bytes. *)
Definition consistentMesh (m : MeshHeader_rev4) : Prop :=
  0 <= vertCount m
  /\ 52 * vertCount m < 2 ^ 32
  /\ 0 <= indexCount m < 2 ^ 31
  /\ 0 <= extraBoneWeightSize m < 2 ^ 32
  /\ 0 <= vertBufferSize m
  /\ (vertCacheSize m = newStride m ->
      vertBufferSize m <= newStride m * vertCount m)
  /\ (forall verts, pVertices m = Some verts ->
        Forall (fun b => 0 <= b < 256) verts).

Lemma newStride_range m : 0 <= newStride m <= 52.
Proof. apply CalculateVertexSize_191_range. Qed.

Lemma grows_copyIndices m :
  consistentMesh m -> grows (2 * indexCount m) (copyIndices m).
Proof.
  intros (_ & _ & Hic & _). unfold copyIndices.
  destruct (pIndices m); [|apply grows_same; lia].
  destruct (Z.ltb_spec 0 (indexCount m)); [|apply grows_same; lia].
  rewrite u64_small by lia. apply grows_put; lia.
Qed.

Lemma grows_copyVertices_191 m :
  consistentMesh m ->
  grows (newStride m * vertCount m) (copyVertices_191 m).
Proof.
  intros (Hvc & _ & _ & _ & Hvbs & Hbuf & _).
  pose proof (newStride_range m) as Hs.
  unfold copyVertices_191. fold (newStride m).
  destruct (pVertices m); [|apply grows_same; nia].
  destruct (Z.ltb_spec 0 (vertCount m)); [|apply grows_same; nia].
  destruct (Z.eqb_spec (vertCacheSize m) (newStride m)) as [Heq|Hne];
    cbn [negb].
  - apply grows_put; [|lia]. specialize (Hbuf Heq). lia.
  - replace (newStride m * vertCount m)
      with (Z.of_nat (Z.to_nat (vertCount m)) * newStride m) by lia.
    apply grows_iter, grows_put; lia.
Qed.

Lemma grows_copyWeights m :
  consistentMesh m -> grows (extraBoneWeightSize m) (copyWeights m).
Proof.
  intros (_ & _ & _ & Hw & _). unfold copyWeights.
  destruct (pBoneWeights m); [|apply grows_same; lia].
  destruct (Z.ltb_spec 0 (extraBoneWeightSize m)); [|apply grows_same; lia].
  apply grows_put; lia.
Qed.

Lemma grows_writeStrip m :
  grows (strips m * sizeof_StripHeader) (writeStrip m).
Proof.
  unfold writeStrip, strips, sizeof_StripHeader.
  destruct (hasGeometry m); [apply grows_put; lia|apply grows_same; lia].
Qed.

(** *** The totals of the first pass *)

Lemma scanBoneIndices_range verts stride count mx :
  Forall (fun b => 0 <= b < 256) verts ->
  0 <= mx <= 255 ->
  0 <= scanBoneIndices verts stride count mx <= 255.
Proof.
  intros Hbytes. unfold scanBoneIndices.
  generalize (seq 0 (Z.to_nat count)). intros vs. revert mx.
  induction vs as [|v vs IH]; intros mx Hmx; cbn [fold_left]; [done|].
  apply IH.
  repeat match goal with
  | |- context [BoneState.byte_at verts ?o] =>
      let H := fresh "Hb" in
      pose proof (BoneState.byte_at_range verts Hbytes o) as H;
      generalize dependent (BoneState.byte_at verts o); intros
  end.
  repeat match goal with
  | |- context [?a <? ?b] => destruct (Z.ltb_spec a b)
  end; lia.
Qed.

Section Totals.

Variable l : list MeshHeader_rev4.
Hypothesis consistent : Forall consistentMesh l.
Hypothesis few : Z.of_nat (length l) < 2 ^ 15.

Let t := fold_left (fun t m => countMesh_191 m t) l noTotals.

Lemma sum_vertCount_bounds :
  0 <= sumZ (vertCount <$> l) <= Z.of_nat (length l) * 2 ^ 32.
Proof.
  rewrite <- (length_fmap vertCount). apply sumZ_bounds.
  apply Forall_fmap. eapply Forall_impl; [exact consistent|].
  intros m (? & ? & _). cbn. lia.
Qed.

Lemma sum_vertexBuf_bounds :
  0 <= sumZ ((fun m => newStride m * vertCount m) <$> l)
    <= Z.of_nat (length l) * 2 ^ 32.
Proof.
  rewrite <- (length_fmap (fun m => newStride m * vertCount m)).
  apply sumZ_bounds.
  apply Forall_fmap. eapply Forall_impl; [exact consistent|].
  intros m (? & ? & _). pose proof (newStride_range m). cbn. nia.
Qed.

Lemma sum_indexBuf_bounds :
  0 <= sumZ ((fun m => 2 * indexCount m) <$> l)
    <= Z.of_nat (length l) * 2 ^ 32.
Proof.
  rewrite <- (length_fmap (fun m => 2 * indexCount m)).
  apply sumZ_bounds.
  apply Forall_fmap. eapply Forall_impl; [exact consistent|].
  intros m (_ & _ & ? & _). cbn. lia.
Qed.

Lemma sum_weights_bounds :
  0 <= sumZ (extraBoneWeightSize <$> l) <= Z.of_nat (length l) * 2 ^ 32.
Proof.
  rewrite <- (length_fmap extraBoneWeightSize). apply sumZ_bounds.
  apply Forall_fmap. eapply Forall_impl; [exact consistent|].
  intros m (_ & _ & _ & ? & _). cbn. lia.
Qed.

Lemma sum_strips_bounds :
  0 <= sumZ (strips <$> l) <= Z.of_nat (length l) * 1.
Proof.
  rewrite <- (length_fmap strips). apply sumZ_bounds.
  apply Forall_fmap, Forall_forall. intros m _. unfold strips. cbn.
  destruct (hasGeometry m); lia.
Qed.

Lemma sum_ones : sumZ ((fun _ => 1) <$> l) = Z.of_nat (length l).
Proof.
  clear. induction l as [|m l' IH]; [done|].
  rewrite fmap_cons. cbn [sumZ foldr length]. unfold sumZ in IH. lia.
Qed.

(** Without wrap-around the totals are the sums over the meshes. *)
Lemma totals_are_sums :
  totalMeshCount t = Z.of_nat (length l)
  /\ totalVertexCount t = sumZ (vertCount <$> l)
  /\ totalVertexBufSize t
     = sumZ ((fun m => newStride m * vertCount m) <$> l)
  /\ totalIndexBufSize t = sumZ ((fun m => 2 * indexCount m) <$> l)
  /\ totalExtraWeightSize t = sumZ (extraBoneWeightSize <$> l)
  /\ totalStripCount t = sumZ (strips <$> l)
  /\ 0 <= maxBoneIndex t <= 255.
Proof.
  pose proof sum_vertCount_bounds. pose proof sum_vertexBuf_bounds.
  pose proof sum_indexBuf_bounds. pose proof sum_weights_bounds.
  pose proof sum_strips_bounds. pose proof sum_ones.
  unfold t.
  split; [|split; [|split; [|split; [|split; [|split]]]]].
  - rewrite (fold_proj totalMeshCount _ (fun _ a => u64 (a + 1)))
      by done.
    rewrite (fold_sum _ (fun _ => 1)); cbn [totalMeshCount noTotals];
      [lia| |lia|lia].
    apply Forall_forall. intros m _. split; [lia|].
    intros a Ha Hfit. apply u64_small. lia.
  - rewrite (fold_proj totalVertexCount _
               (fun m a => u64 (a + vertCount m))) by done.
    rewrite (fold_sum _ vertCount); cbn [totalVertexCount noTotals];
      [lia| |lia|lia].
    eapply Forall_impl; [exact consistent|].
    intros m (? & _). split; [lia|].
    intros a Ha Hfit. apply u64_small. lia.
  - rewrite (fold_proj totalVertexBufSize _
               (fun m a => u64 (a + u32 (newStride m * vertCount m))))
      by done.
    rewrite (fold_sum _ (fun m => newStride m * vertCount m));
      cbn [totalVertexBufSize noTotals]; [lia| |lia|lia].
    eapply Forall_impl; [exact consistent|].
    intros m (? & ? & _). pose proof (newStride_range m).
    split; [nia|].
    intros a Ha Hfit. rewrite u32_small by nia. apply u64_small. lia.
  - rewrite (fold_proj totalIndexBufSize _
               (fun m a => u64 (a + u64 (indexCount m * 2)))) by done.
    rewrite (fold_sum _ (fun m => 2 * indexCount m));
      cbn [totalIndexBufSize noTotals]; [lia| |lia|lia].
    eapply Forall_impl; [exact consistent|].
    intros m (_ & _ & ? & _). split; [lia|].
    intros a Ha Hfit. rewrite (u64_small (indexCount m * 2)) by lia.
    rewrite u64_small by lia. lia.
  - rewrite (fold_proj totalExtraWeightSize _
               (fun m a => u64 (a + extraBoneWeightSize m))) by done.
    rewrite (fold_sum _ extraBoneWeightSize);
      cbn [totalExtraWeightSize noTotals]; [lia| |lia|lia].
    eapply Forall_impl; [exact consistent|].
    intros m (_ & _ & _ & ? & _). split; [lia|].
    intros a Ha Hfit. apply u64_small. lia.
  - rewrite (fold_proj totalStripCount _
               (fun m a => if hasGeometry m then u64 (a + 1) else a))
      by done.
    rewrite (fold_sum _ strips); cbn [totalStripCount noTotals];
      [lia| |lia|lia].
    apply Forall_forall. intros m _. unfold strips.
    destruct (hasGeometry m); (split; [lia|]); intros a Ha Hfit;
      [apply u64_small|]; lia.
  - rewrite (fold_proj maxBoneIndex _
               (fun m mx =>
                  if test (flags m) 0x1000 then
                    match pVertices m with
                    | Some verts =>
                        if 0 <? vertCount m then
                          scanBoneIndices verts (vertCacheSize m)
                            (vertCount m) mx
                        else mx
                    | None => mx
                    end
                  else mx)) by done.
    cbn [maxBoneIndex noTotals].
    assert (Hgen : forall mx, 0 <= mx <= 255 ->
              0 <= fold_left
                     (fun mx m =>
                        if test (flags m) 0x1000 then
                          match pVertices m with
                          | Some verts =>
                              if 0 <? vertCount m then
                                scanBoneIndices verts (vertCacheSize m)
                                  (vertCount m) mx
                              else mx
                          | None => mx
                          end
                        else mx) l mx <= 255).
    { clear -consistent. induction l as [|m l' IH]; intros mx Hmx;
        cbn [fold_left]; [done|].
      apply Forall_cons in consistent as [Hm Hl]. apply (IH Hl).
      destruct Hm as (_ & _ & _ & _ & _ & _ & Hbytes).
      destruct (test (flags m) 0x1000); [|done].
      destruct (pVertices m) as [verts|]; [|done].
      destruct (0 <? vertCount m); [|done].
      apply scanBoneIndices_range; [by apply Hbytes|done]. }
    apply Hgen. lia.
Qed.

End Totals.

(** *** The second pass: where the header stores go *)

Lemma s16_small x : - 2 ^ 15 <= x < 2 ^ 15 -> s16 x = x.
Proof. intros H. unfold s16. rewrite Z.mod_small; lia. Qed.

(** A store of one LOD header or of one mesh header, by its index. *)
Definition headerStore (pLodStart pMeshStart : Z) (i0 i1 k0 k1 : Z)
    (e : event) : Prop :=
  (exists i, i0 <= i < i1
             /\ e = Store (pLodStart + i * sizeof_ModelLODHeader)
                      sizeof_ModelLODHeader)
  \/ (exists k, k0 <= k < k1
                /\ e = Store (pMeshStart + k * sizeof_MeshHeader)
                         sizeof_MeshHeader).

Lemma headerStore_mono pL pM i0 i1 k0 k1 i0' i1' k0' k1' e :
  i0' <= i0 -> i1 <= i1' -> k0' <= k0 -> k1 <= k1' ->
  headerStore pL pM i0 i1 k0 k1 e -> headerStore pL pM i0' i1' k0' k1' e.
Proof.
  intros ? ? ? ? [(i & Hi & ->)|(k & Hk & ->)].
  - left. exists i. split; [lia|done].
  - right. exists k. split; [lia|done].
Qed.

Lemma fillMesh_fold pL pM i0 (ms : list MeshHeader_rev4) :
  forall f0,
  0 <= meshStartIdx f0 ->
  meshStartIdx f0 + Z.of_nat (length ms) < 2 ^ 15 ->
  let f1 := fold_left (fun f m => fillMesh_191 pM m f) ms f0 in
  meshStartIdx f1 = meshStartIdx f0 + Z.of_nat (length ms)
  /\ length (outMeshes f1) = (length (outMeshes f0) + length ms)%nat
  /\ exists new,
       fillTrace f1 = fillTrace f0 ++ new
       /\ Forall (headerStore pL pM i0 i0
                    (meshStartIdx f0) (meshStartIdx f1)) new.
Proof.
  induction ms as [|m ms IH]; intros f0 Hnn Hfit; cbn [fold_left].
  - cbn. split; [lia|]. split; [lia|]. exists []. rewrite app_nil_r.
    split; [done|constructor].
  - cbn [length] in Hfit.
    destruct (IH (fillMesh_191 pM m f0)) as (Hidx & Hlen & new & Ht & Hnew).
    { cbn. rewrite s16_small by lia. lia. }
    { cbn. rewrite s16_small by lia. lia. }
    cbn [fillMesh_191 meshStartIdx outMeshes fillTrace] in Hidx, Hlen, Ht, Hnew.
    rewrite s16_small in Hidx, Hnew by lia.
    rewrite length_app in Hlen. cbn [length] in Hlen |- *.
    split; [lia|]. split; [lia|].
    eexists. split; [rewrite Ht, <- app_assoc; reflexivity|].
    cbn [app]. constructor.
    + right. exists (meshStartIdx f0). split; [lia|done].
    + eapply Forall_impl; [exact Hnew|]. intros e.
      apply headerStore_mono; lia.
Qed.

Lemma fillLod_fold pL pM (lods : list (option ModelLODHeader_rev4)) :
  forall i0 f0,
  0 <= meshStartIdx f0 ->
  meshStartIdx f0 + Z.of_nat (length (concat (lodMeshes <$> lods))) < 2 ^ 15 ->
  let r := fold_left (fillLod_191 pL pM) lods (i0, f0) in
  r.1 = i0 + Z.of_nat (length lods)
  /\ meshStartIdx r.2
     = meshStartIdx f0 + Z.of_nat (length (concat (lodMeshes <$> lods)))
  /\ length (outMeshes r.2)
     = (length (outMeshes f0) + length (concat (lodMeshes <$> lods)))%nat
  /\ exists new,
       fillTrace r.2 = fillTrace f0 ++ new
       /\ Forall (headerStore pL pM i0 r.1
                    (meshStartIdx f0) (meshStartIdx r.2)) new.
Proof.
  induction lods as [|olod lods IH]; intros i0 f0 Hnn Hfit; cbn [fold_left].
  - cbn. split; [lia|]. split; [lia|]. split; [lia|].
    exists []. rewrite app_nil_r. split; [done|constructor].
  - rewrite fmap_cons in Hfit |- *. cbn [concat] in Hfit |- *.
    rewrite length_app in Hfit |- *. cbn [length].
    destruct olod as [lod|]; cbn [fillLod_191 lodMeshes] in *.
    + rewrite fold_left_omap.
      match goal with
      | |- context [fold_left (fun a m => fillMesh_191 pM m a) _ ?start] =>
          set (f0' := start)
      end.
      destruct (fillMesh_fold pL pM i0 (omap id (pMesh lod)) f0')
        as (Hidx1 & Hlen1 & new1 & Ht1 & Hnew1); [done|cbn; lia|].
      cbn [meshStartIdx outMeshes fillTrace f0'] in Hidx1, Hlen1, Ht1, Hnew1.
      match goal with
      | |- context [fold_left (fillLod_191 pL pM) lods (?i, ?f)] =>
          destruct (IH i f) as (Hi2 & Hidx2 & Hlen2 & new2 & Ht2 & Hnew2);
            [lia|lia|]
      end.
      rewrite Hi2, Hidx2, Hlen2, Hidx1, Hlen1. rewrite Hi2, Hidx2, Hidx1 in Hnew2.
      split; [lia|]. split; [lia|]. split; [lia|].
      eexists. split; [rewrite Ht2, Ht1, <- !app_assoc; reflexivity|].
      cbn [app]. constructor; [|apply Forall_app; split].
      * left. exists i0. split; [lia|done].
      * eapply Forall_impl; [exact Hnew1|]. intros e.
        apply headerStore_mono; lia.
      * eapply Forall_impl; [exact Hnew2|]. intros e.
        apply headerStore_mono; lia.
    + cbn [length app] in Hfit |- *.
      destruct (IH (i0 + 1) f0) as (Hi2 & Hidx2 & Hlen2 & new2 & Ht2 & Hnew2);
        [lia|lia|].
      rewrite Hi2, Hidx2, Hlen2. rewrite Hi2, Hidx2 in Hnew2.
      split; [lia|]. split; [lia|]. split; [lia|].
      exists new2. split; [done|].
      eapply Forall_impl; [exact Hnew2|]. intros e.
      apply headerStore_mono; lia.
Qed.

(** *** The write pass in three stages *)

(** The header and the bone-state table; the cursor then stands at the
    mesh headers. *)
Definition headStage (boneStates : list Z) (w : writer) : writer :=
  let nStates := Z.of_nat (length boneStates) in
  let w := put sizeof_VertexGroupHeader sizeof_VertexGroupHeader w in
  match boneStates with [] => w | _ => put nStates nStates w end.

(** Behind the mesh headers: indices, vertices, weights and the unknown
    entries; the cursor then stands at the LOD headers. *)
Definition bodyRest (g : VertexGroupHeader_rev4) (t : totals)
    (w : writer) : writer :=
  let unknownCount := totalMeshCount t / lodCount g in
  let w := align16 w in
  let w := forEachMesh g copyIndices w in
  let w := align16 w in
  let w := forEachMesh g copyVertices_191 w in
  let w := align16 w in
  let w := forEachMesh g copyWeights w in
  if 0 <? unknownCount
  then put (unknownCount * sizeof_UnkVgData)
         (unknownCount * sizeof_UnkVgData) w
  else w.

Definition bodyStage (g : VertexGroupHeader_rev4) (t : totals)
    (w : writer) : writer :=
  bodyRest g t (advance (totalMeshCount t * sizeof_MeshHeader) w).

(** Behind the LOD headers: legacy weights and strips. *)
Definition tailRest (g : VertexGroupHeader_rev4) (t : totals)
    (w : writer) : writer :=
  let w := Nat.iter (Z.to_nat (totalVertexCount t)) (put 16 16) w in
  forEachMesh g writeStrip w.

Definition tailStage (g : VertexGroupHeader_rev4) (t : totals)
    (w : writer) : writer :=
  tailRest g t (advance (lodCount g * sizeof_ModelLODHeader) w).

Definition bufferSize (g : VertexGroupHeader_rev4) (t : totals)
    (nStates : Z) : Z :=
  u64 (sizeof_VertexGroupHeader + nStates
       + totalMeshCount t * sizeof_MeshHeader
       + totalIndexBufSize t + 16
       + totalVertexBufSize t + 16
       + totalExtraWeightSize t
       + totalMeshCount t / lodCount g * sizeof_UnkVgData
       + lodCount g * sizeof_ModelLODHeader
       + u64 (totalVertexCount t * 16)
       + totalStripCount t * sizeof_StripHeader
       + 4096).

(** [ConvertVGData_191] in terms of the stages. *)
Lemma ConvertVGData_191_stages g h d r :
  ConvertVGData_191 g h d = Some r ->
  let t := forEachMesh g countMesh_191 noTotals in
  let w1 := headStage (boneStates r) {| pWrite := 0; trace := [] |} in
  let w2 := bodyStage g t w1 in
  let w3 := tailStage g t w2 in
  let f :=
    (fold_left (fillLod_191 (pWrite w2) (pWrite w1)) (pLod g)
       (0, noFill)).2 in
  lodCount g <> 0
  /\ boneStates r
     = (BoneState.recoverBoneStates_191 h d (maxBoneIndex t)).1
  /\ outputBufSize r = bufferSize g t (Z.of_nat (length (boneStates r)))
  /\ outMeshHeaders r = outMeshes f
  /\ h_meshCount (outHdr r) = totalMeshCount t
  /\ h_meshOffset (outHdr r) = pWrite w1
  /\ h_lodOffset (outHdr r) = pWrite w2
  /\ h_dataSize (outHdr r) = s32 (pWrite w3)
  /\ events r
     = trace w3 ++ fillTrace f
       ++ (if outputBufSize r <? pWrite w3
           then [OverflowReport (pWrite w3 - outputBufSize r)] else [])
       ++ [FileWrite (s32 (pWrite w3))].
Proof.
  unfold ConvertVGData_191.
  destruct (Z.eqb_spec (lodCount g) 0) as [|Hlod]; [done|].
  destruct (BoneState.recoverBoneStates_191 h d _) as [bs log] eqn:Hrec.
  intros [= <-]. cbn [boneStates outputBufSize outMeshHeaders outHdr events
                      h_meshCount h_meshOffset h_lodOffset h_dataSize fst].
  split; [done|]. repeat split.
Qed.

(** The recovered table has at most 65536 entries. *)
Lemma recoverBoneStates_191_length h d mx :
  (forall hdr, h = Some hdr -> BoneState.boneStateCount hdr < 2 ^ 16) ->
  0 <= mx <= 255 ->
  Z.of_nat (length (BoneState.recoverBoneStates_191 h d mx).1) <= 2 ^ 16.
Proof.
  intros Hhdr Hmx.
  assert (Hseq : Z.of_nat (length (BoneState.sequential (Z.to_nat (mx + 1))))
                 <= 2 ^ 16).
  { rewrite BoneState.sequential_length. lia. }
  assert (Hrun : forall hdr data off, h = Some hdr ->
            Z.of_nat (length (BoneState.run data off
                                (Z.to_nat (BoneState.boneStateCount hdr))))
            <= 2 ^ 16).
  { intros hdr data off Hh. rewrite BoneState.run_length.
    specialize (Hhdr hdr Hh). lia. }
  unfold BoneState.recoverBoneStates_191, BoneState.lookupBoneStates.
  destruct h as [hdr|]; [|by destruct (0 <? mx)].
  destruct d as [data|]; [|by destruct (0 <? mx)].
  destruct (_ && _); [|by destruct (0 <? mx)].
  destruct (BoneState.FindBoneStateData_191 _ _ _) as [off|].
  - specialize (Hrun hdr data off eq_refl).
    destruct (BoneState.run data off _); [by destruct (0 <? mx)|done].
  - destruct (BoneState.headerTableOK data hdr); [|by destruct (0 <? mx)].
    specialize (Hrun hdr data (BoneState.pBoneStates hdr) eq_refl).
    destruct (BoneState.run data _ _); [by destruct (0 <? mx)|done].
Qed.

(** *** The cursor through the stages *)

(** From [w] the writer [w'] is reached by stores between the two cursors,
    the cursor moving forward by at most [c]. *)
Definition reach (c : Z) (w w' : writer) : Prop :=
  exists new,
    trace w' = trace w ++ new
    /\ pWrite w <= pWrite w' <= pWrite w + c
    /\ Forall (inside (pWrite w) (pWrite w')) new.

Lemma grows_reach c f w : grows c f -> reach c w (f w).
Proof. intros H. exact (H w). Qed.

Lemma reach_trans c1 c2 w w' w'' :
  reach c1 w w' -> reach c2 w' w'' -> reach (c1 + c2) w w''.
Proof.
  intros (new1 & Ht1 & Hp1 & Hin1) (new2 & Ht2 & Hp2 & Hin2).
  exists (new1 ++ new2). rewrite Ht2, Ht1, app_assoc.
  split; [done|]. split; [lia|].
  apply Forall_app. split.
  - eapply Forall_impl; [exact Hin1|]. intros e. apply inside_mono; lia.
  - eapply Forall_impl; [exact Hin2|]. intros e. apply inside_mono; lia.
Qed.

Lemma reach_weaken c c' w w' : c <= c' -> reach c w w' -> reach c' w w'.
Proof.
  intros Hc (new & Ht & Hp & Hin). exists new.
  split; [done|]. split; [lia|done].
Qed.

Lemma reach_forEachMesh g (c : MeshHeader_rev4 -> Z)
    (f : MeshHeader_rev4 -> writer -> writer) w :
  Forall (fun m => grows (c m) (f m)) (meshes g) ->
  reach (sumZ (c <$> meshes g)) w (forEachMesh g f w).
Proof.
  intros Hall. rewrite forEachMesh_meshes.
  apply (grows_fold c f (meshes g) Hall w).
Qed.

Lemma reach_headStage bs w :
  reach (sizeof_VertexGroupHeader + Z.of_nat (length bs)) w (headStage bs w).
Proof.
  unfold headStage, sizeof_VertexGroupHeader.
  destruct bs as [|b bs].
  - apply (reach_weaken 224); [cbn; lia|].
    apply grows_reach, grows_put; lia.
  - eapply reach_trans.
    + apply grows_reach, (grows_put 224 224 224); lia.
    + apply grows_reach, grows_put; lia.
Qed.

Lemma reach_bodyRest g t w :
  Forall consistentMesh (meshes g) ->
  0 <= totalMeshCount t / lodCount g ->
  reach (15 + sumZ ((fun m => 2 * indexCount m) <$> meshes g)
         + 15 + sumZ ((fun m => newStride m * vertCount m) <$> meshes g)
         + 15 + sumZ (extraBoneWeightSize <$> meshes g)
         + totalMeshCount t / lodCount g * sizeof_UnkVgData)
    w (bodyRest g t w).
Proof.
  intros Hcons Hunk. unfold bodyRest, sizeof_UnkVgData.
  eapply reach_trans.
  - eapply reach_trans.
    + eapply reach_trans.
      * eapply reach_trans.
        -- eapply reach_trans.
           ++ eapply reach_trans.
              ** apply grows_reach, grows_align16.
              ** apply (reach_forEachMesh g (fun m => 2 * indexCount m)).
                 eapply Forall_impl; [exact Hcons|].
                 intros m. apply grows_copyIndices.
           ++ apply grows_reach, grows_align16.
        -- apply (reach_forEachMesh g (fun m => newStride m * vertCount m)).
           eapply Forall_impl; [exact Hcons|].
           intros m. apply grows_copyVertices_191.
      * apply grows_reach, grows_align16.
    + apply (reach_forEachMesh g extraBoneWeightSize).
      eapply Forall_impl; [exact Hcons|].
      intros m. apply grows_copyWeights.
  - destruct (0 <? totalMeshCount t / lodCount g).
    + apply grows_reach, grows_put; lia.
    + apply (grows_reach _ (fun w => w)), grows_same. lia.
Qed.

Lemma reach_tailRest g t w :
  0 <= totalVertexCount t ->
  reach (totalVertexCount t * 16
         + sumZ ((fun m => strips m * sizeof_StripHeader) <$> meshes g))
    w (tailRest g t w).
Proof.
  intros Hvc. unfold tailRest.
  eapply reach_trans.
  - replace (totalVertexCount t * 16)
      with (Z.of_nat (Z.to_nat (totalVertexCount t)) * 16) by lia.
    apply (grows_reach _
             (Nat.iter (Z.to_nat (totalVertexCount t)) (put 16 16))),
      grows_iter, grows_put; lia.
  - apply (reach_forEachMesh g (fun m => strips m * sizeof_StripHeader)).
    apply Forall_forall. intros m _. apply grows_writeStrip.
Qed.

Lemma sumZ_scale (k : Z) (x : MeshHeader_rev4 -> Z) (l : list MeshHeader_rev4) :
  sumZ ((fun m => x m * k) <$> l) = sumZ (x <$> l) * k.
Proof.
  induction l as [|m l IH]; [done|].
  rewrite !fmap_cons. cbn [sumZ foldr]. unfold sumZ in IH. lia.
Qed.

(** What the final theorem says of one event. *)
Definition safeEvent (bufSize : Z) (e : event) : Prop :=
  match e with
  | Store dst len => 0 <= dst /\ 0 <= len /\ dst + len <= bufSize
  | OverflowReport _ => False
  | FileWrite len => bufSize < 2 ^ 31 -> 0 <= len <= bufSize
  end.

(** X7.  On a vertex group of fewer than 32768 consistent meshes and LODs
    (counts and sizes in range, the stored vertex-buffer size at most
    stride times count where the converter copies it whole, vertex data
    made of bytes, a declared bone-state count below 65536) every store of
    the v19.1 converter lies inside the output buffer, the overflow report
    is never made, and the file written is no longer than the buffer.  The
    header's mesh count and the number of mesh headers written are the
    number of non-null meshes. *)
Theorem consistent_group_stays_inside_the_buffer
    (g : VertexGroupHeader_rev4) (h : option BoneState.studiohdr)
    (d : option (list Z)) (r : converted) :
  Forall consistentMesh (meshes g) ->
  Z.of_nat (length (meshes g)) < 2 ^ 15 ->
  lodCount g < 2 ^ 15 ->
  (forall hdr, h = Some hdr -> BoneState.boneStateCount hdr < 2 ^ 16) ->
  ConvertVGData_191 g h d = Some r ->
  Forall (safeEvent (outputBufSize r)) (events r)
  /\ h_meshCount (outHdr r) = Z.of_nat (length (meshes g))
  /\ length (outMeshHeaders r) = length (meshes g).
Proof.
  intros Hcons Hfew Hlods Hhdr Hconv.
  pose proof (ConvertVGData_191_stages g h d r Hconv) as Hst.
  cbv zeta in Hst.
  set (t := forEachMesh g countMesh_191 noTotals) in *.
  set (w0 := {| pWrite := 0; trace := [] |}) in *.
  set (w1 := headStage (boneStates r) w0) in *.
  set (w2 := bodyStage g t w1) in *.
  set (w3 := tailStage g t w2) in *.
  destruct Hst as (Hlod & Hbs & Hsize & Hmh & Hmc & _ & _ & _ & Hev).
  pose proof (totals_are_sums (meshes g) Hcons Hfew) as Ht.
  cbv zeta in Ht. rewrite <- forEachMesh_meshes in Ht. fold t in Ht.
  destruct Ht as (HM & HVC & HV & HI & HW & HS & Hmx).
  pose proof (sum_vertCount_bounds (meshes g) Hcons) as BVC.
  pose proof (sum_vertexBuf_bounds (meshes g) Hcons) as BV.
  pose proof (sum_indexBuf_bounds (meshes g) Hcons) as BI.
  pose proof (sum_weights_bounds (meshes g) Hcons) as BW.
  pose proof (sum_strips_bounds (meshes g)) as BS.
  assert (Hn : Z.of_nat (length (boneStates r)) <= 2 ^ 16).
  { rewrite Hbs. by apply recoverBoneStates_191_length. }
  assert (HL : 0 < lodCount g) by (unfold lodCount in *; lia).
  assert (HU : 0 <= totalMeshCount t / lodCount g <= totalMeshCount t).
  { split; [apply Z.div_pos; lia|].
    apply Z.div_le_upper_bound; [lia|]. nia. }
  (* the cursor, stage by stage *)
  pose proof (reach_headStage (boneStates r) w0) as R1. fold w1 in R1.
  set (a2 := advance (totalMeshCount t * sizeof_MeshHeader) w1).
  assert (R2 : reach (totalMeshCount t * sizeof_MeshHeader) w1 a2).
  { apply grows_reach, grows_advance. unfold sizeof_MeshHeader. lia. }
  pose proof (reach_bodyRest g t a2 Hcons (proj1 HU)) as R3.
  change (bodyRest g t a2) with w2 in R3.
  set (a3 := advance (lodCount g * sizeof_ModelLODHeader) w2).
  assert (R4 : reach (lodCount g * sizeof_ModelLODHeader) w2 a3).
  { apply grows_reach, grows_advance. unfold sizeof_ModelLODHeader. lia. }
  pose proof (reach_tailRest g t a3 ltac:(lia)) as R5.
  change (tailRest g t a3) with w3 in R5.
  rewrite sumZ_scale in R5.
  pose proof (reach_trans _ _ _ _ _
                (reach_trans _ _ _ _ _
                   (reach_trans _ _ _ _ _ (reach_trans _ _ _ _ _ R1 R2) R3)
                   R4) R5) as Rall.
  rewrite <- HVC, <- HV, <- HI, <- HW, <- HS in *.
  assert (Hp1 : 0 <= pWrite w1)
    by (destruct R1 as (_ & _ & Hp & _); cbn in Hp; lia).
  assert (Hp2 : pWrite w1 + totalMeshCount t * sizeof_MeshHeader
                <= pWrite w2).
  { destruct R3 as (_ & _ & Hp & _). cbn in Hp. lia. }
  assert (Hp3 : pWrite w2 + lodCount g * sizeof_ModelLODHeader <= pWrite w3).
  { destruct R5 as (_ & _ & Hp & _). cbn in Hp. lia. }
  assert (Hfit : pWrite w3 <= outputBufSize r).
  { destruct Rall as (_ & _ & Hp & _). change (pWrite w0) with 0 in Hp.
    rewrite Hsize. unfold bufferSize.
    unfold sizeof_VertexGroupHeader, sizeof_MeshHeader, sizeof_UnkVgData,
      sizeof_ModelLODHeader, sizeof_StripHeader in *.
    rewrite (u64_small (totalVertexCount t * 16)) by lia.
    rewrite u64_small by lia. lia. }
  (* the header stores of the second pass *)
  destruct (fillLod_fold (pWrite w2) (pWrite w1) (pLod g) 0 noFill)
    as (Hidx & Hmsi & Hlen & newf & Hft & Hnewf).
  { cbn. lia. }
  { cbn. fold (meshes g). lia. }
  cbn [noFill meshStartIdx outMeshes fillTrace length app] in Hidx, Hmsi, Hlen,
    Hft, Hnewf.
  fold (meshes g) in Hmsi, Hlen, Hnewf. fold (lodCount g) in Hidx.
  rewrite Hidx, Hmsi, <- HM in Hnewf.
  split; [|split; [lia|by rewrite Hmh, Hlen]].
  rewrite Hev. apply Forall_app. split; [|apply Forall_app; split].
  - destruct Rall as (new & Htr & _ & Hin).
    change (trace w0) with (@nil event) in Htr. cbn [app] in Htr.
    change (pWrite w0) with 0 in Hin.
    rewrite Htr. eapply Forall_impl; [exact Hin|].
    intros [dst len| |]; cbn [inside safeEvent]; [|done|done]. lia.
  - rewrite Hft. eapply Forall_impl; [exact Hnewf|].
    unfold sizeof_MeshHeader, sizeof_ModelLODHeader in *.
    intros e [(i & Hi & ->)|(k & Hk & ->)]; cbn [safeEvent];
      unfold sizeof_MeshHeader, sizeof_ModelLODHeader; lia.
  - destruct (Z.ltb_spec (outputBufSize r) (pWrite w3)); [lia|].
    cbn [app]. constructor; [|constructor].
    cbn [safeEvent]. intros Hsmall.
    unfold sizeof_MeshHeader, sizeof_ModelLODHeader in *.
    rewrite s32_small; lia.
Qed.

(** One LOD holding the mesh of three vertices with a second UV channel. *)
Definition uv2Group : VertexGroupHeader_rev4 :=
  {| lodIndex := 0; groupIndex := 0; lodMap := 1;
     pLod := [Some {| pMesh := [Some positionUv2Mesh] |}] |}.

Lemma consistent_group_stays_inside_the_buffer_witness :
  Forall consistentMesh (meshes uv2Group)
  /\ Z.of_nat (length (meshes uv2Group)) < 2 ^ 15
  /\ lodCount uv2Group < 2 ^ 15
  /\ exists r,
       ConvertVGData_191 uv2Group None None = Some r
       /\ outputBufSize r = 4605
       /\ Forall (safeEvent (outputBufSize r)) (events r).
Proof.
  assert (Hcons : Forall consistentMesh (meshes uv2Group)).
  { constructor; [|constructor].
    split; [cbn; lia|]. split; [cbn; lia|]. split; [cbn; lia|].
    split; [cbn; lia|]. split; [cbn; lia|]. split.
    - intros Heq. vm_compute in Heq. discriminate.
    - intros verts [= <-]. apply (Forall_replicate _ 60 0). lia. }
  assert (Hfew : Z.of_nat (length (meshes uv2Group)) < 2 ^ 15)
    by (vm_compute; reflexivity).
  assert (Hlods : lodCount uv2Group < 2 ^ 15) by (vm_compute; reflexivity).
  split; [exact Hcons|]. split; [exact Hfew|]. split; [exact Hlods|].
  destruct (ConvertVGData_191 uv2Group None None) as [r|] eqn:Hconv;
    [|vm_compute in Hconv; discriminate].
  exists r. split; [reflexivity|]. split.
  - vm_compute in Hconv. injection Hconv as <-. reflexivity.
  - apply (consistent_group_stays_inside_the_buffer uv2Group None None r
             Hcons Hfew Hlods); [intros hdr Hh; discriminate|exact Hconv].
Defined.

(** *** The vertex copy of the v16 converter *)

(** X11.  The vertex copy of the v16 converter advances the cursor by the
    converted stride for every vertex: whatever vertex-buffer size the mesh
    stores, its stores lie between the old and the new cursor and the
    cursor moves by at most converted stride times vertex count, the
    amount the sizing pass reserves.  The v19.1 copy, where the stored
    stride is the converted one, moves the cursor by the stored
    vertex-buffer size instead. *)
Theorem v16_vertex_copy_keeps_to_its_reservation
    (m : MeshHeader_rev4) (w : writer) :
  0 <= vertCount m ->
  0 <= vertCacheSize m ->
  let stride := CalculateVertexSize_160 (ConvertMeshFlags_160 (flags m)) in
  (exists new,
     trace (copyVertices_160 m w) = trace w ++ new
     /\ Forall (inside (pWrite w) (pWrite (copyVertices_160 m w))) new)
  /\ (advanced (copyVertices_160 m) w = stride * vertCount m
      \/ advanced (copyVertices_160 m) w = 0)
  /\ (forall verts,
        pVertices m = Some verts -> 0 < vertCount m ->
        vertCacheSize m = stride ->
        advanced (copyVertices_191 m) w = vertBufferSize m).
Proof.
  intros Hvc Hcache stride.
  pose proof (CalculateVertexSize_191_range (ConvertMeshFlags_191 (flags m)))
    as Hs.
  rewrite <- ConvertMeshFlags_160_191, <- CalculateVertexSize_160_191 in Hs.
  fold stride in Hs.
  assert (Hiter : forall len, 0 <= len <= stride ->
            reach (stride * vertCount m) w
              (Nat.iter (Z.to_nat (vertCount m)) (put len stride) w)
            /\ advanced (Nat.iter (Z.to_nat (vertCount m)) (put len stride)) w
               = stride * vertCount m).
  { intros len Hlen. split.
    - replace (stride * vertCount m)
        with (Z.of_nat (Z.to_nat (vertCount m)) * stride) by lia.
      apply (grows_reach _
               (Nat.iter (Z.to_nat (vertCount m)) (put len stride))),
        grows_iter, grows_put; lia.
    - unfold advanced. rewrite iter_put_pWrite. lia. }
  assert (Hsame : reach (stride * vertCount m) w w
                  /\ advanced (fun w => w) w = 0).
  { split; [apply (grows_reach _ (fun w => w)), grows_same; nia|].
    unfold advanced. lia. }
  assert (H160 : reach (stride * vertCount m) w (copyVertices_160 m w)
                 /\ (advanced (copyVertices_160 m) w = stride * vertCount m
                     \/ advanced (copyVertices_160 m) w = 0)).
  { unfold copyVertices_160, advanced in *. fold stride.
    destruct (pVertices m); [|split; [apply Hsame|right; lia]].
    destruct (0 <? vertBufferSize m); [|split; [apply Hsame|right; lia]].
    destruct (_ && _).
    - destruct (Hiter stride ltac:(lia)) as [Hr Ha].
      split; [exact Hr|left; exact Ha].
    - destruct (Hiter (Z.min (vertCacheSize m) stride) ltac:(lia))
        as [Hr Ha].
      split; [exact Hr|left; exact Ha]. }
  destruct H160 as [(new & Htr & _ & Hin) Hadv].
  split; [by exists new|]. split; [exact Hadv|].
  intros verts Hverts Hpos Heq.
  unfold advanced, copyVertices_191. rewrite Hverts.
  destruct (Z.ltb_spec 0 (vertCount m)); [|lia].
  unfold stride in Heq.
  rewrite ConvertMeshFlags_160_191, CalculateVertexSize_160_191 in Heq.
  rewrite Heq, Z.eqb_refl. cbn [negb]. rewrite put_pWrite. lia.
Qed.

Lemma v16_vertex_copy_keeps_to_its_reservation_witness :
  0 <= vertCount overflowingMesh
  /\ 0 <= vertCacheSize overflowingMesh
  /\ advanced (copyVertices_160 overflowingMesh)
       {| pWrite := 304; trace := [] |} = 12
  /\ advanced (copyVertices_191 overflowingMesh)
       {| pWrite := 304; trace := [] |} = 8192.
Proof.
  assert (H1 : 0 <= vertCount overflowingMesh) by (cbn; lia).
  assert (H2 : 0 <= vertCacheSize overflowingMesh) by (cbn; lia).
  split; [exact H1|]. split; [exact H2|].
  destruct (v16_vertex_copy_keeps_to_its_reservation overflowingMesh
              {| pWrite := 304; trace := [] |} H1 H2)
    as (_ & Hadv & H191).
  split.
  - destruct Hadv as [Hadv|Hadv]; [exact Hadv|].
    vm_compute in Hadv. discriminate.
  - apply (H191 _ eq_refl); [cbn; lia|reflexivity].
Defined.

End VGBounds.

(* ------------------------------------------------------------------ *)
(** ** IK chains ([ConvertIkChains_191], [rmdl_191.cpp], lines 1121-1171;
       [ConvertIkChains_160], v16 file, lines 1098-1148) *)

Module IkChains.
Import Arena.

(** A source chain as far as the converter reads it; [pLink k] is its
    [k]-th link.  A link is its bone and the bit patterns of its knee
    direction. *)
Record mstudioiklink := {
  bone : Z;
  kneeDir : list Z
}.

Record mstudioikchain_v191 := {
  pszName : string;
  linktype : Z;
  numlinks : Z;
  unk_10 : Z;
  pLink : nat -> mstudioiklink
}.

(** A converted chain header with the arena offset it is written at. *)
Record mstudioikchain_v8 := {
  n_addr : Z;
  n_linktype : Z;
  n_numlinks : Z;
  n_linkindex : Z;
  n_unk : Z
}.

Record converted := {
  ikchainindex : Z;
  chains : list mstudioikchain_v8;
  links : list (Z * mstudioiklink);
  strings : list stringentry;
  pData : Z
}.

(** The state of the first loop. *)
Record headers := {
  h_pData : Z;
  h_currentLinkCount : Z;
  h_chains : list mstudioikchain_v8;
  h_strings : list stringentry
}.

Section ConvertIkChains.

(** Sizes of the two target records, declared in the missing header. *)
Variable sizeof_mstudioikchain : Z.
Variable sizeof_mstudioiklink : Z.

(** The offset stored in chain [i]: a [size_t] sum cast to [int]. *)
Definition linkindexOf (numIkChains currentLinkCount i : Z) : Z :=
  s32 (u64 (u64 (sizeof_mstudioiklink * u64 currentLinkCount)
            + u64 (sizeof_mstudioikchain * u64 (numIkChains - i)))).

(** The body of the first loop. *)
Definition writeChain (numIkChains : Z) (st : headers)
    (p : nat * mstudioikchain_v191) : headers :=
  let oldChain := p.2 in
  let newChain := h_pData st in
  {| h_pData := newChain + sizeof_mstudioikchain;
     h_currentLinkCount := s32 (h_currentLinkCount st + numlinks oldChain);
     h_chains :=
       h_chains st
       ++ [ {| n_addr := newChain;
               n_linktype := linktype oldChain;
               n_numlinks := numlinks oldChain;
               n_linkindex :=
                 linkindexOf numIkChains (h_currentLinkCount st)
                   (Z.of_nat p.1);
               n_unk := unk_10 oldChain |} ];
     h_strings :=
       h_strings st
       ++ [ {| owner := newChain; slot := "sznameindex";
               text := pszName oldChain |} ] |}.

(** The body of the second loop: the links of one chain, each written at
    the cursor. *)
Definition writeLinks (st : Z * list (Z * mstudioiklink))
    (oldChain : mstudioikchain_v191) : Z * list (Z * mstudioiklink) :=
  fold_left
    (fun st linkIdx =>
       (st.1 + sizeof_mstudioiklink, st.2 ++ [(st.1, pLink oldChain linkIdx)]))
    (seq 0 (Z.to_nat (numlinks oldChain))) st.

(** [ConvertIkChains_191] from the cursor [pData0] on, the string table
    holding [strings0]. *)
Definition ConvertIkChains_191 (oldChains : list mstudioikchain_v191)
    (strings0 : list stringentry) (pData0 : Z) : converted :=
  let numIkChains := Z.of_nat (length oldChains) in
  let ikchainindex := s32 pData0 in
  if numIkChains =? 0 then
    {| ikchainindex := ikchainindex; chains := []; links := [];
       strings := strings0; pData := pData0 |}
  else
    let st :=
      fold_left (writeChain numIkChains) (imap pair oldChains)
        {| h_pData := pData0; h_currentLinkCount := 0; h_chains := [];
           h_strings := strings0 |} in
    let '(pData, links) := fold_left writeLinks oldChains (h_pData st, []) in
    {| ikchainindex := ikchainindex; chains := h_chains st; links := links;
       strings := h_strings st; pData := ALIGN4 pData |}.

Definition ConvertIkChains_160 := ConvertIkChains_191.

(** *** Where the links of a chain end up *)

(** The links of the chains of [l], counted. *)
Definition sumLinks (l : list mstudioikchain_v191) : Z :=
  foldr (fun c n => numlinks c + n) 0 l.

Lemma sumLinks_app l1 l2 : sumLinks (l1 ++ l2) = sumLinks l1 + sumLinks l2.
Proof.
  unfold sumLinks. induction l1 as [|c l1 IH]; cbn [foldr app]; [done|].
  rewrite IH. lia.
Qed.

Lemma sumLinks_snoc l c : sumLinks (l ++ [c]) = sumLinks l + numlinks c.
Proof. rewrite sumLinks_app. unfold sumLinks. cbn [foldr]. lia. Qed.

Lemma sumLinks_cons l c : sumLinks (c :: l) = numlinks c + sumLinks l.
Proof. reflexivity. Qed.

Lemma sumLinks_nonneg l :
  Forall (fun c => 0 <= numlinks c) l -> 0 <= sumLinks l.
Proof.
  unfold sumLinks.
  induction l as [|c l IH]; intros Hall; cbn [foldr]; [done|].
  apply Forall_cons in Hall as [Hc Hall]. specialize (IH Hall). lia.
Qed.

Definition convertedChain (numIkChains pData0 : Z)
    (pre : list mstudioikchain_v191) (i : nat) (c : mstudioikchain_v191)
    : mstudioikchain_v8 :=
  {| n_addr := pData0 + Z.of_nat i * sizeof_mstudioikchain;
     n_linktype := linktype c;
     n_numlinks := numlinks c;
     n_linkindex :=
       linkindexOf numIkChains (sumLinks (take i pre)) (Z.of_nat i);
     n_unk := unk_10 c |}.

(** The first loop after the chains [pre]. *)
Lemma writeChain_fold numIkChains strings0 pData0
    (pre : list mstudioikchain_v191) :
  Forall (fun c => 0 <= numlinks c) pre ->
  sumLinks pre < 2 ^ 31 ->
  let st :=
    fold_left (writeChain numIkChains) (imap pair pre)
      {| h_pData := pData0; h_currentLinkCount := 0; h_chains := [];
         h_strings := strings0 |} in
  h_pData st = pData0 + Z.of_nat (length pre) * sizeof_mstudioikchain
  /\ h_currentLinkCount st = sumLinks pre
  /\ length (h_chains st) = length pre
  /\ forall i c, pre !! i = Some c ->
       h_chains st !! i
       = Some (convertedChain numIkChains pData0 pre i c).
Proof.
  induction pre as [|c pre IH] using rev_ind; intros Hall Hfit.
  - cbn. split; [lia|]. split; [done|]. split; [done|]. intros i c Hi.
    by destruct i.
  - apply Forall_app in Hall as [Hpre Hc].
    apply Forall_cons in Hc as [Hc _].
    rewrite sumLinks_snoc in Hfit.
    pose proof (sumLinks_nonneg pre Hpre) as Hnn.
    destruct (IH Hpre ltac:(lia)) as (Hp & Hcur & Hlen & Hlookup).
    rewrite imap_app, fold_left_app. cbn [imap fold_left].
    cbn [writeChain h_pData h_currentLinkCount h_chains fst snd].
    rewrite Hp, Hcur, !length_app, Hlen, sumLinks_snoc. cbn [length].
    split; [lia|]. split; [apply s32_small; lia|]. split; [done|].
    intros i c' Hi.
    destruct (decide (i < length pre)%nat) as [Hlt|Hge].
    + rewrite lookup_app_l in Hi by lia.
      rewrite lookup_app_l by lia.
      rewrite (Hlookup i c' Hi). unfold convertedChain.
      by rewrite take_app_le by lia.
    + pose proof (lookup_lt_Some _ _ _ Hi) as Hi'.
      rewrite length_app in Hi'. cbn in Hi'.
      assert (i = length pre) as -> by lia.
      rewrite lookup_app_r in Hi by lia.
      rewrite lookup_app_r by lia.
      rewrite Hlen, Nat.sub_diag. rewrite Nat.sub_diag in Hi.
      cbn in Hi. injection Hi as <-. cbn. unfold convertedChain.
      rewrite Nat.add_0_r.
      by rewrite take_app_length.
Qed.

(** The links of one chain, written from the cursor [q] on. *)
Lemma writeLinks_spec (oldChain : mstudioikchain_v191) q L :
  let n := Z.to_nat (numlinks oldChain) in
  writeLinks (q, L) oldChain
  = (q + sizeof_mstudioiklink * Z.of_nat n,
     L ++ map (fun k => (q + sizeof_mstudioiklink * Z.of_nat k,
                         pLink oldChain k)) (seq 0 n)).
Proof.
  intros n. unfold writeLinks. fold n.
  assert (Hgen : forall ks q0 L0 (base : nat),
            fold_left
              (fun st linkIdx =>
                 (st.1 + sizeof_mstudioiklink,
                  st.2 ++ [(st.1, pLink oldChain linkIdx)]))
              (seq base ks)
              (q0 + sizeof_mstudioiklink * Z.of_nat base, L0)
            = (q0 + sizeof_mstudioiklink * Z.of_nat (base + ks),
               L0 ++ map (fun k => (q0 + sizeof_mstudioiklink * Z.of_nat k,
                                    pLink oldChain k)) (seq base ks))).
  { induction ks as [|ks IH]; intros q0 L0 base; cbn [seq fold_left map].
    - by rewrite Nat.add_0_r, app_nil_r.
    - cbn [fst snd].
      replace (q0 + sizeof_mstudioiklink * Z.of_nat base
               + sizeof_mstudioiklink)
        with (q0 + sizeof_mstudioiklink * Z.of_nat (S base)) by lia.
      rewrite IH, <- app_assoc. cbn [app]. do 3 f_equal. lia. }
  specialize (Hgen n q L 0%nat).
  replace (q + sizeof_mstudioiklink * Z.of_nat 0) with q in Hgen by lia.
  exact Hgen.
Qed.

(** The second loop after the chains [pre]. *)
Lemma writeLinks_fold q0 (pre : list mstudioikchain_v191) :
  Forall (fun c => 0 <= numlinks c) pre ->
  let r := fold_left writeLinks pre (q0, []) in
  r.1 = q0 + sizeof_mstudioiklink * sumLinks pre
  /\ forall i c k, pre !! i = Some c -> 0 <= k < numlinks c ->
       (q0 + sizeof_mstudioiklink * (sumLinks (take i pre) + k),
        pLink c (Z.to_nat k)) ∈ r.2.
Proof.
  induction pre as [|c pre IH] using rev_ind; intros Hall.
  - cbn. split; [lia|]. intros i c k Hi. by destruct i.
  - apply Forall_app in Hall as [Hpre Hc].
    apply Forall_cons in Hc as [Hc _].
    destruct (IH Hpre) as (Hq & Hin).
    rewrite fold_left_app. cbn [fold_left].
    destruct (fold_left writeLinks pre (q0, [])) as [q L] eqn:Hfold.
    cbn [fst snd] in Hq, Hin. rewrite writeLinks_spec. cbn [fst snd].
    rewrite sumLinks_snoc, Z2Nat.id by lia.
    split; [lia|].
    intros i c' k Hi Hk.
    destruct (decide (i < length pre)%nat) as [Hlt|Hge].
    + rewrite lookup_app_l in Hi by lia.
      rewrite take_app_le by lia.
      apply elem_of_app. left. by apply Hin.
    + pose proof (lookup_lt_Some _ _ _ Hi) as Hi'.
      rewrite length_app in Hi'. cbn in Hi'.
      assert (i = length pre) as -> by lia.
      rewrite lookup_app_r in Hi by lia. rewrite Nat.sub_diag in Hi.
      cbn in Hi. injection Hi as <-.
      rewrite take_app_length.
      apply elem_of_app. right.
      apply list_elem_of_fmap. exists (Z.to_nat k). split.
      * f_equal. rewrite Hq, Z2Nat.id by lia. lia.
      * apply elem_of_seq. lia.
Qed.

(** X8.  For chains with non-negative link counts whose records stay
    below 2 GiB, every converted chain header sits at its index in the
    header array and keeps the source's link type and link count, and the
    offset it stores leads from the header to the copies of its own links:
    link [k] of chain [i] is written at the header's address plus
    [linkindex] plus [k] link records, with the source link's bone and knee
    direction. *)
Theorem ik_links_follow_their_chain
    (oldChains : list mstudioikchain_v191) (strings0 : list stringentry)
    (pData0 : Z) (i : nat) (c : mstudioikchain_v191) :
  0 < sizeof_mstudioikchain ->
  0 < sizeof_mstudioiklink ->
  Forall (fun c => 0 <= numlinks c) oldChains ->
  sizeof_mstudioikchain * Z.of_nat (length oldChains)
  + sizeof_mstudioiklink * sumLinks oldChains < 2 ^ 31 ->
  oldChains !! i = Some c ->
  let out := ConvertIkChains_191 oldChains strings0 pData0 in
  exists newChain,
    chains out !! i = Some newChain
    /\ n_addr newChain = pData0 + Z.of_nat i * sizeof_mstudioikchain
    /\ n_linktype newChain = linktype c
    /\ n_numlinks newChain = numlinks c
    /\ forall k, 0 <= k < numlinks c ->
         (n_addr newChain + n_linkindex newChain
          + k * sizeof_mstudioiklink,
          pLink c (Z.to_nat k)) ∈ links out.
Proof.
  intros Hszc Hszl Hall Hfit Hi out.
  pose proof (lookup_lt_Some _ _ _ Hi) as Hlt.
  pose proof (sumLinks_nonneg _ Hall) as Hnn.
  assert (Hsum : sumLinks oldChains < 2 ^ 31) by nia.
  assert (Hlen : Z.of_nat (length oldChains) < 2 ^ 31) by nia.
  destruct (writeChain_fold (Z.of_nat (length oldChains)) strings0 pData0
              oldChains Hall Hsum) as (Hp & _ & _ & Hlookup).
  unfold out, ConvertIkChains_191.
  destruct (Z.eqb_spec (Z.of_nat (length oldChains)) 0) as [Hz|_]; [lia|].
  rewrite Hp.
  destruct (writeLinks_fold
              (pData0 + Z.of_nat (length oldChains) * sizeof_mstudioikchain)
              oldChains Hall) as (_ & Hin).
  destruct (fold_left writeLinks oldChains _) as [q L].
  cbn [fst snd chains links] in *.
  exists (convertedChain (Z.of_nat (length oldChains)) pData0 oldChains i c).
  split; [by apply Hlookup|]. cbn [convertedChain n_addr n_linktype
                                   n_numlinks n_linkindex].
  split; [done|]. split; [done|]. split; [done|].
  intros k Hk.
  assert (Hbefore : 0 <= sumLinks (take i oldChains)
                    /\ sumLinks (take i oldChains) + numlinks c
                       <= sumLinks oldChains).
  { rewrite <- (take_drop_middle oldChains i c Hi) at 3.
    rewrite sumLinks_app, sumLinks_cons.
    rewrite <- (take_drop_middle oldChains i c Hi) in Hall.
    apply Forall_app in Hall as [Htake Hdrop].
    apply Forall_cons in Hdrop as [_ Hdrop].
    pose proof (sumLinks_nonneg _ Htake).
    pose proof (sumLinks_nonneg _ Hdrop). lia. }
  specialize (Hin i c k Hi Hk).
  replace (pData0 + Z.of_nat i * sizeof_mstudioikchain
           + linkindexOf (Z.of_nat (length oldChains))
               (sumLinks (take i oldChains)) (Z.of_nat i)
           + k * sizeof_mstudioiklink)
    with (pData0 + Z.of_nat (length oldChains) * sizeof_mstudioikchain
          + sizeof_mstudioiklink * (sumLinks (take i oldChains) + k));
    [exact Hin|].
  unfold linkindexOf.
  rewrite (u64_small (sumLinks (take i oldChains))) by lia.
  rewrite (u64_small (Z.of_nat (length oldChains) - Z.of_nat i)) by lia.
  assert (0 <= sizeof_mstudioiklink * sumLinks (take i oldChains)
          <= sizeof_mstudioiklink * sumLinks oldChains) by nia.
  assert (0 <= sizeof_mstudioikchain
               * (Z.of_nat (length oldChains) - Z.of_nat i)
          <= sizeof_mstudioikchain * Z.of_nat (length oldChains)) by nia.
  rewrite (u64_small (sizeof_mstudioiklink * _)) by lia.
  rewrite (u64_small (sizeof_mstudioikchain * _)) by lia.
  rewrite u64_small, s32_small by lia. lia.
Qed.

End ConvertIkChains.

(** *** Two chains *)

(** A chain of three links and a chain of two; sample sizes of 16 and 28
    bytes for the two records. *)
Definition sampleChain (name : string) (n first : Z) : mstudioikchain_v191 :=
  {| pszName := name; linktype := 0; numlinks := n; unk_10 := 0;
     pLink := fun k => {| bone := first + Z.of_nat k; kneeDir := [0; 0; 0] |} |}.

Definition sampleChains : list mstudioikchain_v191 :=
  [sampleChain "arm" 3 10; sampleChain "leg" 2 20].

Example sampleChains_converted :
  let out := ConvertIkChains_191 16 28 sampleChains [] 1000 in
  map (fun c => (n_addr c, n_numlinks c, n_linkindex c)) (chains out)
  = [(1000, 3, 32); (1016, 2, 100)]
  /\ map (fun l => (l.1, bone l.2)) (links out)
     = [(1032, 10); (1060, 11); (1088, 12); (1116, 20); (1144, 21)].
Proof. vm_compute. done. Qed.

Lemma ik_links_follow_their_chain_witness :
  Forall (fun c => 0 <= numlinks c) sampleChains
  /\ 16 * Z.of_nat (length sampleChains) + 28 * sumLinks sampleChains < 2 ^ 31
  /\ sampleChains !! 1%nat = Some (sampleChain "leg" 2 20)
  /\ exists newChain,
       chains (ConvertIkChains_191 16 28 sampleChains [] 1000) !! 1%nat
       = Some newChain
       /\ (n_addr newChain + n_linkindex newChain + 1 * 28,
           pLink (sampleChain "leg" 2 20) 1)
          ∈ links (ConvertIkChains_191 16 28 sampleChains [] 1000).
Proof.
  assert (Hall : Forall (fun c => 0 <= numlinks c) sampleChains)
    by (repeat constructor; cbn; lia).
  assert (Hfit : 16 * Z.of_nat (length sampleChains)
                 + 28 * sumLinks sampleChains < 2 ^ 31)
    by (vm_compute; reflexivity).
  split; [exact Hall|]. split; [exact Hfit|]. split; [reflexivity|].
  destruct (ik_links_follow_their_chain 16 28 sampleChains [] 1000 1%nat
              (sampleChain "leg" 2 20) ltac:(lia) ltac:(lia) Hall Hfit
              eq_refl)
    as (newChain & Hchain & _ & _ & _ & Hlinks).
  exists newChain. split; [exact Hchain|].
  apply (Hlinks 1). cbn. lia.
Defined.

End IkChains.

(* ------------------------------------------------------------------ *)
(** ** Hitbox sets ([ConvertHitboxes_191], [rmdl_191.cpp], lines 847-900;
       [ConvertHitboxes_160], v16 file, lines 821-874) *)

Module Hitboxes.
Import Arena.

(** A source hitbox and a source set as far as the converter reads them;
    [pHitbox j] is the [j]-th hitbox of a set.  Bounding boxes are carried
    as bit patterns. *)
Record mstudiobbox_v191 := {
  bone : Z;
  group : Z;
  bbmin : list Z;
  bbmax : list Z;
  pszHitboxName : string;
  hitDataGroup : string
}.

Record mstudiohitboxset_v191 := {
  pszName : string;
  numhitboxes : Z;
  pHitbox : nat -> mstudiobbox_v191
}.

(** The converted records, each with the arena offset it is written at. *)
Record mstudiohitboxset_v8 := {
  s_addr : Z;
  s_numhitboxes : Z;
  s_hitboxindex : Z
}.

Record mstudiobbox_v8 := {
  b_addr : Z;
  b_bone : Z;
  b_group : Z;
  b_bbmin : list Z;
  b_bbmax : list Z
}.

Record converted := {
  hitboxsetindex : Z;
  sets : list mstudiohitboxset_v8;
  hitboxes : list mstudiobbox_v8;
  strings : list stringentry;
  pData : Z
}.

(** The state of the second loop. *)
Record boxes := {
  x_pData : Z;
  x_sets : list mstudiohitboxset_v8;
  x_hitboxes : list mstudiobbox_v8;
  x_strings : list stringentry
}.

Section ConvertHitboxes.

(** Sizes of the two target records, declared in the missing header. *)
Variable sizeof_mstudiohitboxset : Z.
Variable sizeof_mstudiobbox : Z.

(** The first loop: one name per set, the cursor behind the headers. *)
Definition writeSetHeader (st : Z * list stringentry)
    (oldhboxset : mstudiohitboxset_v191) : Z * list stringentry :=
  let newhboxset := st.1 in
  (newhboxset + sizeof_mstudiohitboxset,
   st.2 ++ [ {| owner := newhboxset; slot := "sznameindex";
                text := pszName oldhboxset |} ]).

(** The inner loop: hitbox [j] of a set, written at the cursor. *)
Definition writeHitbox (oldhboxset : mstudiohitboxset_v191) (st : boxes)
    (j : nat) : boxes :=
  let oldHitbox := pHitbox oldhboxset j in
  let newHitbox := x_pData st in
  {| x_pData := newHitbox + sizeof_mstudiobbox;
     x_sets := x_sets st;
     x_hitboxes :=
       x_hitboxes st
       ++ [ {| b_addr := newHitbox; b_bone := bone oldHitbox;
               b_group := group oldHitbox; b_bbmin := bbmin oldHitbox;
               b_bbmax := bbmax oldHitbox |} ];
     x_strings :=
       x_strings st
       ++ [ {| owner := newHitbox; slot := "szhitboxnameindex";
               text := pszHitboxName oldHitbox |};
            {| owner := newHitbox; slot := "hitdataGroupOffset";
               text := hitDataGroup oldHitbox |} ] |}.

(** The body of the second loop for set [i]. *)
Definition writeSet (hboxsetStart : Z) (st : boxes)
    (p : nat * mstudiohitboxset_v191) : boxes :=
  let oldhboxset := p.2 in
  let newhboxset := hboxsetStart + Z.of_nat p.1 * sizeof_mstudiohitboxset in
  let st :=
    {| x_pData := x_pData st;
       x_sets :=
         x_sets st
         ++ [ {| s_addr := newhboxset;
                 s_numhitboxes := numhitboxes oldhboxset;
                 s_hitboxindex := s32 (x_pData st - newhboxset) |} ];
       x_hitboxes := x_hitboxes st;
       x_strings := x_strings st |} in
  fold_left (writeHitbox oldhboxset)
    (seq 0 (Z.to_nat (numhitboxes oldhboxset))) st.

(** [ConvertHitboxes_191] from the cursor [pData0] on. *)
Definition ConvertHitboxes_191 (oldSets : list mstudiohitboxset_v191)
    (strings0 : list stringentry) (pData0 : Z) : converted :=
  let hboxsetStart := pData0 in
  let '(pData, strings) := fold_left writeSetHeader oldSets (pData0, strings0) in
  let st :=
    fold_left (writeSet hboxsetStart) (imap pair oldSets)
      {| x_pData := pData; x_sets := []; x_hitboxes := [];
         x_strings := strings |} in
  {| hitboxsetindex := s32 pData0; sets := x_sets st;
     hitboxes := x_hitboxes st; strings := x_strings st;
     pData := ALIGN4 (x_pData st) |}.

Definition ConvertHitboxes_160 := ConvertHitboxes_191.

(** *** Where the hitboxes of a set end up *)

Definition sumBoxes (l : list mstudiohitboxset_v191) : Z :=
  foldr (fun s n => numhitboxes s + n) 0 l.

Lemma sumBoxes_app l1 l2 : sumBoxes (l1 ++ l2) = sumBoxes l1 + sumBoxes l2.
Proof.
  unfold sumBoxes. induction l1 as [|c l1 IH]; cbn [foldr app]; [done|].
  rewrite IH. lia.
Qed.

Lemma sumBoxes_snoc l c : sumBoxes (l ++ [c]) = sumBoxes l + numhitboxes c.
Proof. rewrite sumBoxes_app. unfold sumBoxes. cbn [foldr]. lia. Qed.

Lemma sumBoxes_cons l c : sumBoxes (c :: l) = numhitboxes c + sumBoxes l.
Proof. reflexivity. Qed.

Lemma sumBoxes_nonneg l :
  Forall (fun c => 0 <= numhitboxes c) l -> 0 <= sumBoxes l.
Proof.
  unfold sumBoxes.
  induction l as [|c l IH]; intros Hall; cbn [foldr]; [done|].
  apply Forall_cons in Hall as [Hc Hall]. specialize (IH Hall). lia.
Qed.

Lemma writeSetHeader_fold (l : list mstudiohitboxset_v191) : forall p strs,
  (fold_left writeSetHeader l (p, strs)).1
  = p + Z.of_nat (length l) * sizeof_mstudiohitboxset.
Proof.
  induction l as [|c l IH]; intros p strs; cbn [fold_left length].
  - cbn. lia.
  - unfold writeSetHeader at 2. cbn [fst snd]. rewrite IH. lia.
Qed.

(** The converted hitbox [j] of a set whose hitboxes start at [q]. *)
Definition convertedBox (q : Z) (oldhboxset : mstudiohitboxset_v191)
    (j : nat) : mstudiobbox_v8 :=
  {| b_addr := q + sizeof_mstudiobbox * Z.of_nat j;
     b_bone := bone (pHitbox oldhboxset j);
     b_group := group (pHitbox oldhboxset j);
     b_bbmin := bbmin (pHitbox oldhboxset j);
     b_bbmax := bbmax (pHitbox oldhboxset j) |}.

Lemma writeHitbox_fold (oldhboxset : mstudiohitboxset_v191) (n : nat) :
  forall st,
  let st' := fold_left (writeHitbox oldhboxset) (seq 0 n) st in
  x_pData st' = x_pData st + sizeof_mstudiobbox * Z.of_nat n
  /\ x_sets st' = x_sets st
  /\ x_hitboxes st'
     = x_hitboxes st ++ map (convertedBox (x_pData st) oldhboxset) (seq 0 n)
  /\ (forall e, e ∈ x_strings st -> e ∈ x_strings st')
  /\ (forall j, (j < n)%nat ->
        {| owner := x_pData st + sizeof_mstudiobbox * Z.of_nat j;
           slot := "szhitboxnameindex";
           text := pszHitboxName (pHitbox oldhboxset j) |} ∈ x_strings st'
        /\ {| owner := x_pData st + sizeof_mstudiobbox * Z.of_nat j;
              slot := "hitdataGroupOffset";
              text := hitDataGroup (pHitbox oldhboxset j) |}
           ∈ x_strings st').
Proof.
  induction n as [|n IH]; intros st.
  - cbn. rewrite app_nil_r. split; [lia|]. split; [done|]. split; [done|].
    split; [done|]. intros j Hj. lia.
  - rewrite seq_S, fold_left_app. cbn [fold_left Nat.add].
    destruct (IH st) as (Hp & Hs & Hb & Hkeep & Hnew).
    cbn [writeHitbox x_pData x_sets x_hitboxes x_strings].
    rewrite Hp, Hs, Hb, map_app, <- app_assoc. cbn [map app].
    split; [lia|]. split; [done|]. split; [done|]. split.
    + intros e He. apply elem_of_app. left. by apply Hkeep.
    + intros j Hj. destruct (decide (j < n)%nat) as [Hlt|Hge].
      * destruct (Hnew j Hlt) as [H1 H2].
        split; apply elem_of_app; by left.
      * assert (j = n) as -> by lia.
        split; apply elem_of_app; right; set_solver.
Qed.

(** The second loop after the sets [pre]. *)
Lemma writeSet_fold hboxsetStart q0 strs
    (pre : list mstudiohitboxset_v191) :
  Forall (fun c => 0 <= numhitboxes c) pre ->
  let st :=
    fold_left (writeSet hboxsetStart) (imap pair pre)
      {| x_pData := q0; x_sets := []; x_hitboxes := [];
         x_strings := strs |} in
  x_pData st = q0 + sizeof_mstudiobbox * sumBoxes pre
  /\ length (x_sets st) = length pre
  /\ forall i c, pre !! i = Some c ->
       let q := q0 + sizeof_mstudiobbox * sumBoxes (take i pre) in
       let newhboxset :=
         hboxsetStart + Z.of_nat i * sizeof_mstudiohitboxset in
       x_sets st !! i
       = Some {| s_addr := newhboxset; s_numhitboxes := numhitboxes c;
                 s_hitboxindex := s32 (q - newhboxset) |}
       /\ forall j, (j < Z.to_nat (numhitboxes c))%nat ->
            convertedBox q c j ∈ x_hitboxes st
            /\ {| owner := q + sizeof_mstudiobbox * Z.of_nat j;
                  slot := "szhitboxnameindex";
                  text := pszHitboxName (pHitbox c j) |} ∈ x_strings st
            /\ {| owner := q + sizeof_mstudiobbox * Z.of_nat j;
                  slot := "hitdataGroupOffset";
                  text := hitDataGroup (pHitbox c j) |} ∈ x_strings st.
Proof.
  induction pre as [|c pre IH] using rev_ind; intros Hall.
  - cbn. split; [lia|]. split; [done|]. intros i c Hi. by destruct i.
  - apply Forall_app in Hall as [Hpre Hc].
    apply Forall_cons in Hc as [Hc _].
    destruct (IH Hpre) as (Hq & Hlen & Hlookup). clear IH.
    rewrite imap_app, fold_left_app. cbn [imap fold_left].
    set (st := fold_left (writeSet hboxsetStart) (imap pair pre) _) in *.
    cbv zeta. unfold writeSet. cbn [fst snd]. rewrite !Nat.add_0_r.
    match goal with
    | |- context [fold_left (writeHitbox c) _ ?start] =>
        destruct (writeHitbox_fold c (Z.to_nat (numhitboxes c)) start)
          as (Hp' & Hs' & Hb' & Hkeep' & Hnew')
    end.
    cbn [x_pData x_sets x_hitboxes x_strings] in Hp', Hs', Hb', Hkeep', Hnew'.
    rewrite Hp', Hs', Hb', sumBoxes_snoc, Z2Nat.id by lia.
    rewrite !length_app, Hlen. cbn [length].
    split; [lia|]. split; [done|].
    intros i c' Hi.
    destruct (decide (i < length pre)%nat) as [Hlt|Hge].
    + rewrite lookup_app_l in Hi by lia.
      rewrite take_app_le by lia.
      destruct (Hlookup i c' Hi) as (Hset & Hboxes).
      split; [by rewrite lookup_app_l by lia|].
      intros j Hj. destruct (Hboxes j Hj) as (H1 & H2 & H3).
      split; [apply elem_of_app; by left|].
      split; by apply Hkeep'.
    + pose proof (lookup_lt_Some _ _ _ Hi) as Hi'.
      rewrite length_app in Hi'. cbn in Hi'.
      assert (i = length pre) as -> by lia.
      rewrite lookup_app_r in Hi by lia. rewrite Nat.sub_diag in Hi.
      cbn in Hi. injection Hi as <-.
      rewrite take_app_length.
      split.
      * rewrite lookup_app_r by lia. rewrite Hlen, Nat.sub_diag. cbn.
        by rewrite Hq.
      * intros j Hj. rewrite <- Hq. split.
        -- apply elem_of_app. right. apply list_elem_of_fmap.
           exists j. split; [done|]. apply elem_of_seq. lia.
        -- by apply Hnew'.
Qed.

(** X9.  For sets with non-negative hitbox counts whose records stay below
    2 GiB, every converted set header sits at its index in the header
    array with the source's hitbox count, and the offset it stores leads
    from the header to the copies of its own hitboxes: hitbox [j] of set
    [i] is written at the header's address plus [hitboxindex] plus [j]
    hitbox records, with the source hitbox's bone and group, and its name
    and hit-data group are interned for that address. *)
Theorem hitboxes_follow_their_set
    (oldSets : list mstudiohitboxset_v191) (strings0 : list stringentry)
    (pData0 : Z) (i : nat) (c : mstudiohitboxset_v191) :
  0 < sizeof_mstudiohitboxset ->
  0 < sizeof_mstudiobbox ->
  Forall (fun c => 0 <= numhitboxes c) oldSets ->
  sizeof_mstudiohitboxset * Z.of_nat (length oldSets)
  + sizeof_mstudiobbox * sumBoxes oldSets < 2 ^ 31 ->
  oldSets !! i = Some c ->
  let out := ConvertHitboxes_191 oldSets strings0 pData0 in
  exists newSet,
    sets out !! i = Some newSet
    /\ s_addr newSet = pData0 + Z.of_nat i * sizeof_mstudiohitboxset
    /\ s_numhitboxes newSet = numhitboxes c
    /\ forall j, 0 <= j < numhitboxes c ->
         let addr :=
           s_addr newSet + s_hitboxindex newSet + j * sizeof_mstudiobbox in
         let old := pHitbox c (Z.to_nat j) in
         (exists newBox,
            newBox ∈ hitboxes out
            /\ b_addr newBox = addr
            /\ b_bone newBox = bone old /\ b_group newBox = group old
            /\ b_bbmin newBox = bbmin old /\ b_bbmax newBox = bbmax old)
         /\ {| owner := addr; slot := "szhitboxnameindex";
               text := pszHitboxName old |} ∈ strings out
         /\ {| owner := addr; slot := "hitdataGroupOffset";
               text := hitDataGroup old |} ∈ strings out.
Proof.
  intros Hszs Hszb Hall Hfit Hi out.
  pose proof (lookup_lt_Some _ _ _ Hi) as Hlt.
  pose proof (sumBoxes_nonneg _ Hall) as Hnn.
  assert (Hbefore : 0 <= sumBoxes (take i oldSets)
                    /\ sumBoxes (take i oldSets) + numhitboxes c
                       <= sumBoxes oldSets).
  { rewrite <- (take_drop_middle oldSets i c Hi) at 3.
    rewrite sumBoxes_app, sumBoxes_cons.
    pose proof Hall as Hall'.
    rewrite <- (take_drop_middle oldSets i c Hi) in Hall'.
    apply Forall_app in Hall' as [Htake Hdrop].
    apply Forall_cons in Hdrop as [_ Hdrop].
    pose proof (sumBoxes_nonneg _ Htake).
    pose proof (sumBoxes_nonneg _ Hdrop). lia. }
  unfold out, ConvertHitboxes_191.
  pose proof (writeSetHeader_fold oldSets pData0 strings0) as Hhead.
  destruct (fold_left writeSetHeader oldSets (pData0, strings0))
    as [q0 strs]. cbn [fst] in Hhead. subst q0.
  destruct (writeSet_fold pData0
              (pData0 + Z.of_nat (length oldSets) * sizeof_mstudiohitboxset)
              strs oldSets Hall) as (_ & _ & Hlookup).
  destruct (Hlookup i c Hi) as (Hset & Hboxes). clear Hlookup.
  cbn [sets hitboxes strings].
  eexists. split; [exact Hset|]. cbn [s_addr s_numhitboxes s_hitboxindex].
  split; [done|]. split; [done|].
  intros j Hj.
  assert (Haddr : pData0 + Z.of_nat i * sizeof_mstudiohitboxset
                  + s32 (pData0
                         + Z.of_nat (length oldSets) * sizeof_mstudiohitboxset
                         + sizeof_mstudiobbox * sumBoxes (take i oldSets)
                         - (pData0 + Z.of_nat i * sizeof_mstudiohitboxset))
                  + j * sizeof_mstudiobbox
                  = pData0
                    + Z.of_nat (length oldSets) * sizeof_mstudiohitboxset
                    + sizeof_mstudiobbox * sumBoxes (take i oldSets)
                    + sizeof_mstudiobbox * Z.of_nat (Z.to_nat j)).
  { rewrite Z2Nat.id by lia. rewrite s32_small; [lia|]. nia. }
  cbv zeta. rewrite Haddr.
  destruct (Hboxes (Z.to_nat j) ltac:(lia)) as (Hbox & Hname & Hgroup).
  split; [|split; [exact Hname|exact Hgroup]].
  eexists. split; [exact Hbox|]. done.
Qed.

End ConvertHitboxes.

(** *** Two sets *)

Definition sampleBox (b : Z) : mstudiobbox_v191 :=
  {| bone := b; group := 1; bbmin := [0; 0; 0]; bbmax := [0; 0; 0];
     pszHitboxName := "box"; hitDataGroup := "" |}.

(** A set of two hitboxes and a set of one; sample sizes of 12 and 68 bytes
    for the two records. *)
Definition sampleSets : list mstudiohitboxset_v191 :=
  [ {| pszName := "default"; numhitboxes := 2;
       pHitbox := fun j => sampleBox (Z.of_nat j) |};
    {| pszName := "alt"; numhitboxes := 1;
       pHitbox := fun j => sampleBox (7 + Z.of_nat j) |} ].

Example sampleSets_converted :
  let out := ConvertHitboxes_191 12 68 sampleSets [] 400 in
  map (fun c => (s_addr c, s_numhitboxes c, s_hitboxindex c)) (sets out)
  = [(400, 2, 24); (412, 1, 148)]
  /\ map (fun b => (b_addr b, b_bone b)) (hitboxes out)
     = [(424, 0); (492, 1); (560, 7)].
Proof. vm_compute. done. Qed.

Lemma hitboxes_follow_their_set_witness :
  Forall (fun c => 0 <= numhitboxes c) sampleSets
  /\ 12 * Z.of_nat (length sampleSets) + 68 * sumBoxes sampleSets < 2 ^ 31
  /\ exists c newSet newBox,
       sampleSets !! 1%nat = Some c
       /\ sets (ConvertHitboxes_191 12 68 sampleSets [] 400) !! 1%nat
          = Some newSet
       /\ newBox ∈ hitboxes (ConvertHitboxes_191 12 68 sampleSets [] 400)
       /\ b_addr newBox = s_addr newSet + s_hitboxindex newSet + 0 * 68
       /\ b_bone newBox = 7.
Proof.
  assert (Hall : Forall (fun c => 0 <= numhitboxes c) sampleSets)
    by (repeat constructor; cbn; lia).
  assert (Hfit : 12 * Z.of_nat (length sampleSets)
                 + 68 * sumBoxes sampleSets < 2 ^ 31)
    by (vm_compute; reflexivity).
  split; [exact Hall|]. split; [exact Hfit|].
  eexists. 
  destruct (hitboxes_follow_their_set 12 68 sampleSets [] 400 1%nat _
              ltac:(lia) ltac:(lia) Hall Hfit eq_refl)
    as (newSet & Hset & _ & _ & Hboxes).
  destruct (Hboxes 0 ltac:(cbn; lia))
    as ((newBox & Hin & Haddr & Hbone & _) & _).
  exists newSet, newBox. split; [reflexivity|]. split; [exact Hset|].
  split; [exact Hin|]. split; [exact Haddr|exact Hbone].
Defined.

End Hitboxes.

(* ------------------------------------------------------------------ *)
(** ** Body parts, models and meshes ([ConvertBodyParts_191],
       [rmdl_191.cpp], lines 932-1030; [ConvertBodyParts_160], v16 file,
       lines 906-1004) *)

Module BodyParts.
Import Arena.

(** The source records as far as the converter reads them; [pModel j] is
    the [j]-th model of a body part and [pMesh k] the [k]-th mesh of a
    model.  The centre of a mesh is carried as bit patterns. *)
Record mstudiomesh_v191 := {
  material : Z;
  meshid : Z;
  center : list Z
}.

Record mstudiomodel_v191 := {
  pszString : string;
  meshCountTotal : Z;
  pMesh : nat -> mstudiomesh_v191
}.

Record mstudiobodyparts_v191 := {
  pszName : string;
  nummodels : Z;
  base : Z;
  pModel : nat -> mstudiomodel_v191
}.

(** The converted records, each with the arena offset it is written at.
    The fields of a model and of a mesh that the converter sets to zero
    are gathered in [m_zeroed] and [e_zeroed]. *)
Record mstudiobodyparts_v8 := {
  p_addr : Z;
  p_nummodels : Z;
  p_base : Z;
  p_modelindex : Z
}.

Record mstudiomodel_v8 := {
  m_addr : Z;
  m_name : string;
  m_type : Z;
  m_nummeshes : Z;
  m_meshindex : Z;
  m_zeroed : list Z
}.

Record mstudiomesh_v8 := {
  e_addr : Z;
  e_material : Z;
  e_meshid : Z;
  e_center : list Z;
  e_zeroed : list Z;
  e_modelindex : Z
}.

Record converted := {
  bodypartindex : Z;
  parts : list mstudiobodyparts_v8;
  models : list mstudiomodel_v8;
  meshes : list mstudiomesh_v8;
  strings : list stringentry;
  pData : Z
}.

(** The state of the second loop. *)
Record written := {
  w_pData : Z;
  w_parts : list mstudiobodyparts_v8;
  w_models : list mstudiomodel_v8;
  w_meshes : list mstudiomesh_v8
}.

Section ConvertBodyParts.

(** Sizes of the three target records and of the name field of a model,
    declared in the missing header. *)
Variable sizeof_mstudiobodyparts : Z.
Variable sizeof_mstudiomodel : Z.
Variable sizeof_mstudiomesh : Z.
Variable sizeof_name : Z.

(** The first loop: one name per body part, the cursor behind the
    headers. *)
Definition writePartHeader (st : Z * list stringentry)
    (oldbodypart : mstudiobodyparts_v191) : Z * list stringentry :=
  let newbodypart := st.1 in
  (newbodypart + sizeof_mstudiobodyparts,
   st.2 ++ [ {| owner := newbodypart; slot := "sznameindex";
                text := pszName oldbodypart |} ]).

(** [strncpy_s (name, sizeof (name), modelName, _TRUNCATE)] into a zeroed
    field. *)
Definition copyName (modelName : string) : string :=
  substring 0 (Z.to_nat (sizeof_name - 1)) modelName.

(** Mesh [k] of a model, written at [newMeshes + k]. *)
Definition writeMesh (newModel newMeshes : Z) (oldModel : mstudiomodel_v191)
    (k : nat) : mstudiomesh_v8 :=
  let oldMesh := pMesh oldModel k in
  let newMesh := newMeshes + Z.of_nat k * sizeof_mstudiomesh in
  {| e_addr := newMesh;
     e_material := material oldMesh;
     e_meshid := meshid oldMesh;
     e_center := center oldMesh;
     e_zeroed := [0; 0; 0];
     e_modelindex := s32 (newModel - newMesh) |}.

(** Model [j] of a body part: its header at [newModels + j], filled by the
    two inner loops, and its meshes at the cursor. *)
Definition writeModel (newModels : Z) (oldbodypart : mstudiobodyparts_v191)
    (st : written) (j : nat) : written :=
  let oldModel := pModel oldbodypart j in
  let newModel := newModels + Z.of_nat j * sizeof_mstudiomodel in
  let newMeshes := w_pData st in
  {| w_pData := newMeshes + meshCountTotal oldModel * sizeof_mstudiomesh;
     w_parts := w_parts st;
     w_models :=
       w_models st
       ++ [ {| m_addr := newModel;
               m_name := copyName (pszString oldModel);
               m_type := 0;
               m_nummeshes := meshCountTotal oldModel;
               m_meshindex := s32 (newMeshes - newModel);
               m_zeroed := [0; 0; 0; 0; 0; 0; 0; 0; 0; 0] |} ];
     w_meshes :=
       w_meshes st
       ++ map (writeMesh newModel newMeshes oldModel)
            (seq 0 (Z.to_nat (meshCountTotal oldModel))) |}.

(** The body of the second loop for body part [i]. *)
Definition writePart (bodypartStart : Z) (st : written)
    (p : nat * mstudiobodyparts_v191) : written :=
  let oldbodypart := p.2 in
  let newbodypart :=
    bodypartStart + Z.of_nat p.1 * sizeof_mstudiobodyparts in
  let newModels := w_pData st in
  let st :=
    {| w_pData := newModels + nummodels oldbodypart * sizeof_mstudiomodel;
       w_parts :=
         w_parts st
         ++ [ {| p_addr := newbodypart;
                 p_nummodels := nummodels oldbodypart;
                 p_base := base oldbodypart;
                 p_modelindex := s32 (newModels - newbodypart) |} ];
       w_models := w_models st;
       w_meshes := w_meshes st |} in
  fold_left (writeModel newModels oldbodypart)
    (seq 0 (Z.to_nat (nummodels oldbodypart))) st.

(** [ConvertBodyParts_191] from the cursor [pData0] on. *)
Definition ConvertBodyParts_191 (oldParts : list mstudiobodyparts_v191)
    (strings0 : list stringentry) (pData0 : Z) : converted :=
  let bodypartStart := pData0 in
  let '(pData, strings) :=
    fold_left writePartHeader oldParts (pData0, strings0) in
  let st :=
    fold_left (writePart bodypartStart) (imap pair oldParts)
      {| w_pData := pData; w_parts := []; w_models := [];
         w_meshes := [] |} in
  {| bodypartindex := s32 pData0; parts := w_parts st;
     models := w_models st; meshes := w_meshes st; strings := strings;
     pData := ALIGN4 (w_pData st) |}.

Definition ConvertBodyParts_160 := ConvertBodyParts_191.

(** *** Sizes *)

(** The meshes of the first [n] models of a body part, counted. *)
Definition sumMeshes (bp : mstudiobodyparts_v191) (n : nat) : Z :=
  foldr (fun j a => meshCountTotal (pModel bp j) + a) 0 (seq 0 n).

(** The bytes written for a body part behind the header array. *)
Definition partSize (bp : mstudiobodyparts_v191) : Z :=
  nummodels bp * sizeof_mstudiomodel
  + sizeof_mstudiomesh * sumMeshes bp (Z.to_nat (nummodels bp)).

Definition partsSize (l : list mstudiobodyparts_v191) : Z :=
  foldr (fun bp a => partSize bp + a) 0 l.

(** Counts that are not negative. *)
Definition countsInRange (bp : mstudiobodyparts_v191) : Prop :=
  0 <= nummodels bp
  /\ forall j, (j < Z.to_nat (nummodels bp))%nat ->
               0 <= meshCountTotal (pModel bp j).

Lemma sumMeshes_S bp n :
  sumMeshes bp (S n) = sumMeshes bp n + meshCountTotal (pModel bp n).
Proof.
  unfold sumMeshes. rewrite seq_S, foldr_app. cbn [foldr Nat.add].
  generalize (seq 0 n). intros l.
  induction l as [|x l IH]; cbn [foldr]; lia.
Qed.

Lemma sumMeshes_mono bp n m :
  (forall j, (j < m)%nat -> 0 <= meshCountTotal (pModel bp j)) ->
  (n <= m)%nat ->
  0 <= sumMeshes bp n <= sumMeshes bp m.
Proof.
  intros Hnn Hle. induction m as [|m IH].
  - assert (n = 0%nat) as -> by lia. cbn. lia.
  - destruct (decide (n = S m)) as [->|Hne].
    + split; [|lia]. rewrite sumMeshes_S.
      assert (0 <= sumMeshes bp m <= sumMeshes bp m) as [? _].
      { clear -Hnn. induction m as [|m IH]; [cbn; lia|].
        rewrite sumMeshes_S.
        assert (0 <= sumMeshes bp m) by (apply IH; intros; apply Hnn; lia).
        specialize (Hnn m ltac:(lia)). lia. }
      specialize (Hnn m ltac:(lia)). lia.
    + rewrite sumMeshes_S. specialize (Hnn m ltac:(lia)) as Hm.
      assert (0 <= sumMeshes bp n <= sumMeshes bp m)
        by (apply IH; [intros; apply Hnn; lia|lia]).
      lia.
Qed.

Lemma partsSize_app l1 l2 :
  partsSize (l1 ++ l2) = partsSize l1 + partsSize l2.
Proof.
  unfold partsSize. induction l1 as [|c l1 IH]; cbn [foldr app]; [done|].
  rewrite IH. lia.
Qed.

Lemma partsSize_snoc l bp : partsSize (l ++ [bp]) = partsSize l + partSize bp.
Proof. rewrite partsSize_app. unfold partsSize. cbn [foldr]. lia. Qed.

Lemma partsSize_cons l bp : partsSize (bp :: l) = partSize bp + partsSize l.
Proof. reflexivity. Qed.

(** *** Where the models and meshes end up *)

(** The converted header of a model at [newModel] whose meshes start at
    [newMeshes]. *)
Definition convertedModel (newModel newMeshes : Z)
    (oldModel : mstudiomodel_v191) : mstudiomodel_v8 :=
  {| m_addr := newModel;
     m_name := copyName (pszString oldModel);
     m_type := 0;
     m_nummeshes := meshCountTotal oldModel;
     m_meshindex := s32 (newMeshes - newModel);
     m_zeroed := [0; 0; 0; 0; 0; 0; 0; 0; 0; 0] |}.

Lemma writeModel_fold newModels (bp : mstudiobodyparts_v191) (n : nat) :
  forall st,
  let st' := fold_left (writeModel newModels bp) (seq 0 n) st in
  w_pData st' = w_pData st + sizeof_mstudiomesh * sumMeshes bp n
  /\ w_parts st' = w_parts st
  /\ (forall x, x ∈ w_models st -> x ∈ w_models st')
  /\ (forall x, x ∈ w_meshes st -> x ∈ w_meshes st')
  /\ forall j, (j < n)%nat ->
       let newModel := newModels + Z.of_nat j * sizeof_mstudiomodel in
       let newMeshes := w_pData st + sizeof_mstudiomesh * sumMeshes bp j in
       convertedModel newModel newMeshes (pModel bp j) ∈ w_models st'
       /\ forall k, (k < Z.to_nat (meshCountTotal (pModel bp j)))%nat ->
            writeMesh newModel newMeshes (pModel bp j) k ∈ w_meshes st'.
Proof.
  induction n as [|n IH]; intros st; cbv zeta.
  - cbn. split; [lia|]. split; [done|]. split; [done|]. split; [done|].
    intros j Hj. lia.
  - rewrite seq_S, fold_left_app. cbn [fold_left Nat.add].
    destruct (IH st) as (Hp & Hparts & Hkm & Hke & Hnew). clear IH.
    cbv zeta in Hnew.
    set (st1 := fold_left (writeModel newModels bp) (seq 0 n) st) in *.
    cbn [writeModel w_pData w_parts w_models w_meshes].
    rewrite Hp, Hparts, sumMeshes_S.
    split; [lia|]. split; [done|].
    split; [intros x Hx; apply elem_of_app; left; by apply Hkm|].
    split; [intros x Hx; apply elem_of_app; left; by apply Hke|].
    intros j Hj. destruct (decide (j < n)%nat) as [Hlt|Hge].
    + destruct (Hnew j Hlt) as [Hm He]. split.
      * apply elem_of_app. by left.
      * intros k Hk. apply elem_of_app. left. by apply He.
    + assert (j = n) as -> by lia. split.
      * apply elem_of_app. right. apply list_elem_of_singleton. done.
      * intros k Hk. apply elem_of_app. right.
        apply list_elem_of_fmap. exists k. split; [done|].
        apply elem_of_seq. lia.
Qed.

Lemma partSize_nonneg bp :
  0 <= sizeof_mstudiomodel -> 0 <= sizeof_mstudiomesh ->
  countsInRange bp -> 0 <= partSize bp.
Proof.
  intros Hm He [Hn Hc]. unfold partSize.
  pose proof (sumMeshes_mono bp (Z.to_nat (nummodels bp))
                (Z.to_nat (nummodels bp)) Hc ltac:(lia)).
  nia.
Qed.

Lemma partsSize_nonneg l :
  0 <= sizeof_mstudiomodel -> 0 <= sizeof_mstudiomesh ->
  Forall countsInRange l -> 0 <= partsSize l.
Proof.
  intros Hm He. unfold partsSize.
  induction l as [|bp l IH]; intros Hall; cbn [foldr]; [done|].
  apply Forall_cons in Hall as [Hbp Hall]. specialize (IH Hall).
  pose proof (partSize_nonneg bp Hm He Hbp). lia.
Qed.

(** The second loop after the body parts [pre]. *)
Lemma writePart_fold bodypartStart q0 (pre : list mstudiobodyparts_v191) :
  Forall countsInRange pre ->
  let st :=
    fold_left (writePart bodypartStart) (imap pair pre)
      {| w_pData := q0; w_parts := []; w_models := []; w_meshes := [] |} in
  w_pData st = q0 + partsSize pre
  /\ length (w_parts st) = length pre
  /\ forall i bp, pre !! i = Some bp ->
       let newModels := q0 + partsSize (take i pre) in
       let newbodypart :=
         bodypartStart + Z.of_nat i * sizeof_mstudiobodyparts in
       w_parts st !! i
       = Some {| p_addr := newbodypart; p_nummodels := nummodels bp;
                 p_base := base bp;
                 p_modelindex := s32 (newModels - newbodypart) |}
       /\ forall j, (j < Z.to_nat (nummodels bp))%nat ->
            let newModel := newModels + Z.of_nat j * sizeof_mstudiomodel in
            let newMeshes :=
              newModels + nummodels bp * sizeof_mstudiomodel
              + sizeof_mstudiomesh * sumMeshes bp j in
            convertedModel newModel newMeshes (pModel bp j) ∈ w_models st
            /\ forall k,
                 (k < Z.to_nat (meshCountTotal (pModel bp j)))%nat ->
                 writeMesh newModel newMeshes (pModel bp j) k ∈ w_meshes st.
Proof.
  induction pre as [|bp pre IH] using rev_ind; intros Hall.
  - cbn. split; [lia|]. split; [done|]. intros i c Hi. by destruct i.
  - apply Forall_app in Hall as [Hpre Hbp].
    apply Forall_cons in Hbp as [Hbp _].
    destruct (IH Hpre) as (Hq & Hlen & Hlookup). clear IH.
    cbv zeta in Hlookup.
    rewrite imap_app, fold_left_app. cbn [imap fold_left].
    set (st := fold_left (writePart bodypartStart) (imap pair pre) _) in *.
    cbv zeta. unfold writePart. cbn [fst snd]. rewrite !Nat.add_0_r.
    match goal with
    | |- context [fold_left (writeModel ?nm bp) _ ?start] =>
        destruct (writeModel_fold nm bp (Z.to_nat (nummodels bp)) start)
          as (Hp' & Hparts' & Hkm' & Hke' & Hnew')
    end.
    cbv zeta in Hnew'.
    cbn [w_pData w_parts w_models w_meshes] in Hp', Hparts', Hkm', Hke', Hnew'.
    rewrite Hp', Hparts', partsSize_snoc.
    rewrite !length_app, Hlen. cbn [length].
    split; [unfold partSize; lia|]. split; [done|].
    intros i c' Hi.
    destruct (decide (i < length pre)%nat) as [Hlt|Hge].
    + rewrite lookup_app_l in Hi by lia.
      rewrite take_app_le by lia.
      destruct (Hlookup i c' Hi) as (Hpart & Hmodels).
      split; [by rewrite lookup_app_l by lia|].
      intros j Hj. destruct (Hmodels j Hj) as (Hm & He).
      split; [by apply Hkm'|].
      intros k Hk. apply Hke'. by apply He.
    + pose proof (lookup_lt_Some _ _ _ Hi) as Hi'.
      rewrite length_app in Hi'. cbn in Hi'.
      assert (i = length pre) as -> by lia.
      rewrite lookup_app_r in Hi by lia. rewrite Nat.sub_diag in Hi.
      cbn in Hi. injection Hi as <-.
      rewrite take_app_length.
      split.
      * rewrite lookup_app_r by lia. rewrite Hlen, Nat.sub_diag. cbn.
        by rewrite Hq.
      * intros j Hj. rewrite <- Hq. by apply Hnew'.
Qed.

Lemma writePartHeader_fold (l : list mstudiobodyparts_v191) : forall p strs,
  (fold_left writePartHeader l (p, strs)).1
  = p + Z.of_nat (length l) * sizeof_mstudiobodyparts.
Proof.
  induction l as [|c l IH]; intros p strs; cbn [fold_left length].
  - cbn. lia.
  - unfold writePartHeader at 2. cbn [fst snd]. rewrite IH. lia.
Qed.

(** X10.  For body parts with non-negative counts whose records stay below
    2 GiB, the three levels of offsets agree: the model offset of a body
    part leads to its models, the mesh offset of a model leads to its
    meshes, and the (negative) model offset stored in a mesh leads back
    from the mesh to the model that owns it.  The converted body part and
    model keep the source's counts, the mesh keeps the source's material
    and mesh id. *)
Theorem meshes_point_back_to_their_model
    (oldParts : list mstudiobodyparts_v191) (strings0 : list stringentry)
    (pData0 : Z) (i j k : nat) (bp : mstudiobodyparts_v191) :
  0 < sizeof_mstudiobodyparts ->
  0 < sizeof_mstudiomodel ->
  0 < sizeof_mstudiomesh ->
  Forall countsInRange oldParts ->
  sizeof_mstudiobodyparts * Z.of_nat (length oldParts)
  + partsSize oldParts < 2 ^ 31 ->
  oldParts !! i = Some bp ->
  (j < Z.to_nat (nummodels bp))%nat ->
  (k < Z.to_nat (meshCountTotal (pModel bp j)))%nat ->
  let out := ConvertBodyParts_191 oldParts strings0 pData0 in
  exists newPart newModel newMesh,
    parts out !! i = Some newPart
    /\ newModel ∈ models out
    /\ newMesh ∈ meshes out
    /\ p_addr newPart = pData0 + Z.of_nat i * sizeof_mstudiobodyparts
    /\ p_nummodels newPart = nummodels bp
    /\ m_addr newModel
       = p_addr newPart + p_modelindex newPart
         + Z.of_nat j * sizeof_mstudiomodel
    /\ m_nummeshes newModel = meshCountTotal (pModel bp j)
    /\ e_addr newMesh
       = m_addr newModel + m_meshindex newModel
         + Z.of_nat k * sizeof_mstudiomesh
    /\ e_addr newMesh + e_modelindex newMesh = m_addr newModel
    /\ e_material newMesh = material (pMesh (pModel bp j) k)
    /\ e_meshid newMesh = meshid (pMesh (pModel bp j) k).
Proof.
  intros Hszp Hszm Hsze Hall Hfit Hi Hj Hk out.
  pose proof (lookup_lt_Some _ _ _ Hi) as Hlt.
  pose proof (Forall_lookup_1 _ _ _ _ Hall Hi) as [Hn Hcounts].
  (* the sizes before and inside the body part *)
  assert (Hbefore : 0 <= partsSize (take i oldParts)
                    /\ partsSize (take i oldParts) + partSize bp
                       <= partsSize oldParts).
  { rewrite <- (take_drop_middle oldParts i bp Hi) at 3.
    rewrite partsSize_app, partsSize_cons.
    pose proof Hall as Hall'.
    rewrite <- (take_drop_middle oldParts i bp Hi) in Hall'.
    apply Forall_app in Hall' as [Htake Hdrop].
    apply Forall_cons in Hdrop as [_ Hdrop].
    pose proof (partsSize_nonneg _ ltac:(lia) ltac:(lia) Htake).
    pose proof (partsSize_nonneg _ ltac:(lia) ltac:(lia) Hdrop). lia. }
  assert (Hinside : 0 <= sumMeshes bp j
                    /\ sumMeshes bp j + meshCountTotal (pModel bp j)
                       <= sumMeshes bp (Z.to_nat (nummodels bp))).
  { pose proof (sumMeshes_mono bp j (Z.to_nat (nummodels bp)) Hcounts
                  ltac:(lia)) as [H0 _].
    pose proof (sumMeshes_mono bp (S j) (Z.to_nat (nummodels bp)) Hcounts
                  ltac:(lia)) as [_ H1].
    rewrite sumMeshes_S in H1. lia. }
  unfold partSize in Hbefore.
  set (A := partsSize (take i oldParts)) in *.
  set (Sj := sumMeshes bp j) in *.
  set (Sn := sumMeshes bp (Z.to_nat (nummodels bp))) in *.
  set (cnt := meshCountTotal (pModel bp j)) in *.
  assert (Hpi : 0 <= Z.of_nat i * sizeof_mstudiobodyparts
                <= Z.of_nat (length oldParts) * sizeof_mstudiobodyparts)
    by nia.
  assert (Hpj : 0 <= Z.of_nat j * sizeof_mstudiomodel
                < nummodels bp * sizeof_mstudiomodel) by nia.
  assert (Hpk : 0 <= sizeof_mstudiomesh * Sj
                /\ sizeof_mstudiomesh * Sj + Z.of_nat k * sizeof_mstudiomesh
                   < sizeof_mstudiomesh * Sn) by nia.
  (* the converter *)
  unfold out, ConvertBodyParts_191.
  pose proof (writePartHeader_fold oldParts pData0 strings0) as Hhead.
  destruct (fold_left writePartHeader oldParts (pData0, strings0))
    as [q0 strs]. cbn [fst] in Hhead. subst q0.
  destruct (writePart_fold pData0
              (pData0 + Z.of_nat (length oldParts) * sizeof_mstudiobodyparts)
              oldParts Hall) as (_ & _ & Hlookup).
  destruct (Hlookup i bp Hi) as (Hpart & Hmodels). clear Hlookup.
  destruct (Hmodels j Hj) as (Hmodel & Hmeshes). clear Hmodels.
  specialize (Hmeshes k Hk).
  cbn [parts models meshes].
  eexists _, _, _.
  split; [exact Hpart|]. split; [exact Hmodel|]. split; [exact Hmeshes|].
  cbn [p_addr p_nummodels p_modelindex convertedModel m_addr m_nummeshes
       m_meshindex writeMesh e_addr e_modelindex e_material e_meshid].
  fold A Sj.
  split; [done|]. split; [done|].
  split; [rewrite s32_small; lia|]. split; [done|].
  split; [rewrite !s32_small; lia|].
  split; [rewrite s32_small; lia|]. done.
Qed.

End ConvertBodyParts.

(** *** Two body parts *)

Definition sampleModel (name : string) (n first : Z) : mstudiomodel_v191 :=
  {| pszString := name; meshCountTotal := n;
     pMesh := fun k => {| material := first + Z.of_nat k;
                          meshid := Z.of_nat k; center := [0; 0; 0] |} |}.

(** A body part of one model with two meshes, and a body part of two
    models with one and three meshes; sample sizes of 16, 148 and 116 bytes
    for the three records and of 64 bytes for the name field. *)
Definition sampleParts : list mstudiobodyparts_v191 :=
  [ {| pszName := "body"; nummodels := 1; base := 1;
       pModel := fun _ => sampleModel "body_lod0" 2 0 |};
    {| pszName := "head"; nummodels := 2; base := 1;
       pModel := fun j => match j with
                          | O => sampleModel "head_a" 1 10
                          | _ => sampleModel "head_b" 3 20
                          end |} ].

Definition samplePartsConverted : converted :=
  ConvertBodyParts_191 16 148 116 64 sampleParts [] 1000.

Example sampleParts_converted :
  map (fun c => (p_addr c, p_nummodels c, p_modelindex c))
    (parts samplePartsConverted)
  = [(1000, 1, 32); (1016, 2, 396)]
  /\ map (fun c => (m_addr c, m_nummeshes c, m_meshindex c))
       (models samplePartsConverted)
     = [(1032, 2, 148); (1412, 1, 296); (1560, 3, 264)]
  /\ map (fun c => (e_addr c, e_material c, e_modelindex c))
       (meshes samplePartsConverted)
     = [(1180, 0, -148); (1296, 1, -264); (1708, 10, -296);
        (1824, 20, -264); (1940, 21, -380); (2056, 22, -496)].
Proof. vm_compute. done. Qed.

Lemma meshes_point_back_to_their_model_witness :
  Forall (countsInRange) sampleParts
  /\ 16 * Z.of_nat (length sampleParts) + partsSize 148 116 sampleParts
     < 2 ^ 31
  /\ exists newModel newMesh,
       newModel ∈ models samplePartsConverted
       /\ newMesh ∈ meshes samplePartsConverted
       /\ e_material newMesh = 22
       /\ e_addr newMesh + e_modelindex newMesh = m_addr newModel
       /\ m_nummeshes newModel = 3.
Proof.
  assert (Hall : Forall countsInRange sampleParts).
  { constructor; [|constructor; [|constructor]].
    - split; [cbn; lia|]. intros j Hj. cbn. lia.
    - split; [cbn; lia|]. intros [|j] Hj; cbn; lia. }
  assert (Hfit : 16 * Z.of_nat (length sampleParts)
                 + partsSize 148 116 sampleParts < 2 ^ 31)
    by (vm_compute; reflexivity).
  split; [exact Hall|]. split; [exact Hfit|].
  destruct (meshes_point_back_to_their_model 16 148 116 64 sampleParts []
              1000 1%nat 1%nat 2%nat _ ltac:(lia) ltac:(lia) ltac:(lia)
              Hall Hfit eq_refl ltac:(cbn; lia) ltac:(cbn; lia))
    as (newPart & newModel & newMesh & _ & Hmodel & Hmesh & _ & _ & _
        & Hcount & _ & Hback & Hmat & _).
  exists newModel, newMesh.
  split; [exact Hmodel|]. split; [exact Hmesh|]. split; [exact Hmat|].
  split; [exact Hback|exact Hcount].
Defined.

End BodyParts.

(* ------------------------------------------------------------------ *)
(** ** The model header ([ConvertStudioHdr_191], [rmdl_191.cpp],
       lines 606-687; [ConvertStudioHdr_160], v16 file, lines 582-663) *)

Module StudioHdr.

(** The fields of the source header the function reads.  Vectors and
    floats are carried as bit patterns. *)
Record studiohdr_v191 := {
  checksum : Z;
  illumposition : list Z;
  hull_min : list Z;
  hull_max : list Z;
  view_bbmin : list Z;
  view_bbmax : list Z;
  flags : Z;
  boneCount : Z;
  numhitboxsets : Z;
  numlocalseq : Z;
  activitylistversion : Z;
  numtextures : Z;
  numskinref : Z;
  numskinfamilies : Z;
  numbodyparts : Z;
  numlocalattachments : Z;
  numlocalnodes : Z;
  numikchains : Z;
  numlocalposeparameters : Z;
  numsrcbonetransform : Z;
  mass : Z;
  contents : Z;
  fadeDistance : Z
}.

(** The fields of the target header the function sets to something other
    than zero, and the flags. *)
Record studiohdr_v8 := {
  o_id : Z;
  o_version : Z;
  o_checksum : Z;
  o_length : Z;
  o_illumposition : list Z;
  o_hull_min : list Z;
  o_hull_max : list Z;
  o_mins : list Z;
  o_maxs : list Z;
  o_view_bbmin : list Z;
  o_view_bbmax : list Z;
  o_flags : Z;
  o_numbones : Z;
  o_numhitboxsets : Z;
  o_numlocalseq : Z;
  o_activitylistversion : Z;
  o_numtextures : Z;
  o_numcdtextures : Z;
  o_numskinref : Z;
  o_numskinfamilies : Z;
  o_numbodyparts : Z;
  o_numlocalattachments : Z;
  o_numlocalnodes : Z;
  o_numikchains : Z;
  o_numlocalposeparameters : Z;
  o_numsrcbonetransform : Z;
  o_numincludemodels : Z;
  o_mass : Z;
  o_contents : Z;
  o_defaultFadeDist : Z;
  o_flVertAnimFixedPointScale : Z;
  o_phyOffset : Z
}.

(** The three [&=] on the [int] copy of the flags. *)
Definition filterHeaderFlags (flags : Z) : Z :=
  let headerFlags := flags in
  let headerFlags := Z.land headerFlags (Z.lnot 0x2000000) in
  let headerFlags := Z.land headerFlags (Z.lnot 0x10000) in
  let headerFlags := Z.land headerFlags (Z.lnot 0x80000) in
  headerFlags.

(** ['TSDI'] and [1.0f]. *)
Definition IDST : Z := 0x54534449.
Definition float_1 : Z := 0x3F800000.

Definition ConvertStudioHdr_191 (hdr : studiohdr_v191) : studiohdr_v8 :=
  {| o_id := IDST;
     o_version := 54;
     o_checksum := checksum hdr;
     o_length := 0xbadf00d;
     o_illumposition := illumposition hdr;
     o_hull_min := hull_min hdr;
     o_hull_max := hull_max hdr;
     o_mins := hull_min hdr;
     o_maxs := hull_max hdr;
     o_view_bbmin := view_bbmin hdr;
     o_view_bbmax := view_bbmax hdr;
     o_flags := filterHeaderFlags (flags hdr);
     o_numbones := boneCount hdr;
     o_numhitboxsets := numhitboxsets hdr;
     o_numlocalseq := numlocalseq hdr;
     o_activitylistversion := activitylistversion hdr;
     o_numtextures := numtextures hdr;
     o_numcdtextures := 1;
     o_numskinref := numskinref hdr;
     o_numskinfamilies := numskinfamilies hdr;
     o_numbodyparts := numbodyparts hdr;
     o_numlocalattachments := numlocalattachments hdr;
     o_numlocalnodes := numlocalnodes hdr;
     o_numikchains := numikchains hdr;
     o_numlocalposeparameters := numlocalposeparameters hdr;
     o_numsrcbonetransform := numsrcbonetransform hdr;
     o_numincludemodels := -1;
     o_mass := mass hdr;
     o_contents := contents hdr;
     o_defaultFadeDist := fadeDistance hdr;
     o_flVertAnimFixedPointScale := float_1;
     o_phyOffset := -123456 |}.

Definition ConvertStudioHdr_160 := ConvertStudioHdr_191.

(** The three bits removed: 16 (ambient boost), 19 (subdivision surface)
    and 25 (uses UV2). *)
Definition removedBit (n : Z) : bool := (n =? 16) || (n =? 19) || (n =? 25).

Lemma filterHeaderFlags_bits flags n :
  0 <= n ->
  Z.testbit (filterHeaderFlags flags) n
  = Z.testbit flags n && negb (removedBit n).
Proof.
  intros Hn. unfold filterHeaderFlags, removedBit.
  change 0x2000000 with (2 ^ 25). change 0x10000 with (2 ^ 16).
  change 0x80000 with (2 ^ 19).
  rewrite !Z.land_spec, !Z.lnot_spec, !Z.pow2_bits_eqb by lia.
  rewrite (Z.eqb_sym 25 n), (Z.eqb_sym 16 n), (Z.eqb_sym 19 n).
  destruct (Z.testbit flags n), (n =? 16), (n =? 19), (n =? 25); reflexivity.
Qed.

(** X12.  The converted header carries the source flags without the bits
    0x10000 (ambient boost), 0x80000 (subdivision surface) and 0x2000000
    (uses UV2): these three bits are clear, every other bit is the
    source's, so no flag is ever added, and filtering twice changes
    nothing.  The counts the later passes loop over are the source's. *)
Theorem header_flags_filtered (hdr : studiohdr_v191) :
  let out := ConvertStudioHdr_191 hdr in
  (forall n, 0 <= n ->
     Z.testbit (o_flags out) n
     = Z.testbit (flags hdr) n && negb (removedBit n))
  /\ Z.land (o_flags out) (0x10000 + 0x80000 + 0x2000000) = 0
  /\ Z.lor (o_flags out) (flags hdr) = flags hdr
  /\ filterHeaderFlags (o_flags out) = o_flags out
  /\ o_numbones out = boneCount hdr
  /\ o_numlocalseq out = numlocalseq hdr
  /\ o_numbodyparts out = numbodyparts hdr
  /\ o_numikchains out = numikchains hdr
  /\ o_numhitboxsets out = numhitboxsets hdr.
Proof.
  cbn [ConvertStudioHdr_191 o_flags o_numbones o_numlocalseq o_numbodyparts
       o_numikchains o_numhitboxsets].
  split; [intros n Hn; by apply filterHeaderFlags_bits|].
  split; [|split; [|split; [|done]]].
  - apply Z.bits_inj'. intros n Hn.
    rewrite Z.land_spec, filterHeaderFlags_bits, Z.bits_0 by lia.
    destruct (removedBit n) eqn:Hrem.
    { cbn [negb]. by rewrite andb_false_r. }
    unfold removedBit in Hrem.
    rewrite !orb_false_iff, !Z.eqb_neq in Hrem.
    change (0x10000 + 0x80000 + 0x2000000)
      with (Z.lor (2 ^ 16) (Z.lor (2 ^ 19) (2 ^ 25))).
    rewrite !Z.lor_spec, !Z.pow2_bits_eqb by lia.
    destruct (Z.eqb_spec 16 n); [lia|].
    destruct (Z.eqb_spec 19 n); [lia|].
    destruct (Z.eqb_spec 25 n); [lia|]. apply andb_false_r.
  - apply Z.bits_inj'. intros n Hn.
    rewrite Z.lor_spec, filterHeaderFlags_bits by lia.
    destruct (Z.testbit (flags hdr) n), (removedBit n); reflexivity.
  - apply Z.bits_inj'. intros n Hn.
    rewrite !filterHeaderFlags_bits by lia.
    destruct (Z.testbit (flags hdr) n), (removedBit n); reflexivity.
Qed.

End StudioHdr.

(* ------------------------------------------------------------------ *)
(** ** Choosing the converter ([main.cpp], lines 168-306 and 484-515) *)

Module Dispatch.

Import Stdlib.Strings.Ascii.

Definition CONV_V8 : Z := 0.
Definition CONV_V121 : Z := 1.
Definition CONV_V122 : Z := 2.
Definition CONV_V124 : Z := 3.
Definition CONV_V125 : Z := 4.
Definition CONV_V140 : Z := 5.
Definition CONV_V150 : Z := 6.
Definition CONV_V160 : Z := 7.
Definition CONV_V191 : Z := 8.

(** A row of the table; [batchFlag] is [None] for a null pointer. *)
Record VersionMapping := {
  version : string;
  batchFlag : option string;
  converterID : Z;
  subversion : Z;
  hasVG : bool
}.

Definition row (v : string) (f : option string) (c s : Z) (vg : bool)
    : VersionMapping :=
  {| version := v; batchFlag := f; converterID := c; subversion := s;
     hasVG := vg |}.

Local Open Scope string_scope.

(** The rows before the terminator. *)
Definition s_versionMappings : list VersionMapping :=
  [ row "8" (Some "-v8") CONV_V8 0 false;
    row "12.1" (Some "-v121") CONV_V121 0 true;
    row "121" None CONV_V121 0 true;
    row "12.2" (Some "-v122") CONV_V122 0 true;
    row "122" None CONV_V122 0 true;
    row "12.3" (Some "-v123") CONV_V122 0 true;
    row "123" None CONV_V122 0 true;
    row "12.4" (Some "-v124") CONV_V124 0 true;
    row "124" None CONV_V124 0 true;
    row "12.5" (Some "-v125") CONV_V125 0 true;
    row "125" None CONV_V125 0 true;
    row "13" (Some "-v13") CONV_V125 0 true;
    row "13.1" (Some "-v131") CONV_V125 0 true;
    row "131" None CONV_V125 0 true;
    row "14" (Some "-v14") CONV_V140 0 false;
    row "14.1" (Some "-v141") CONV_V140 0 false;
    row "141" None CONV_V140 0 false;
    row "15" (Some "-v15") CONV_V150 0 false;
    row "16" (Some "-v16") CONV_V160 16 false;
    row "17" (Some "-v17") CONV_V160 17 false;
    row "18" (Some "-v18") CONV_V160 18 false;
    row "19" (Some "-v19") CONV_V160 19 false;
    row "19.1" (Some "-v191") CONV_V191 0 false;
    row "191" None CONV_V191 0 false ].

Local Close Scope string_scope.

(** The first row whose version is the string. *)
Definition FindVersionMapping (v : string) : option VersionMapping :=
  List.find (fun m => String.eqb v (version m)) s_versionMappings.

(** The first row that has a flag and whose flag is the string. *)
Definition FindVersionMappingByFlag (flag : string)
    : option VersionMapping :=
  List.find
    (fun m =>
       match batchFlag m with
       | Some f => String.eqb f flag
       | None => false
       end)
    s_versionMappings.

(** The converter a row dispatches to. *)
Inductive converter :=
  | ConvertRMDL8To10
  | ConvertRMDL121To10
  | ConvertRMDL122To10
  | ConvertRMDL124To10
  | ConvertRMDL125To10
  | ConvertRMDL140To10
  | ConvertRMDL150To10
  | ConvertRMDL160To10 (subversion : Z)
  | ConvertRMDL191To10.

(** [ConvertModel]: the converter called, [None] where the function
    returns false without calling one. *)
Definition ConvertModel (mapping : VersionMapping) : option converter :=
  let id := converterID mapping in
  if id =? CONV_V8 then Some ConvertRMDL8To10
  else if id =? CONV_V121 then Some ConvertRMDL121To10
  else if id =? CONV_V122 then Some ConvertRMDL122To10
  else if id =? CONV_V124 then Some ConvertRMDL124To10
  else if id =? CONV_V125 then Some ConvertRMDL125To10
  else if id =? CONV_V140 then Some ConvertRMDL140To10
  else if id =? CONV_V150 then Some ConvertRMDL150To10
  else if id =? CONV_V160 then Some (ConvertRMDL160To10 (subversion mapping))
  else if id =? CONV_V191 then Some ConvertRMDL191To10
  else None.

(** The loop of [main] over the table: the first row with a flag that the
    command line has.  [HasParam] tells which parameters it has. *)
Definition batchChoice (HasParam : string -> bool) : option VersionMapping :=
  List.find
    (fun m =>
       match batchFlag m with
       | Some f => HasParam f
       | None => false
       end)
    s_versionMappings.

(** The version string without its dots. *)
Fixpoint undot (s : string) : string :=
  match s with
  | EmptyString => EmptyString
  | String c s' =>
      if Ascii.eqb c "."%char then undot s' else String c (undot s')
  end.

Ltac each_row Hin :=
  repeat (destruct Hin as [<- | Hin]; [ | ]); [ .. | destruct Hin ].

(** X13.  The row that a batch flag of the command line selects is the row
    that [BatchConvertModels] finds again from the row's version string, and
    [ConvertModel] calls a converter for it: it does not return false.  The
    subversion handed to the v16 converter is between 16 and 19. *)
Theorem batch_flag_reaches_its_converter
    (HasParam : string -> bool) (m : VersionMapping) :
  batchChoice HasParam = Some m ->
  FindVersionMapping (version m) = Some m /\
  (exists c, ConvertModel m = Some c) /\
  (forall s, ConvertModel m = Some (ConvertRMDL160To10 s) -> 16 <= s <= 19).
Proof.
  intros Hm. unfold batchChoice in Hm.
  apply List.find_some in Hm as [Hin Hflag].
  cbv [s_versionMappings] in Hin.
  each_row Hin; cbn in Hflag; try discriminate Hflag;
    (split; [reflexivity |
     split; [eexists; reflexivity |
       intros s Hs; vm_compute in Hs; try discriminate Hs;
       injection Hs as <-; lia]]).
Qed.

(** X14.  A version string of the table, the same string without its dots
    and the batch flag made of [-v] and the undotted string select the same
    converter, the same subversion and the same choice about VG files; the
    converter exists for each. *)
Theorem version_spellings_agree (v : string) (m : VersionMapping) :
  FindVersionMapping v = Some m ->
  version m = v /\
  exists alias flagged c,
    FindVersionMapping (undot v) = Some alias /\
    FindVersionMappingByFlag (String.append "-v" (undot v)) = Some flagged /\
    ConvertModel m = Some c /\
    ConvertModel alias = Some c /\
    ConvertModel flagged = Some c /\
    hasVG alias = hasVG m /\
    hasVG flagged = hasVG m.
Proof.
  intros Hm. unfold FindVersionMapping in Hm.
  apply List.find_some in Hm as [Hin Hv].
  apply String.eqb_eq in Hv. subst v.
  cbv [s_versionMappings] in Hin.
  each_row Hin;
    (split; [reflexivity |
     eexists _, _, _; repeat (split; [reflexivity |]); reflexivity]).
Qed.

Lemma batch_flag_reaches_its_converter_witness :
  let HasParam := fun f => orb (String.eqb f "-v191"%string) (String.eqb f "-nopause"%string) in
  batchChoice HasParam = Some (row "19.1"%string (Some "-v191"%string) CONV_V191 0 false) /\
  ConvertModel (row "19.1"%string (Some "-v191"%string) CONV_V191 0 false)
    = Some ConvertRMDL191To10.
Proof.
  intros HasParam.
  assert (Hm : batchChoice HasParam
               = Some (row "19.1"%string (Some "-v191"%string) CONV_V191 0 false))
    by reflexivity.
  split; [exact Hm |].
  destruct (batch_flag_reaches_its_converter HasParam _ Hm)
    as (_ & [c Hc] & _).
  reflexivity.
Defined.

Lemma version_spellings_agree_witness :
  exists alias, FindVersionMapping "121"%string = Some alias /\ hasVG alias = true.
Proof.
  destruct (version_spellings_agree "12.1"%string
              (row "12.1"%string (Some "-v121"%string) CONV_V121 0 true) eq_refl)
    as (_ & alias & flagged & c & Ha & _ & _ & _ & _ & Hvg & _).
  exists alias. split; [exact Ha | exact Hvg].
Defined.

End Dispatch.
